(** * Ledger, auction and settlement core of the marketplace backend

    A shallow embedding of the route handlers that read or write the
    ledger ([transactions]), the auctions and bids, the NFT ownership
    flags, the stock purchases and the withdrawal requests.

    Conventions of the embedding:
    - a JavaScript [number] holding an amount is an exact rational [Q], so
      that the statements are about the arithmetic the routes intend; the
      amounts fixed by the scenarios are run on binary64 as well, in a
      section of their own;
    - a [Date] is its [getTime()] value, an integer count of milliseconds;
      a request reads the clock once ([now]);
    - a table is the list of its rows in insertion order;
    - every call to the store may reject: a request runs against a [Plan]
      that says, call by call, whether the store answers or throws;
    - identifiers produced by [uuidv4()] are supplied by the caller;
    - a handler is modelled from the point where authentication and
      schema validation have succeeded: its arguments are the token
      payload and the validated body. *)

From Stdlib Require Import List String Ascii ZArith QArith Qround Qminmax Qabs Bool Lia Lqa.
From Stdlib Require Import PrimFloat.
From Stdlib Require DecimalString DecimalNat.

Local Set Warnings "-inexact-float".
Import ListNotations.

Local Open Scope string_scope.
Local Open Scope Z_scope.

(** ** Data model (prisma schema and migrations) *)

Definition Id := string.
Definition DateTime := Z.
Bind Scope Z_scope with DateTime.

(** The enum of the ledger.  ['PURCHASE'] is queried by the profile route
    and is kept as a member for that reason. *)
Inductive TransactionType :=
  SALE | TRANSFER | MINT | DEPOSIT | WITHDRAWAL | PURCHASE.

Inductive WithdrawalStatus := PENDING | APPROVED | DENIED.

Definition TransactionType_eqb (a b : TransactionType) : bool :=
  match a, b with
  | SALE, SALE | TRANSFER, TRANSFER | MINT, MINT
  | DEPOSIT, DEPOSIT | WITHDRAWAL, WITHDRAWAL | PURCHASE, PURCHASE => true
  | _, _ => false
  end.

Definition WithdrawalStatus_eqb (a b : WithdrawalStatus) : bool :=
  match a, b with
  | PENDING, PENDING | APPROVED, APPROVED | DENIED, DENIED => true
  | _, _ => false
  end.

(** [a === b] on a nullable column compared with a string. *)
Definition nullable_is (o : option Id) (s : Id) : bool :=
  match o with
  | Some x => String.eqb x s
  | None => false
  end.

Module User.
Record t := { id : Id; username : string; email : string; isAdmin : bool }.
End User.

Module Collection.
Record t := { id : Id; creatorId : Id }.
End Collection.

Module NFT.
Record t := {
  id : Id;
  tokenId : string;
  name : string;
  price : option Q;
  isListed : bool;
  isSold : bool;
  creatorId : Id;
  ownerId : option Id;
  collectionId : option Id
}.
End NFT.

Module Auction.
Record t := {
  id : Id;
  nftId : Id;
  sellerId : Id;
  startPrice : Q;
  reservePrice : option Q;
  currentPrice : Q;
  startTime : DateTime;
  endTime : DateTime;
  isActive : bool
}.
End Auction.

Module Bid.
Record t := {
  id : Id;
  auctionId : Id;
  nftId : Id;
  bidderId : Id;
  amount : Q
}.
End Bid.

Module Transaction.
Record t := {
  id : Id;
  type : TransactionType;
  amount : Q;
  userId : Id;
  nftId : option Id;
  transactionHash : string
}.
End Transaction.

Module StockPurchase.
Record t := {
  id : Id;
  userId : Id;
  symbol : string;
  amountUSD : Q;
  priceUSD : Q;
  shares : Q;
  date : DateTime;
  lastProfitClaimAt : DateTime
}.
End StockPurchase.

Module WithdrawalRequest.
Record t := {
  id : Id;
  userId : Id;
  amount : Q;
  method : string;
  currency : string;
  details : string;
  status : WithdrawalStatus
}.
End WithdrawalRequest.

(** The store: one list of rows per table. *)
Record DB := {
  users : list User.t;
  collections : list Collection.t;
  nfts : list NFT.t;
  auctions : list Auction.t;
  bids : list Bid.t;
  transactions : list Transaction.t;
  stockPurchases : list StockPurchase.t;
  withdrawalRequests : list WithdrawalRequest.t
}.

Definition set_nfts (d : DB) (l : list NFT.t) : DB :=
  {| users := users d; collections := collections d; nfts := l;
     auctions := auctions d; bids := bids d; transactions := transactions d;
     stockPurchases := stockPurchases d;
     withdrawalRequests := withdrawalRequests d |}.

Definition set_auctions (d : DB) (l : list Auction.t) : DB :=
  {| users := users d; collections := collections d; nfts := nfts d;
     auctions := l; bids := bids d; transactions := transactions d;
     stockPurchases := stockPurchases d;
     withdrawalRequests := withdrawalRequests d |}.

Definition set_bids (d : DB) (l : list Bid.t) : DB :=
  {| users := users d; collections := collections d; nfts := nfts d;
     auctions := auctions d; bids := l; transactions := transactions d;
     stockPurchases := stockPurchases d;
     withdrawalRequests := withdrawalRequests d |}.

Definition set_transactions (d : DB) (l : list Transaction.t) : DB :=
  {| users := users d; collections := collections d; nfts := nfts d;
     auctions := auctions d; bids := bids d; transactions := l;
     stockPurchases := stockPurchases d;
     withdrawalRequests := withdrawalRequests d |}.

Definition set_stockPurchases (d : DB) (l : list StockPurchase.t) : DB :=
  {| users := users d; collections := collections d; nfts := nfts d;
     auctions := auctions d; bids := bids d; transactions := transactions d;
     stockPurchases := l;
     withdrawalRequests := withdrawalRequests d |}.

Definition set_withdrawalRequests (d : DB) (l : list WithdrawalRequest.t) : DB :=
  {| users := users d; collections := collections d; nfts := nfts d;
     auctions := auctions d; bids := bids d; transactions := transactions d;
     stockPurchases := stockPurchases d;
     withdrawalRequests := l |}.

(** The token payload handed over by [requireAuth]. *)
Record JWTPayload := { userId : Id; isAdmin : bool }.

(** ** The store as a monad of fallible calls *)

(** What a rejected call throws: an error whose [code] starts with ['P']
    (a known request error of the client) or anything else. *)
Inductive StoreError := KnownRequestError | OtherError.

(** One entry per call, in the order the calls are issued: [None] lets the
    call through, [Some e] makes it throw [e].  Past the end of the plan
    every call goes through. *)
Definition Plan := list (option StoreError).

Inductive Outcome (A : Type) :=
| Resolved (a : A) (p : Plan) (d : DB)
| Rejected (e : StoreError) (p : Plan) (d : DB).
Arguments Resolved {A} a p d.
Arguments Rejected {A} e p d.

Definition Prisma (A : Type) := Plan -> DB -> Outcome A.

Definition ret {A} (a : A) : Prisma A := fun p d => Resolved a p d.

Definition bind {A B} (m : Prisma A) (k : A -> Prisma B) : Prisma B :=
  fun p d =>
    match m p d with
    | Resolved a p' d' => k a p' d'
    | Rejected e p' d' => Rejected e p' d'
    end.

Notation "x <- m ;; k" := (bind m (fun x => k))
  (at level 61, m at next level, right associativity).
Notation "m ;;; k" := (bind m (fun _ => k))
  (at level 61, right associativity).

(** A single call: the plan decides whether the store is reached; once
    reached, the operation itself may refuse (a missing row on update). *)
Definition call {A} (op : DB -> StoreError + (A * DB)) : Prisma A :=
  fun p d =>
    match p with
    | Some e :: p' => Rejected e p' d
    | _ =>
        match op d with
        | inl e => Rejected e (tl p) d
        | inr (a, d') => Resolved a (tl p) d'
        end
    end.

Definition read {A} (f : DB -> A) : Prisma A :=
  call (fun d => inr (f d, d)).

Definition write (f : DB -> DB) : Prisma unit :=
  call (fun d => inr (tt, f d)).

(** [db.$transaction]: the writes of the body are kept when it resolves and
    discarded when it rejects. *)
Definition transaction {A} (body : Prisma A) : Prisma A :=
  fun p d =>
    match body p d with
    | Resolved a p' d' => Resolved a p' d'
    | Rejected e p' _ => Rejected e p' d
    end.

(** [try { body } catch (e) { handler }] around awaited calls. *)
Definition try_catch {A} (body : Prisma A) (handler : StoreError -> Prisma A)
  : Prisma A :=
  fun p d =>
    match body p d with
    | Resolved a p' d' => Resolved a p' d'
    | Rejected e p' d' => handler e p' d'
    end.

(** No call of the first [n] is made to throw. *)
Definition store_up (p : Plan) (n : nat) : bool :=
  forallb (fun o => match o with None => true | Some _ => false end)
          (firstn n p).

(** ** Responses *)

(** The [error] of a failed response; [message] gives the text the route
    sends where it is a constant. *)
Inductive ErrorKind :=
| UserNotFound
| NFTNotFound
| NFTNotAvailable
| OwnNFTPurchase
| NFTInActiveAuction
| InvalidPrice
| AuctionNotFound
| AuctionNotActive
| AuctionEnded
| OwnNFTBid
| BidTooLow (minimumBid : Q)
| AlreadyHighestBid
| CollectionNotFound
| NotOwnCollection
| InsufficientBalance (requiredAmount availableBalance : Q)
| NoAuctionPermission
| NFTAlreadySold
| NFTAlreadyInAuction
| InvalidStatus
| RequestNotFound
| DatabaseError
| InternalServerError.

Definition message (e : ErrorKind) : string :=
  match e with
  | UserNotFound => "User not found"
  | NFTNotFound => "NFT not found"
  | NFTNotAvailable => "NFT is not available for purchase"
  | OwnNFTPurchase => "You cannot purchase your own NFT"
  | NFTInActiveAuction => "NFT is currently in an active auction"
  | InvalidPrice => "NFT does not have a valid price"
  | AuctionNotFound => "Auction not found"
  | AuctionNotActive => "Auction is not active"
  | AuctionEnded => "Auction has ended"
  | OwnNFTBid => "You cannot bid on your own NFT"
  | BidTooLow _ => "Bid must be at least ${minimumBid} ETH"
  | AlreadyHighestBid => "You already have the highest bid"
  | CollectionNotFound => "Collection not found"
  | NotOwnCollection => "You can only add NFTs to your own collections"
  | InsufficientBalance _ _ => "Insufficient balance for NFT creation"
  | NoAuctionPermission => "You do not have permission to auction this NFT"
  | NFTAlreadySold => "NFT is already sold and not available for auction"
  | NFTAlreadyInAuction => "NFT already has an active auction"
  | InvalidStatus => "Invalid status"
  | RequestNotFound => "Not found"
  | DatabaseError => "Database operation failed"
  | InternalServerError => "Internal server error"
  end.

Record ProfileStats := {
  salesVolume : Q;
  purchaseVolume : Q;
  totalEarnings : Q;
  walletBalance : Q
}.

Inductive Payload :=
| Profile (stats : ProfileStats)
| NFTCreated (nft : NFT.t) (mintFee : Q) (mintTxId : Id) (newBalance : Q)
| NFTPurchased (transaction : Transaction.t) (nft : NFT.t)
| AuctionCreated (auction : Auction.t)
| BidPlaced (bid : Bid.t)
| ProfitClaim (claimedUSD : Q)
| RequestUpdated (request : WithdrawalRequest.t)
| PurchaseRecorded (purchase : StockPurchase.t).

Inductive Response :=
| Success (status : Z) (data : Payload)
| Failure (status : Z) (error : ErrorKind).

Definition is_success (r : Response) : bool :=
  match r with
  | Success _ _ => true
  | Failure _ _ => false
  end.

(** The outer [try]/[catch] of a route: what the handler returns, or what
    its [catch] block makes of the thrown error, with the store as the
    request leaves it. *)
Definition respond (body : Prisma Response) (on_error : StoreError -> Response)
  (p : Plan) (d : DB) : Response * DB :=
  match body p d with
  | Resolved r _ d' => (r, d')
  | Rejected e _ d' => (on_error e, d')
  end.

(** [catch] blocks of the routes. *)
Definition internal_error (_ : StoreError) : Response :=
  Failure 500 InternalServerError.

(** [if (error.code?.startsWith('P')) ... 400 ... else ... 500]. *)
Definition database_or_internal_error (e : StoreError) : Response :=
  match e with
  | KnownRequestError => Failure 400 DatabaseError
  | OtherError => Failure 500 InternalServerError
  end.

(** [handleDatabaseError(error)] sent with status 500. *)
Definition database_error_500 (_ : StoreError) : Response :=
  Failure 500 DatabaseError.

(** ** Ledger aggregation *)

Local Open Scope Q_scope.
Local Open Scope list_scope.

(** [_sum.amount] of [db.transaction.aggregate]: [null] over no row. *)
Definition sum_amount (rows : list Transaction.t) : option Q :=
  match rows with
  | [] => None
  | r :: rs =>
      Some (fold_left (fun acc t => acc + Transaction.amount t) rs
                      (Transaction.amount r))
  end.

Definition aggregate_sum (where_ : Transaction.t -> bool) : Prisma (option Q) :=
  read (fun d => sum_amount (filter where_ (transactions d))).

(** [x || 0] on a nullable number: [null] and [0] are both falsy. *)
Definition or_zero (x : option Q) : Q :=
  match x with
  | Some q => if Qeq_bool q 0 then 0 else q
  | None => 0
  end.

Definition of_user_and_type (uid : Id) (ty : TransactionType)
  (t : Transaction.t) : bool :=
  String.eqb (Transaction.userId t) uid
  && TransactionType_eqb (Transaction.type t) ty.




(** POST /api/nfts, the block that computes [availableBalance]. *)
Definition availableBalance (uid : Id) : Prisma Q :=
  creditsAgg <- aggregate_sum (of_user_and_type uid DEPOSIT) ;;
  withdrawalsAgg <- aggregate_sum (of_user_and_type uid WITHDRAWAL) ;;
  mintsAgg <- aggregate_sum (of_user_and_type uid MINT) ;;
  let credits := or_zero creditsAgg in
  let debits := or_zero withdrawalsAgg + or_zero mintsAgg in
  ret (credits - debits).

(** The balance as the specification words it: the amounts of the user's
    rows of one type, added up, deposits counted positive, withdrawals and
    mint fees negative. *)
Definition ledger_total (d : DB) (uid : Id) (ty : TransactionType) : Q :=
  fold_right (fun t acc => Transaction.amount t + acc) 0
             (filter (of_user_and_type uid ty) (transactions d)).

Definition spendable_balance (d : DB) (uid : Id) : Q :=
  ledger_total d uid DEPOSIT - ledger_total d uid WITHDRAWAL
  - ledger_total d uid MINT.

(** ** Comparisons and roundings of numbers *)

(** [a < b] on numbers. *)
Definition Qlt_bool (a b : Q) : bool := negb (Qle_bool b a).

(** Truncation toward zero, as the [Date] constructor applies it to a time
    value. *)
Definition Qtrunc (q : Q) : Z :=
  if Qle_bool 0 q then Qfloor q else Qceiling q.

(** [Number(x.toFixed(2))]: the nearest multiple of 1/100, a tie going away
    from zero; from 10^21 on [toFixed] prints the number itself. *)
Definition toFixed2 (x : Q) : Q :=
  let m := Qabs x in
  if Qle_bool (inject_Z (10 ^ 21)) m then x
  else
    let n := Qfloor (m * 100 + (1 # 2)) in
    if Qlt_bool x 0 then - (inject_Z n / 100) else inject_Z n / 100.

(** ** POST /api/nfts: mint with a fee *)

Module NFTCreate.
Record t := {
  name : string;
  price : option Q;
  collectionId : option Id
}.
End NFTCreate.

Definition MINT_FEE : Q := 0.1.

(** [if (collectionId)] on an optional string. *)
Definition truthy (o : option string) : bool :=
  match o with
  | Some s => negb (String.eqb s "")
  | None => false
  end.

(** [generateUniqueTokenId]: one lookup per draw of the random generator,
    until a draw is not in use.  [draws] are the successive draws; [None]
    says that the loop is still running when they are used up. *)
Fixpoint generateUniqueTokenId (draws : list string) : Prisma (option string) :=
  match draws with
  | [] => ret None
  | tokenId :: rest =>
      existing <- read (fun d =>
        find (fun n => String.eqb (NFT.tokenId n) tokenId) (nfts d)) ;;
      match existing with
      | Some _ => generateUniqueTokenId rest
      | None => ret (Some tokenId)
      end
  end.

Definition create_nft (n : NFT.t) : Prisma NFT.t :=
  call (fun d => inr (n, set_nfts d (nfts d ++ [n]))).

Definition create_transaction (t : Transaction.t) : Prisma Transaction.t :=
  call (fun d => inr (t, set_transactions d (transactions d ++ [t]))).

(** The collection check at the head of the route: [Some r] is the early
    return. *)
Definition check_collection (user : JWTPayload) (collectionId : option Id)
  : Prisma (option Response) :=
  if truthy collectionId then
    collection <- read (fun d =>
      find (fun c => nullable_is collectionId (Collection.id c))
           (collections d)) ;;
    match collection with
    | None => ret (Some (Failure 404 CollectionNotFound))
    | Some c =>
        if negb (String.eqb (Collection.creatorId c) (userId user))
           && negb (isAdmin user)
        then ret (Some (Failure 403 NotOwnCollection))
        else ret None
    end
  else ret None.

Definition minted_nft (user : JWTPayload) (body : NFTCreate.t)
  (nftUuid : Id) (tokenId : string) : NFT.t :=
  {| NFT.id := nftUuid;
     NFT.tokenId := tokenId;
     NFT.name := NFTCreate.name body;
     NFT.price := NFTCreate.price body;
     NFT.isListed := true;
     NFT.isSold := false;
     NFT.creatorId := userId user;
     NFT.ownerId := Some (userId user);
     NFT.collectionId := NFTCreate.collectionId body |}.

Definition mint_fee_transaction (user : JWTPayload) (txUuid txHash : Id)
  : Transaction.t :=
  {| Transaction.id := txUuid;
     Transaction.type := MINT;
     Transaction.amount := MINT_FEE;
     Transaction.userId := userId user;
     Transaction.nftId := None;
     Transaction.transactionHash := txHash |}.

(** The handler answers [None] when the token loop has not ended within the
    draws it was given. *)
Definition POST_nfts_body (user : JWTPayload) (body : NFTCreate.t)
  (draws : list string) (nftUuid txUuid txHash : Id)
  : Prisma (option Response) :=
  early <- check_collection user (NFTCreate.collectionId body) ;;
  match early with
  | Some r => ret (Some r)
  | None =>
      available <- availableBalance (userId user) ;;
      if Qlt_bool available MINT_FEE then
        ret (Some (Failure 400 (InsufficientBalance MINT_FEE available)))
      else
        tokenId <- generateUniqueTokenId draws ;;
        match tokenId with
        | None => ret None
        | Some tokenId =>
            created <- transaction (
              nft <- create_nft (minted_nft user body nftUuid tokenId) ;;
              mintTx <- create_transaction
                          (mint_fee_transaction user txUuid txHash) ;;
              ret (nft, mintTx)) ;;
            ret (Some (Success 201
              (NFTCreated (fst created) MINT_FEE
                          (Transaction.id (snd created))
                          (available - MINT_FEE))))
        end
  end.

Definition POST_nfts (user : JWTPayload) (body : NFTCreate.t)
  (draws : list string) (nftUuid txUuid txHash : Id) (p : Plan) (d : DB)
  : option Response * DB :=
  match POST_nfts_body user body draws nftUuid txUuid txHash p d with
  | Resolved r _ d' => (r, d')
  | Rejected e _ d' => (Some (internal_error e), d')
  end.

(** ** POST /api/nfts/[id]/purchase: settlement of a purchase *)

Definition findUnique_nft (nftId : Id) : Prisma (option NFT.t) :=
  read (fun d => find (fun n => String.eqb (NFT.id n) nftId) (nfts d)).

(** [where: { nftId, isActive: true, endTime: { gt: now } }]. *)
Definition active_unexpired (nftId : Id) (now : DateTime) (a : Auction.t)
  : bool :=
  String.eqb (Auction.nftId a) nftId && Auction.isActive a
  && (now <? Auction.endTime a)%Z.

Definition findFirst_active_auction (nftId : Id) (now : DateTime)
  : Prisma (option Auction.t) :=
  read (fun d => find (active_unexpired nftId now) (auctions d)).

(** [update({ where: { id }, data })]: every row is kept but the one with
    the identifier; the call throws when there is none. *)
Definition update_where {R} (key : R -> Id) (id : Id) (f : R -> R)
  (rows : list R) : list R :=
  map (fun r => if String.eqb (key r) id then f r else r) rows.

Definition sold_to (buyer : Id) (n : NFT.t) : NFT.t :=
  {| NFT.id := NFT.id n;
     NFT.tokenId := NFT.tokenId n;
     NFT.name := NFT.name n;
     NFT.price := NFT.price n;
     NFT.isListed := false;
     NFT.isSold := true;
     NFT.creatorId := NFT.creatorId n;
     NFT.ownerId := Some buyer;
     NFT.collectionId := NFT.collectionId n |}.

Definition update_nft_sold (nftId buyer : Id) : Prisma NFT.t :=
  call (fun d =>
    match find (fun n => String.eqb (NFT.id n) nftId) (nfts d) with
    | None => inl KnownRequestError
    | Some n =>
        inr (sold_to buyer n,
             set_nfts d (update_where NFT.id nftId (sold_to buyer) (nfts d)))
    end).

Definition sale_transaction (user : JWTPayload) (nftId : Id) (amount : Q)
  (txUuid txHash : Id) : Transaction.t :=
  {| Transaction.id := txUuid;
     Transaction.type := SALE;
     Transaction.amount := amount;
     Transaction.userId := userId user;
     Transaction.nftId := Some nftId;
     Transaction.transactionHash := txHash |}.

Definition POST_nfts_id_purchase_body (user : JWTPayload) (nftId : Id)
  (now : DateTime) (txUuid txHash : Id) : Prisma Response :=
  nft <- findUnique_nft nftId ;;
  match nft with
  | None => ret (Failure 404 NFTNotFound)
  | Some nft =>
      if negb (NFT.isListed nft) || NFT.isSold nft then
        ret (Failure 400 NFTNotAvailable)
      else if nullable_is (NFT.ownerId nft) (userId user) then
        ret (Failure 400 OwnNFTPurchase)
      else
        activeAuction <- findFirst_active_auction nftId now ;;
        match activeAuction with
        | Some _ => ret (Failure 400 NFTInActiveAuction)
        | None =>
            match NFT.price nft with
            | None => ret (Failure 400 InvalidPrice)
            | Some price =>
                if Qle_bool price 0 then ret (Failure 400 InvalidPrice)
                else
                  result <- transaction (
                    transaction_ <- create_transaction
                      (sale_transaction user nftId price txUuid txHash) ;;
                    updatedNFT <- update_nft_sold nftId (userId user) ;;
                    ret (transaction_, updatedNFT)) ;;
                  ret (Success 200
                         (NFTPurchased (fst result) (snd result)))
            end
        end
  end.

Definition POST_nfts_id_purchase (user : JWTPayload) (nftId : Id)
  (now : DateTime) (txUuid txHash : Id) : Plan -> DB -> Response * DB :=
  respond (POST_nfts_id_purchase_body user nftId now txUuid txHash)
          database_or_internal_error.

(** ** POST /api/auctions: creation of an auction *)

Module AuctionCreate.
Record t := {
  nftId : Id;
  startingPrice : Q;
  reservePrice : option Q;
  duration : Q
}.
End AuctionCreate.

(** [validateNFTOwnership] of lib/auth. *)
Definition validateNFTOwnership (userId_ nftId : Id) (isAdmin_ : bool)
  : Prisma bool :=
  if isAdmin_ then ret true
  else
    nft <- findUnique_nft nftId ;;
    ret (match nft with
         | Some nft =>
             String.eqb (NFT.creatorId nft) userId_
             || nullable_is (NFT.ownerId nft) userId_
         | None => false
         end).

(** [new Date(Date.now() + duration * 60 * 60 * 1000)]. *)
Definition auction_endTime (now : DateTime) (duration : Q) : DateTime :=
  (now + Qtrunc (duration * 60 * 60 * 1000))%Z.

Definition new_auction (user : JWTPayload) (body : AuctionCreate.t)
  (now : DateTime) (uuid : Id) : Auction.t :=
  {| Auction.id := uuid;
     Auction.nftId := AuctionCreate.nftId body;
     Auction.sellerId := userId user;
     Auction.startPrice := AuctionCreate.startingPrice body;
     Auction.reservePrice := AuctionCreate.reservePrice body;
     Auction.currentPrice := AuctionCreate.startingPrice body;
     Auction.startTime := now;
     Auction.endTime := auction_endTime now (AuctionCreate.duration body);
     Auction.isActive := true |}.

Definition create_auction (a : Auction.t) : Prisma Auction.t :=
  call (fun d => inr (a, set_auctions d (auctions d ++ [a]))).

Definition POST_auctions_body (user : JWTPayload) (body : AuctionCreate.t)
  (now : DateTime) (uuid : Id) : Prisma Response :=
  let nftId := AuctionCreate.nftId body in
  nft <- findUnique_nft nftId ;;
  match nft with
  | None => ret (Failure 404 NFTNotFound)
  | Some nft =>
      hasPermission <- validateNFTOwnership (userId user) nftId (isAdmin user) ;;
      if negb hasPermission then ret (Failure 403 NoAuctionPermission)
      else if NFT.isSold nft then ret (Failure 400 NFTAlreadySold)
      else
        existingAuction <- findFirst_active_auction nftId now ;;
        match existingAuction with
        | Some _ => ret (Failure 400 NFTAlreadyInAuction)
        | None =>
            auction <- create_auction (new_auction user body now uuid) ;;
            ret (Success 201 (AuctionCreated auction))
        end
  end.

Definition POST_auctions (user : JWTPayload) (body : AuctionCreate.t)
  (now : DateTime) (uuid : Id) : Plan -> DB -> Response * DB :=
  respond (POST_auctions_body user body now uuid) internal_error.

(** ** POST /api/auctions/[id]/bid: a bid on an auction *)

(** [bids: { orderBy: { amount: 'desc' }, take: 1 }]: the row of greatest
    amount; among rows of equal amount the earliest is taken here. *)
Fixpoint top_bid (rows : list Bid.t) : option Bid.t :=
  match rows with
  | [] => None
  | b :: rest =>
      match top_bid rest with
      | None => Some b
      | Some c => if Qlt_bool (Bid.amount b) (Bid.amount c) then Some c
                  else Some b
      end
  end.

(** The included relations of the auction row: the owner of its NFT (null
    when the NFT has none) and its highest bid. *)
Record AuctionWithRelations := {
  auction_row : Auction.t;
  nft_owner : option Id;
  bids_0 : option Bid.t
}.

Definition lookup_auction (auctionId : Id) (d : DB)
  : option AuctionWithRelations :=
  match find (fun a => String.eqb (Auction.id a) auctionId) (auctions d) with
  | None => None
  | Some a =>
      Some {| auction_row := a;
              nft_owner :=
                match find (fun n => String.eqb (NFT.id n) (Auction.nftId a))
                           (nfts d) with
                | Some n => NFT.ownerId n
                | None => None
                end;
              bids_0 :=
                top_bid (filter (fun b => String.eqb (Bid.auctionId b)
                                                     (Auction.id a))
                                (bids d)) |}
  end.

Definition findUnique_auction (auctionId : Id)
  : Prisma (option AuctionWithRelations) :=
  read (lookup_auction auctionId).

(** [currentHighestBid ? currentHighestBid.amount + 0.01 : auction.startPrice]. *)
Definition minimumBid (a : AuctionWithRelations) : Q :=
  match bids_0 a with
  | Some currentHighestBid => Bid.amount currentHighestBid + 0.01
  | None => Auction.startPrice (auction_row a)
  end.

Definition create_bid (b : Bid.t) : Prisma Bid.t :=
  call (fun d => inr (b, set_bids d (bids d ++ [b]))).

Definition new_bid (user : JWTPayload) (auctionId nftId : Id) (amount : Q)
  (uuid : Id) : Bid.t :=
  {| Bid.id := uuid;
     Bid.auctionId := auctionId;
     Bid.nftId := nftId;
     Bid.bidderId := userId user;
     Bid.amount := amount |}.

Definition POST_auctions_id_bid_body (user : JWTPayload) (auctionId : Id)
  (amount : Q) (now : DateTime) (uuid : Id) : Prisma Response :=
  auction <- findUnique_auction auctionId ;;
  match auction with
  | None => ret (Failure 404 AuctionNotFound)
  | Some auction =>
      if negb (Auction.isActive (auction_row auction)) then
        ret (Failure 400 AuctionNotActive)
      else if (Auction.endTime (auction_row auction) <=? now)%Z then
        ret (Failure 400 AuctionEnded)
      else if nullable_is (nft_owner auction) (userId user) then
        ret (Failure 400 OwnNFTBid)
      else if Qlt_bool amount (minimumBid auction) then
        ret (Failure 400 (BidTooLow (minimumBid auction)))
      else if match bids_0 auction with
              | Some currentHighestBid =>
                  String.eqb (Bid.bidderId currentHighestBid) (userId user)
              | None => false
              end
      then ret (Failure 400 AlreadyHighestBid)
      else
        bid <- create_bid
                 (new_bid user auctionId (Auction.nftId (auction_row auction))
                          amount uuid) ;;
        ret (Success 201 (BidPlaced bid))
  end.

Definition POST_auctions_id_bid (user : JWTPayload) (auctionId : Id)
  (amount : Q) (now : DateTime) (uuid : Id) : Plan -> DB -> Response * DB :=
  respond (POST_auctions_id_bid_body user auctionId amount now uuid)
          database_or_internal_error.

(** ** POST /api/stocks/purchases/claim: claim of accrued profit *)

(** [Math.max(0, (now.getTime() - last.getTime()) / 3600000)]. *)
Definition hours_since (now last : DateTime) : Q :=
  Qmax 0 (inject_Z (now - last) / 3600000).

(** [Number(p.amountUSD || 0) * 0.10 * hours]. *)
Definition profit_of (now : DateTime) (p : StockPurchase.t) : Q :=
  StockPurchase.amountUSD p * 0.10
  * hours_since now (StockPurchase.lastProfitClaimAt p).

(** The body of the [for] loop over the purchases, on the pair of
    [totalProfit] and [updates]. *)
Definition accrue (now : DateTime) (acc : Q * list Id) (p : StockPurchase.t)
  : Q * list Id :=
  let profit := profit_of now p in
  if Qlt_bool 0 profit
  then (fst acc + profit, snd acc ++ [StockPurchase.id p])
  else acc.

Definition findMany_purchases (uid : Id) : Prisma (list StockPurchase.t) :=
  read (fun d =>
    filter (fun p => String.eqb (StockPurchase.userId p) uid)
           (stockPurchases d)).

Definition claimed_at (now : DateTime) (p : StockPurchase.t) : StockPurchase.t :=
  {| StockPurchase.id := StockPurchase.id p;
     StockPurchase.userId := StockPurchase.userId p;
     StockPurchase.symbol := StockPurchase.symbol p;
     StockPurchase.amountUSD := StockPurchase.amountUSD p;
     StockPurchase.priceUSD := StockPurchase.priceUSD p;
     StockPurchase.shares := StockPurchase.shares p;
     StockPurchase.date := StockPurchase.date p;
     StockPurchase.lastProfitClaimAt := now |}.

Definition update_purchase_claimed (id : Id) (now : DateTime) : Prisma unit :=
  call (fun d =>
    match find (fun p => String.eqb (StockPurchase.id p) id)
               (stockPurchases d) with
    | None => inl KnownRequestError
    | Some _ =>
        inr (tt, set_stockPurchases d
                   (update_where StockPurchase.id id (claimed_at now)
                                 (stockPurchases d)))
    end).

(** [for (const u of updates) await tx.stockPurchase.update(...)]. *)
Fixpoint update_each (updates : list Id) (now : DateTime) : Prisma unit :=
  match updates with
  | [] => ret tt
  | u :: rest => update_purchase_claimed u now ;;; update_each rest now
  end.

Definition deposit_transaction (user : JWTPayload) (amount : Q)
  (txUuid txHash : Id) : Transaction.t :=
  {| Transaction.id := txUuid;
     Transaction.type := DEPOSIT;
     Transaction.amount := amount;
     Transaction.userId := userId user;
     Transaction.nftId := None;
     Transaction.transactionHash := txHash |}.

Definition POST_stocks_purchases_claim_body (user : JWTPayload)
  (now : DateTime) (txUuid txHash : Id) : Prisma Response :=
  userRecord <- read (fun d =>
    find (fun u => String.eqb (User.id u) (userId user)) (users d)) ;;
  match userRecord with
  | None => ret (Failure 404 UserNotFound)
  | Some _ =>
      purchases <- findMany_purchases (userId user) ;;
      let loop := fold_left (accrue now) purchases (0, []) in
      let totalProfit := fst loop in
      let updates := snd loop in
      if Qle_bool totalProfit 0 then ret (Success 200 (ProfitClaim 0))
      else
        let rounded := toFixed2 totalProfit in
        transaction (
          create_transaction
            (deposit_transaction user rounded txUuid txHash) ;;;
          update_each updates now) ;;;
        ret (Success 200 (ProfitClaim totalProfit))
  end.

Definition POST_stocks_purchases_claim (user : JWTPayload) (now : DateTime)
  (txUuid txHash : Id) : Plan -> DB -> Response * DB :=
  respond (POST_stocks_purchases_claim_body user now txUuid txHash)
          database_error_500.

(** ** PUT on a withdrawal request: the admin route and the user route *)

(** [toUpperCase] on the letters a to z. *)
Definition upper_ascii (c : ascii) : ascii :=
  let n := nat_of_ascii c in
  if (97 <=? n)%nat && (n <=? 122)%nat then ascii_of_nat (n - 32) else c.

Fixpoint toUpperCase (s : string) : string :=
  match s with
  | EmptyString => EmptyString
  | String c rest => String (upper_ascii c) (toUpperCase rest)
  end.

(** [['APPROVED', 'DENIED'].includes(normalized)]. *)
Definition accepted_status (normalized : string) : option WithdrawalStatus :=
  if String.eqb normalized "APPROVED" then Some APPROVED
  else if String.eqb normalized "DENIED" then Some DENIED
  else None.

Definition with_status (s : WithdrawalStatus) (r : WithdrawalRequest.t)
  : WithdrawalRequest.t :=
  {| WithdrawalRequest.id := WithdrawalRequest.id r;
     WithdrawalRequest.userId := WithdrawalRequest.userId r;
     WithdrawalRequest.amount := WithdrawalRequest.amount r;
     WithdrawalRequest.method := WithdrawalRequest.method r;
     WithdrawalRequest.currency := WithdrawalRequest.currency r;
     WithdrawalRequest.details := WithdrawalRequest.details r;
     WithdrawalRequest.status := s |}.

Definition update_request_status (id : Id) (s : WithdrawalStatus)
  : Prisma WithdrawalRequest.t :=
  call (fun d =>
    match find (fun r => String.eqb (WithdrawalRequest.id r) id)
               (withdrawalRequests d) with
    | None => inl KnownRequestError
    | Some r =>
        inr (with_status s r,
             set_withdrawalRequests d
               (update_where WithdrawalRequest.id id (with_status s)
                             (withdrawalRequests d)))
    end).

Definition withdrawal_transaction (uid : Id) (amount : Q) (txUuid txHash : Id)
  : Transaction.t :=
  {| Transaction.id := txUuid;
     Transaction.type := WITHDRAWAL;
     Transaction.amount := amount;
     Transaction.userId := uid;
     Transaction.nftId := None;
     Transaction.transactionHash := txHash |}.

(** The admin route. *)
Definition PUT_admin_withdrawal_request_body (id : Id) (status : string)
  (txUuid txHash : Id) : Prisma Response :=
  match accepted_status (toUpperCase status) with
  | None => ret (Failure 400 InvalidStatus)
  | Some normalized =>
      updated <- update_request_status id normalized ;;
      (if WithdrawalStatus_eqb normalized APPROVED then
         try_catch
           (create_transaction
              (withdrawal_transaction (WithdrawalRequest.userId updated)
                 (WithdrawalRequest.amount updated) txUuid txHash) ;;;
            ret tt)
           (fun _ => ret tt)
       else ret tt) ;;;
      ret (Success 200 (RequestUpdated updated))
  end.

Definition PUT_admin_withdrawal_request (id : Id) (status : string)
  (txUuid txHash : Id) : Plan -> DB -> Response * DB :=
  respond (PUT_admin_withdrawal_request_body id status txUuid txHash)
          internal_error.

(** The user route, app/api/user/withdrawal/request/[id]. *)
Definition PUT_user_withdrawal_request_body (user : JWTPayload) (id : Id)
  (status : string) : Prisma Response :=
  match accepted_status (toUpperCase status) with
  | None => ret (Failure 400 InvalidStatus)
  | Some normalized =>
      existing <- read (fun d =>
        find (fun r => String.eqb (WithdrawalRequest.id r) id
                       && String.eqb (WithdrawalRequest.userId r) (userId user))
             (withdrawalRequests d)) ;;
      match existing with
      | None => ret (Failure 404 RequestNotFound)
      | Some _ =>
          updated <- update_request_status id normalized ;;
          ret (Success 200 (RequestUpdated updated))
      end
  end.

Definition PUT_user_withdrawal_request (user : JWTPayload) (id : Id)
  (status : string) : Plan -> DB -> Response * DB :=
  respond (PUT_user_withdrawal_request_body user id status) internal_error.

(** ** POST /api/stocks/purchases: record of a stock purchase *)

Module StockPurchaseCreate.
Record t := {
  symbol : string;
  amountUSD : Q;
  priceUSD : Q;
  shares : Q;
  date : option Q
}.
End StockPurchaseCreate.

(** The row the store builds.  [date] is [new Date(date)] when the body has
    a truthy one and the time of insertion otherwise; the identifier and
    the first [lastProfitClaimAt] are column defaults, given here by the
    caller ([uuid], [claimFrom]). *)
Definition new_purchase (user : JWTPayload) (body : StockPurchaseCreate.t)
  (now claimFrom : DateTime) (uuid : Id) : StockPurchase.t :=
  {| StockPurchase.id := uuid;
     StockPurchase.userId := userId user;
     StockPurchase.symbol := StockPurchaseCreate.symbol body;
     StockPurchase.amountUSD := StockPurchaseCreate.amountUSD body;
     StockPurchase.priceUSD := StockPurchaseCreate.priceUSD body;
     StockPurchase.shares := StockPurchaseCreate.shares body;
     StockPurchase.date :=
       match StockPurchaseCreate.date body with
       | Some t => if Qeq_bool t 0 then now else Qtrunc t
       | None => now
       end;
     StockPurchase.lastProfitClaimAt := claimFrom |}.

Definition create_purchase (r : StockPurchase.t) : Prisma StockPurchase.t :=
  call (fun d => inr (r, set_stockPurchases d (stockPurchases d ++ [r]))).

Definition POST_stocks_purchases_body (user : JWTPayload)
  (body : StockPurchaseCreate.t) (now claimFrom : DateTime)
  (uuid txUuid txHash : Id) : Prisma Response :=
  created <- create_purchase (new_purchase user body now claimFrom uuid) ;;
  try_catch
    (create_transaction
       (withdrawal_transaction (userId user)
          (StockPurchaseCreate.amountUSD body) txUuid txHash) ;;;
     ret tt)
    (fun _ => ret tt) ;;;
  ret (Success 201 (PurchaseRecorded created)).

Definition POST_stocks_purchases (user : JWTPayload)
  (body : StockPurchaseCreate.t) (now claimFrom : DateTime)
  (uuid txUuid txHash : Id) : Plan -> DB -> Response * DB :=
  respond (POST_stocks_purchases_body user body now claimFrom uuid txUuid txHash)
          database_error_500.

(** ** Auxiliary notions of the proofs *)

(** A computation that leaves the store as it found it, whatever the plan,
    and whose value, when it resolves, satisfies [P]. *)
Definition reads_only {A} (m : Prisma A) (P : DB -> A -> Prop) : Prop :=
  forall p d,
    match m p d with
    | Resolved a _ d' => d' = d /\ P d a
    | Rejected _ _ d' => d' = d
    end.

(** The amounts of a list of rows, added up. *)
Definition total (rows : list Transaction.t) : Q :=
  fold_right (fun t acc => Transaction.amount t + acc) 0 rows.

(** ** Sample stores *)

Definition example_ledger : DB :=
  {| users := [ {| User.id := "u1"; User.username := "ann";
                   User.email := "ann@example.org"; User.isAdmin := false |} ];
     collections := []; nfts := []; auctions := []; bids := [];
     transactions :=
       [ {| Transaction.id := "t1"; Transaction.type := DEPOSIT;
            Transaction.amount := 5; Transaction.userId := "u1";
            Transaction.nftId := None; Transaction.transactionHash := "h1" |};
         {| Transaction.id := "t2"; Transaction.type := WITHDRAWAL;
            Transaction.amount := 1; Transaction.userId := "u1";
            Transaction.nftId := None; Transaction.transactionHash := "h2" |};
         {| Transaction.id := "t3"; Transaction.type := SALE;
            Transaction.amount := 7; Transaction.userId := "u1";
            Transaction.nftId := Some "n1"; Transaction.transactionHash := "h3" |};
         {| Transaction.id := "t4"; Transaction.type := MINT;
            Transaction.amount := 0.1; Transaction.userId := "u1";
            Transaction.nftId := None; Transaction.transactionHash := "h4" |};
         {| Transaction.id := "t5"; Transaction.type := DEPOSIT;
            Transaction.amount := 2; Transaction.userId := "u2";
            Transaction.nftId := None; Transaction.transactionHash := "h5" |} ];
     stockPurchases := []; withdrawalRequests := [] |}.

(** ** Settlement of a purchase, as the specification words it *)

(** Both effects of a settlement on a store: the SALE row is appended to the
    ledger and the NFT row goes to the buyer, sold and unlisted. *)
Definition settlement_applied (user : JWTPayload) (nftId : Id) (price : Q)
  (txUuid txHash : Id) (d : DB) : DB :=
  {| users := users d; collections := collections d;
     nfts := update_where NFT.id nftId (sold_to (userId user)) (nfts d);
     auctions := auctions d; bids := bids d;
     transactions :=
       transactions d ++ [sale_transaction user nftId price txUuid txHash];
     stockPurchases := stockPurchases d;
     withdrawalRequests := withdrawalRequests d |}.

(** The preconditions of a settlement: the NFT exists, is listed and
    unsold, is not the buyer's, has no active unexpired auction and carries
    a positive price. *)
Definition purchase_preconditions (d : DB) (user : JWTPayload) (nftId : Id)
  (now : DateTime) (nft : NFT.t) (price : Q) : Prop :=
  find (fun n => String.eqb (NFT.id n) nftId) (nfts d) = Some nft
  /\ NFT.isListed nft = true
  /\ NFT.isSold nft = false
  /\ nullable_is (NFT.ownerId nft) (userId user) = false
  /\ find (active_unexpired nftId now) (auctions d) = None
  /\ NFT.price nft = Some price
  /\ (0 < price)%Q.

Definition ann : JWTPayload := {| userId := "u1"; isAdmin := false |}.
Definition bob : JWTPayload := {| userId := "u2"; isAdmin := false |}.
Definition cleo : JWTPayload := {| userId := "u3"; isAdmin := false |}.

Definition example_nft : NFT.t :=
  {| NFT.id := "n1"; NFT.tokenId := "tok1"; NFT.name := "Sunrise";
     NFT.price := Some 2; NFT.isListed := true; NFT.isSold := false;
     NFT.creatorId := "u1"; NFT.ownerId := Some "u1";
     NFT.collectionId := None |}.

(** A store with one listed NFT of ann's, priced 2, and no auction. *)
Definition example_market : DB :=
  {| users := [ {| User.id := "u1"; User.username := "ann";
                   User.email := "ann@example.org"; User.isAdmin := false |};
                {| User.id := "u2"; User.username := "bob";
                   User.email := "bob@example.org"; User.isAdmin := false |} ];
     collections := []; nfts := [example_nft]; auctions := []; bids := [];
     transactions := []; stockPurchases := []; withdrawalRequests := [] |}.

Definition example_order : StockPurchaseCreate.t :=
  {| StockPurchaseCreate.symbol := "ACME";
     StockPurchaseCreate.amountUSD := 100;
     StockPurchaseCreate.priceUSD := 25;
     StockPurchaseCreate.shares := 4;
     StockPurchaseCreate.date := None |}.

Definition example_request : WithdrawalRequest.t :=
  {| WithdrawalRequest.id := "w1"; WithdrawalRequest.userId := "u1";
     WithdrawalRequest.amount := 50; WithdrawalRequest.method := "bank";
     WithdrawalRequest.currency := "USD"; WithdrawalRequest.details := "";
     WithdrawalRequest.status := PENDING |}.

(** The ledger of [example_ledger] with one pending withdrawal request. *)
Definition example_requests : DB :=
  set_withdrawalRequests example_ledger [example_request].





(** An auction of [example_nft] with start price 1.0, ending at time 5000,
    and no bid. *)
Definition example_auction : Auction.t :=
  {| Auction.id := "a1"; Auction.nftId := "n1"; Auction.sellerId := "u1";
     Auction.startPrice := 1.0; Auction.reservePrice := None;
     Auction.currentPrice := 1.0; Auction.startTime := 0;
     Auction.endTime := 5000; Auction.isActive := true |}.

Definition example_auction_house : DB :=
  set_auctions example_market [example_auction].

(** ** Minting, as the specification words it *)

(** The plan holds no fault at all. *)
Definition no_fault (p : Plan) : bool := store_up p (List.length p).

(** The collection check lets the request through: no collection is named,
    or the named one exists and is the user's (or the user is an admin). *)
Definition collection_allowed (d : DB) (user : JWTPayload)
  (collectionId : option Id) : bool :=
  if truthy collectionId then
    match find (fun c => nullable_is collectionId (Collection.id c))
               (collections d) with
    | Some c => String.eqb (Collection.creatorId c) (userId user)
                || isAdmin user
    | None => false
    end
  else true.

(** The first draw that no NFT carries as its token. *)
Definition first_unused (d : DB) (draws : list string) : option string :=
  find (fun tokenId =>
          match find (fun n => String.eqb (NFT.tokenId n) tokenId) (nfts d) with
          | Some _ => false
          | None => true
          end) draws.

(** Both effects of a mint on a store: the NFT row and the MINT row of the
    fee are appended. *)
Definition mint_applied (user : JWTPayload) (body : NFTCreate.t)
  (tokenId : string) (nftUuid txUuid txHash : Id) (d : DB) : DB :=
  {| users := users d; collections := collections d;
     nfts := nfts d ++ [minted_nft user body nftUuid tokenId];
     auctions := auctions d; bids := bids d;
     transactions :=
       transactions d ++ [mint_fee_transaction user txUuid txHash];
     stockPurchases := stockPurchases d;
     withdrawalRequests := withdrawalRequests d |}.


Definition example_art : NFTCreate.t :=
  {| NFTCreate.name := "Study"; NFTCreate.price := Some 3;
     NFTCreate.collectionId := None |}.

(** A ledger where ann's only row is a deposit of 1.0. *)
Definition example_wallet : DB :=
  set_transactions example_market
    [ {| Transaction.id := "t0"; Transaction.type := DEPOSIT;
         Transaction.amount := 1.0; Transaction.userId := "u1";
         Transaction.nftId := None; Transaction.transactionHash := "h0" |} ].


(** A token no NFT of the store carries: one character more than all the
    tokens in use put together. *)
Definition fresh_token (d : DB) : string :=
  String "t" (fold_right (fun n acc => append (NFT.tokenId n) acc) "" (nfts d)).

(** [n] mint requests of the same body, one after the other, on a store
    that answers, each with a fresh draw: the responses, oldest first, and
    the store at the end. *)
Fixpoint mint_repeatedly (user : JWTPayload) (body : NFTCreate.t) (n : nat)
  (d : DB) : list (option Response) * DB :=
  match n with
  | O => ([], d)
  | S n' =>
      let out := POST_nfts user body [fresh_token d] "nft" "tx" "hash" [] d in
      let rest := mint_repeatedly user body n' (snd out) in
      (fst out :: fst rest, snd rest)
  end.

Definition succeeded (r : option Response) : bool :=
  match r with
  | Some r => is_success r
  | None => false
  end.

(** ** Claim of profit, as the specification words it *)





(** Ann holds one purchase of 100 USD, last claimed at time 0; bob one of
    40 USD. *)
Definition example_holding : StockPurchase.t :=
  {| StockPurchase.id := "sp1"; StockPurchase.userId := "u1";
     StockPurchase.symbol := "ACME"; StockPurchase.amountUSD := 100;
     StockPurchase.priceUSD := 25; StockPurchase.shares := 4;
     StockPurchase.date := 0; StockPurchase.lastProfitClaimAt := 0 |}.

Definition example_other_holding : StockPurchase.t :=
  {| StockPurchase.id := "sp2"; StockPurchase.userId := "u2";
     StockPurchase.symbol := "ACME"; StockPurchase.amountUSD := 40;
     StockPurchase.priceUSD := 20; StockPurchase.shares := 2;
     StockPurchase.date := 0; StockPurchase.lastProfitClaimAt := 0 |}.

Definition example_portfolio : DB :=
  set_stockPurchases example_market [example_holding; example_other_holding].

(** One hour, in milliseconds. *)
Definition one_hour : DateTime := 3600000.

(** ** The amounts of the scenarios in binary64

    The routes compute on binary64 numbers.  The three scenarios that fix
    amounts are run here on primitive floats, with the operations in the
    order the routes and the store apply them. *)

(** [_sum.amount] over binary64 rows: the first amount, then the others
    added one by one; [null] over no row. *)
Definition sum_amount64 (amounts : list float) : option float :=
  match amounts with
  | [] => None
  | a :: rest => Some (fold_left PrimFloat.add rest a)
  end.

(** [x || 0]: [null], [0] and [NaN] are falsy. *)
Definition or_zero64 (x : option float) : float :=
  match x with
  | Some a => if PrimFloat.eqb a a && negb (PrimFloat.eqb a 0) then a
              else 0%float
  | None => 0%float
  end.

(** [credits - debits] of the mint route. *)
Definition availableBalance64 (deposits withdrawals mints : list float)
  : float :=
  PrimFloat.sub
    (or_zero64 (sum_amount64 deposits))
    (PrimFloat.add (or_zero64 (sum_amount64 withdrawals))
                   (or_zero64 (sum_amount64 mints))).

Definition MINT_FEE64 : float := 0.1%float.

(** [currentHighestBid.amount + 0.01]. *)
Definition minimumBid64 (highest : float) : float :=
  PrimFloat.add highest 0.01%float.

(** [Number(p.amountUSD || 0) * 0.10 * hours] with
    [hours = Math.max(0, elapsed / 3600000)], [elapsed] in milliseconds. *)
Definition profit64 (amountUSD elapsed : float) : float :=
  let hours :=
    let h := PrimFloat.div elapsed 3600000%float in
    if PrimFloat.ltb h 0%float then 0%float else h in
  PrimFloat.mul (PrimFloat.mul amountUSD 0.10%float) hours.

(** * Further code of the same files *)

(** ** lib/auth: [rateLimit] *)

Module RateEntry.
Record t := { count : Z; resetTime : Z }.
End RateEntry.

Module RateResult.
Record t := { success : bool; resetTime : Z; count : Z }.
End RateResult.

(** The module-level [Map] of the limiter: keys in insertion order, each
    key once. *)
Definition RateLimitMap := list (string * RateEntry.t).

Definition rate_get (key : string) (m : RateLimitMap) : option RateEntry.t :=
  match find (fun kv => String.eqb (fst kv) key) m with
  | Some kv => Some (snd kv)
  | None => None
  end.

(** [Map.prototype.set]: the value of a present key is replaced where it
    stands, a new key goes to the end. *)
Fixpoint rate_set (key : string) (v : RateEntry.t) (m : RateLimitMap)
  : RateLimitMap :=
  match m with
  | [] => [(key, v)]
  | (k, e) :: rest =>
      if String.eqb k key then (key, v) :: rest
      else (k, e) :: rate_set key v rest
  end.

(** The loop that deletes the entries whose [resetTime] is before now. *)
Definition rate_cleanup (now : Z) (m : RateLimitMap) : RateLimitMap :=
  filter (fun kv => negb (RateEntry.resetTime (snd kv) <? now)%Z) m.

(** [rateLimit(identifier, maxRequests, windowMs)] at the time [now], on the
    map as it stands: the result and the map afterwards. *)
Definition rateLimit (identifier : string) (maxRequests windowMs : Z)
  (now : Z) (m : RateLimitMap) : RateResult.t * RateLimitMap :=
  let m := rate_cleanup now m in
  let fresh :=
    ({| RateResult.success := true; RateResult.resetTime := windowMs;
        RateResult.count := 1 |},
     rate_set identifier
       {| RateEntry.count := 1; RateEntry.resetTime := (now + windowMs)%Z |}
       m) in
  match rate_get identifier m with
  | None => fresh
  | Some current =>
      if (RateEntry.resetTime current <? now)%Z then fresh
      else if (maxRequests <=? RateEntry.count current)%Z then
        ({| RateResult.success := false;
            RateResult.resetTime := (RateEntry.resetTime current - now)%Z;
            RateResult.count := RateEntry.count current |}, m)
      else
        ({| RateResult.success := true;
            RateResult.resetTime := (RateEntry.resetTime current - now)%Z;
            RateResult.count := (RateEntry.count current + 1)%Z |},
         rate_set identifier
           {| RateEntry.count := (RateEntry.count current + 1)%Z;
              RateEntry.resetTime := RateEntry.resetTime current |}
           m)
  end.

(** Calls for one identifier with the same limits, at the given times, one
    after the other: the results, oldest first, and the map at the end. *)
Fixpoint rateLimit_each (identifier : string) (maxRequests windowMs : Z)
  (times : list Z) (m : RateLimitMap) : list RateResult.t * RateLimitMap :=
  match times with
  | [] => ([], m)
  | now :: later =>
      let out := rateLimit identifier maxRequests windowMs now m in
      let rest := rateLimit_each identifier maxRequests windowMs later (snd out) in
      (fst out :: fst rest, snd rest)
  end.

(** ** lib/db: [getPaginationData] *)

Module Pagination.
Record t := {
  page : Q;
  limit : Q;
  totalCount : Z;
  totalPages : Z;
  hasNext : bool;
  hasPrev : bool
}.
End Pagination.


(** A limiter map with one live entry and one that is long expired. *)
Definition example_rate_map : RateLimitMap :=
  [ ("login:10.0.0.1",
     {| RateEntry.count := 3; RateEntry.resetTime := 900000 |});
    ("withdraw:create:u1",
     {| RateEntry.count := 5; RateEntry.resetTime := 100 |}) ].

(** ** Notions of the properties of the further code *)




(** * Further routes *)

(** ** Replies of the further routes *)

(** The [error] of a refusal: a constant text of the route, or the text
    [handleDatabaseError] picks by the code of the error. *)
Inductive ErrorText := Text (s : string) | DatabaseErrorText.

Inductive Reply (A : Type) :=
| Done (status : Z) (data : A)
| Refused (status : Z) (error : ErrorText).
Arguments Done {A} status data.
Arguments Refused {A} status error.

Definition done {A} (r : Reply A) : bool :=
  match r with
  | Done _ _ => true
  | Refused _ _ => false
  end.

(** The outer [try]/[catch] of a route, as [respond]. *)
Definition answer {A} (body : Prisma (Reply A))
  (on_error : StoreError -> Reply A) (p : Plan) (d : DB) : Reply A * DB :=
  match body p d with
  | Resolved r _ d' => (r, d')
  | Rejected e _ d' => (on_error e, d')
  end.

Definition refused_500 {A} (_ : StoreError) : Reply A :=
  Refused 500 (Text "Internal server error").

(** [if (error.code?.startsWith('P')) ... handleDatabaseError(error) ... 400
    ... else ... 500]. *)
Definition refused_400_or_500 {A} (e : StoreError) : Reply A :=
  match e with
  | KnownRequestError => Refused 400 DatabaseErrorText
  | OtherError => Refused 500 (Text "Internal server error")
  end.

Definition set_users (d : DB) (l : list User.t) : DB :=
  {| users := l; collections := collections d; nfts := nfts d;
     auctions := auctions d; bids := bids d; transactions := transactions d;
     stockPurchases := stockPurchases d;
     withdrawalRequests := withdrawalRequests d |}.

Definition set_collections (d : DB) (l : list Collection.t) : DB :=
  {| users := users d; collections := l; nfts := nfts d;
     auctions := auctions d; bids := bids d; transactions := transactions d;
     stockPurchases := stockPurchases d;
     withdrawalRequests := withdrawalRequests d |}.

(** ** app/api/user/withdrawal/request: creation, listing and lookup *)

(** [trim] on text in ASCII: tab, line feed, vertical tab, form feed,
    carriage return and space are stripped at both ends. *)
Definition is_space (c : ascii) : bool :=
  let n := nat_of_ascii c in
  ((9 <=? n)%nat && (n <=? 13)%nat) || (n =? 32)%nat.

Fixpoint trimStart (s : string) : string :=
  match s with
  | EmptyString => EmptyString
  | String c rest => if is_space c then trimStart rest else s
  end.

Fixpoint trimEnd (s : string) : string :=
  match s with
  | EmptyString => EmptyString
  | String c rest =>
      match trimEnd rest with
      | EmptyString => if is_space c then EmptyString else String c EmptyString
      | kept => String c kept
      end
  end.

Definition trim (s : string) : string := trimEnd (trimStart s).

(** [x || fallback] on an optional string: absent and empty are falsy. *)
Definition or_else (x : option string) (fallback : string) : string :=
  match x with
  | Some s => if String.eqb s "" then fallback else s
  | None => fallback
  end.

(** The body of the request.  [amount] is [Number(amount)] when that is a
    finite number; the other fields are strings when they are present. *)
Module WithdrawalCreate.
Record t := {
  amount : option Q;
  method : option string;
  currency : option string;
  details : option string
}.
End WithdrawalCreate.

Definition new_request (user : JWTPayload) (amt : Q)
  (methodStr currencyStr detailsStr : string) (uuid : Id)
  : WithdrawalRequest.t :=
  {| WithdrawalRequest.id := uuid;
     WithdrawalRequest.userId := userId user;
     WithdrawalRequest.amount := amt;
     WithdrawalRequest.method := methodStr;
     WithdrawalRequest.currency := currencyStr;
     WithdrawalRequest.details := detailsStr;
     WithdrawalRequest.status := PENDING |}.

Definition create_request (r : WithdrawalRequest.t)
  : Prisma WithdrawalRequest.t :=
  call (fun d =>
    inr (r, set_withdrawalRequests d (withdrawalRequests d ++ [r]))).

(** What the route does once the limiter has let the request through. *)
Definition POST_user_withdrawal_request_body (user : JWTPayload)
  (body : WithdrawalCreate.t) (uuid : Id)
  : Prisma (Reply (Id * WithdrawalStatus)) :=
  let methodStr := trim (or_else (WithdrawalCreate.method body) "") in
  let currencyStrRaw := trim (or_else (WithdrawalCreate.currency body) "USD") in
  let currencyStr := toUpperCase (or_else (Some currencyStrRaw) "USD") in
  let detailsStrRaw :=
    match WithdrawalCreate.details body with
    | Some s => s
    | None => ""
    end in
  let detailsStr := substring 0 500 (trim detailsStrRaw) in
  match WithdrawalCreate.amount body with
  | None => ret (Refused 400 (Text "Invalid amount or method"))
  | Some amt =>
      if Qle_bool amt 0 || Qlt_bool 1000000 amt
         || (String.length methodStr =? 0)%nat
      then ret (Refused 400 (Text "Invalid amount or method"))
      else
        record <- create_request
                    (new_request user amt methodStr currencyStr detailsStr
                                 uuid) ;;
        ret (Done 201 (WithdrawalRequest.id record,
                       WithdrawalRequest.status record))
  end.

(** The route: the limiter is asked first, at the time [now] and on the map
    [m] as it stands; the reply, the map and the store afterwards. *)
Definition POST_user_withdrawal_request (user : JWTPayload)
  (body : WithdrawalCreate.t) (now : Z) (uuid : Id) (m : RateLimitMap)
  (p : Plan) (d : DB)
  : Reply (Id * WithdrawalStatus) * RateLimitMap * DB :=
  let rl := rateLimit ("withdraw:create:" ++ userId user)%string 5 60000 now m in
  if negb (RateResult.success (fst rl)) then
    (Refused 429 (Text "Too many requests. Try again later."), snd rl, d)
  else
    let out := answer (POST_user_withdrawal_request_body user body uuid)
                      refused_500 p d in
    (fst out, snd rl, snd out).

(** [findFirst({ where: { id, userId: user.userId } })]. *)
Definition findFirst_own_request (user : JWTPayload) (id : Id)
  : Prisma (option WithdrawalRequest.t) :=
  read (fun d =>
    find (fun r => String.eqb (WithdrawalRequest.id r) id
                   && String.eqb (WithdrawalRequest.userId r) (userId user))
         (withdrawalRequests d)).

Definition GET_user_withdrawal_request_id (user : JWTPayload) (id : Id)
  : Plan -> DB -> Reply WithdrawalRequest.t * DB :=
  answer
    (record <- findFirst_own_request user id ;;
     match record with
     | None => ret (Refused 404 (Text "Not found"))
     | Some record => ret (Done 200 record)
     end)
    refused_500.

(** [findMany({ where: { userId }, orderBy: { createdAt: 'desc' }, take: 20 })]:
    the rows are kept in the order of their creation, so the latest come
    first in the reversed list. *)
Definition GET_user_withdrawal_request (user : JWTPayload)
  : Plan -> DB -> Reply (list WithdrawalRequest.t) * DB :=
  answer
    (records <- read (fun d =>
       firstn 20
         (rev (filter (fun r => String.eqb (WithdrawalRequest.userId r)
                                           (userId user))
                      (withdrawalRequests d)))) ;;
     ret (Done 200 records))
    refused_500.

(** Requests to create, one after the other: each with its body, its time,
    the identifier its row would get and the plan of its store calls. *)
Fixpoint POST_user_withdrawal_request_each (user : JWTPayload)
  (requests : list (WithdrawalCreate.t * Z * Id * Plan))
  (m : RateLimitMap) (d : DB)
  : list (Reply (Id * WithdrawalStatus)) * RateLimitMap * DB :=
  match requests with
  | [] => ([], m, d)
  | (body, now, uuid, p) :: later =>
      let '(r, m1, d1) := POST_user_withdrawal_request user body now uuid m p d in
      let '(rs, m2, d2) := POST_user_withdrawal_request_each user later m1 d1 in
      (r :: rs, m2, d2)
  end.

(** ** app/api/nfts/[id]: update and deletion *)

(** The body of the update; [nftUpdateSchema] on a body whose fields, when
    present, have the types of the schema. *)
Module NFTUpdate.
Record t := {
  name : option string;
  description : option string;
  price : option Q;
  isListed : option bool
}.
End NFTUpdate.

Definition nftUpdateSchema (body : NFTUpdate.t) : bool :=
  match NFTUpdate.name body with
  | Some s => (1 <=? String.length s)%nat && (String.length s <=? 100)%nat
  | None => true
  end
  && match NFTUpdate.description body with
     | Some s => (String.length s <=? 1000)%nat
     | None => true
     end
  && match NFTUpdate.price body with
     | Some x => Qlt_bool 0 x
     | None => true
     end.

(** [data: { ...(name && { name }), ...(price !== undefined && { price }),
    ...(isListed !== undefined && { isListed }) }] on the columns kept
    here. *)
Definition updated_with (body : NFTUpdate.t) (n : NFT.t) : NFT.t :=
  {| NFT.id := NFT.id n;
     NFT.tokenId := NFT.tokenId n;
     NFT.name := or_else (NFTUpdate.name body) (NFT.name n);
     NFT.price := match NFTUpdate.price body with
                  | Some x => Some x
                  | None => NFT.price n
                  end;
     NFT.isListed := match NFTUpdate.isListed body with
                     | Some b => b
                     | None => NFT.isListed n
                     end;
     NFT.isSold := NFT.isSold n;
     NFT.creatorId := NFT.creatorId n;
     NFT.ownerId := NFT.ownerId n;
     NFT.collectionId := NFT.collectionId n |}.

Definition update_nft (id : Id) (body : NFTUpdate.t) : Prisma NFT.t :=
  call (fun d =>
    match find (fun n => String.eqb (NFT.id n) id) (nfts d) with
    | None => inl KnownRequestError
    | Some n =>
        inr (updated_with body n,
             set_nfts d (update_where NFT.id id (updated_with body) (nfts d)))
    end).

Definition PUT_nfts_id_body (user : JWTPayload) (id : Id) (body : NFTUpdate.t)
  : Prisma (Reply NFT.t) :=
  if negb (nftUpdateSchema body) then
    ret (Refused 400 (Text "Validation failed"))
  else
    existingNFT <- findUnique_nft id ;;
    match existingNFT with
    | None => ret (Refused 404 (Text "NFT not found"))
    | Some _ =>
        hasPermission <- validateNFTOwnership (userId user) id (isAdmin user) ;;
        if negb hasPermission then
          ret (Refused 403
                 (Text "You do not have permission to update this NFT"))
        else
          updatedNFT <- update_nft id body ;;
          ret (Done 200 updatedNFT)
    end.

Definition PUT_nfts_id (user : JWTPayload) (id : Id) (body : NFTUpdate.t)
  : Plan -> DB -> Reply NFT.t * DB :=
  answer (PUT_nfts_id_body user id body) refused_400_or_500.

(** [_count: { transactions, auctions }] of the NFT. *)
Definition count_transactions_of (id : Id) (d : DB) : nat :=
  List.length (filter (fun t => nullable_is (Transaction.nftId t) id)
                      (transactions d)).

Definition count_auctions_of (id : Id) (d : DB) : nat :=
  List.length (filter (fun a => String.eqb (Auction.nftId a) id) (auctions d)).

Definition delete_nft (id : Id) : Prisma unit :=
  call (fun d =>
    match find (fun n => String.eqb (NFT.id n) id) (nfts d) with
    | None => inl KnownRequestError
    | Some _ =>
        inr (tt, set_nfts d
                   (filter (fun n => negb (String.eqb (NFT.id n) id)) (nfts d)))
    end).

Definition DELETE_nfts_id_body (user : JWTPayload) (id : Id)
  : Prisma (Reply unit) :=
  existingNFT <- read (fun d =>
    match find (fun n => String.eqb (NFT.id n) id) (nfts d) with
    | Some n => Some (n, count_transactions_of id d, count_auctions_of id d)
    | None => None
    end) ;;
  match existingNFT with
  | None => ret (Refused 404 (Text "NFT not found"))
  | Some (_, transactions_, auctions_) =>
      hasPermission <- validateNFTOwnership (userId user) id (isAdmin user) ;;
      if negb hasPermission then
        ret (Refused 403
               (Text "You do not have permission to delete this NFT"))
      else if (0 <? transactions_)%nat then
        ret (Refused 400 (Text "Cannot delete NFT with transaction history"))
      else if (0 <? auctions_)%nat then
        ret (Refused 400 (Text "Cannot delete NFT with auction history"))
      else
        delete_nft id ;;;
        ret (Done 200 tt)
  end.

Definition DELETE_nfts_id (user : JWTPayload) (id : Id)
  : Plan -> DB -> Reply unit * DB :=
  answer (DELETE_nfts_id_body user id) refused_400_or_500.

(** ** app/api/collections/[id]: deletion *)

(** [validateCollectionOwnership] of lib/auth. *)
Definition validateCollectionOwnership (userId_ collectionId : Id)
  (isAdmin_ : bool) : Prisma bool :=
  if isAdmin_ then ret true
  else
    collection <- read (fun d =>
      find (fun c => String.eqb (Collection.id c) collectionId)
           (collections d)) ;;
    ret (match collection with
         | Some c => String.eqb (Collection.creatorId c) userId_
         | None => false
         end).

(** [_count: { nfts }] of the collection. *)
Definition count_nfts_of (id : Id) (d : DB) : nat :=
  List.length (filter (fun n => nullable_is (NFT.collectionId n) id) (nfts d)).

Definition delete_collection (id : Id) : Prisma unit :=
  call (fun d =>
    match find (fun c => String.eqb (Collection.id c) id) (collections d) with
    | None => inl KnownRequestError
    | Some _ =>
        inr (tt, set_collections d
                   (filter (fun c => negb (String.eqb (Collection.id c) id))
                           (collections d)))
    end).

Definition DELETE_collections_id_body (user : JWTPayload) (id : Id)
  : Prisma (Reply unit) :=
  existingCollection <- read (fun d =>
    match find (fun c => String.eqb (Collection.id c) id) (collections d) with
    | Some c => Some (c, count_nfts_of id d)
    | None => None
    end) ;;
  match existingCollection with
  | None => ret (Refused 404 (Text "Collection not found"))
  | Some (_, nfts_) =>
      hasPermission <-
        validateCollectionOwnership (userId user) id (isAdmin user) ;;
      if negb hasPermission then
        ret (Refused 403
               (Text "You do not have permission to delete this collection"))
      else if (0 <? nfts_)%nat then
        ret (Refused 400 (Text "Cannot delete collection that contains NFTs"))
      else
        delete_collection id ;;;
        ret (Done 200 tt)
  end.

Definition DELETE_collections_id (user : JWTPayload) (id : Id)
  : Plan -> DB -> Reply unit * DB :=
  answer (DELETE_collections_id_body user id) refused_400_or_500.

(** ** PUT /api/users/[id]: update of a profile *)

(** What [userUpdateSchema] lets through, on the columns kept here and the
    two flags the route looks at. *)
Module UserUpdate.
Record t := {
  username : option string;
  email : option string;
  isVerified : option bool;
  isSuspended : option bool
}.
End UserUpdate.

Definition defined {A} (o : option A) : bool :=
  match o with
  | Some _ => true
  | None => false
  end.

Definition updated_user (updateData : UserUpdate.t) (u : User.t) : User.t :=
  {| User.id := User.id u;
     User.username := match UserUpdate.username updateData with
                      | Some s => s
                      | None => User.username u
                      end;
     User.email := match UserUpdate.email updateData with
                   | Some s => s
                   | None => User.email u
                   end;
     User.isAdmin := User.isAdmin u |}.

Definition update_user (id : Id) (updateData : UserUpdate.t) : Prisma User.t :=
  call (fun d =>
    match find (fun u => String.eqb (User.id u) id) (users d) with
    | None => inl KnownRequestError
    | Some u =>
        inr (updated_user updateData u,
             set_users d
               (update_where User.id id (updated_user updateData) (users d)))
    end).

(** The uniqueness check of one column: [Some r] is the early return. *)
Definition check_unique (new : option string) (old : string)
  (column : User.t -> string) (taken : string)
  : Prisma (option (Reply User.t)) :=
  if truthy new && negb (nullable_is new old) then
    found <- read (fun d =>
      find (fun u => nullable_is new (column u)) (users d)) ;;
    match found with
    | Some _ => ret (Some (Refused 400 (Text taken)))
    | None => ret None
    end
  else ret None.

(** [validation] is the result of [userUpdateSchema.safeParse(body)]:
    [None] when it fails. *)
Definition PUT_users_id_body (currentUser : JWTPayload) (id : Id)
  (validation : option UserUpdate.t) : Prisma (Reply User.t) :=
  if negb (isAdmin currentUser) && negb (String.eqb (userId currentUser) id)
  then ret (Refused 403 (Text "You can only update your own profile"))
  else
    match validation with
    | None => ret (Refused 400 (Text "Validation failed"))
    | Some updateData =>
        if (defined (UserUpdate.isVerified updateData)
            || defined (UserUpdate.isSuspended updateData))
           && negb (isAdmin currentUser)
        then ret (Refused 403
               (Text "Admin privileges required to update verification/suspension"))
        else
          existingUser <- read (fun d =>
            find (fun u => String.eqb (User.id u) id) (users d)) ;;
          match existingUser with
          | None => ret (Refused 404 (Text "User not found"))
          | Some existingUser =>
              early <- check_unique (UserUpdate.username updateData)
                         (User.username existingUser) User.username
                         "Username already taken" ;;
              match early with
              | Some r => ret r
              | None =>
                  early <- check_unique (UserUpdate.email updateData)
                             (User.email existingUser) User.email
                             "Email already taken" ;;
                  match early with
                  | Some r => ret r
                  | None =>
                      updatedUser <- update_user id updateData ;;
                      ret (Done 200 updatedUser)
                  end
              end
          end
    end.

Definition PUT_users_id (currentUser : JWTPayload) (id : Id)
  (validation : option UserUpdate.t) : Plan -> DB -> Reply User.t * DB :=
  answer (PUT_users_id_body currentUser id validation) refused_400_or_500.

(** The permission [validateNFTOwnership] grants on an NFT. *)
Definition may_manage (user : JWTPayload) (n : NFT.t) : Prop :=
  isAdmin user = true
  \/ NFT.creatorId n = userId user
  \/ NFT.ownerId n = Some (userId user).

Definition example_withdrawal : WithdrawalCreate.t :=
  {| WithdrawalCreate.amount := Some 50;
     WithdrawalCreate.method := Some " bank ";
     WithdrawalCreate.currency := Some "eur";
     WithdrawalCreate.details := None |}.

(** Seven requests of one body, one second apart, on a store that answers. *)
Definition example_burst : list (WithdrawalCreate.t * Z * Id * Plan) :=
  map (fun k => (example_withdrawal, (1000 * Z.of_nat k)%Z,
                 String (ascii_of_nat (48 + k)) "", @nil (option StoreError)))
      (seq 0 7).

(** The market after bob bought [example_nft]. *)
Definition example_sold : DB :=
  settlement_applied bob "n1" 2 "tx1" "hash1" example_market.

Definition example_relisting : NFTUpdate.t :=
  {| NFTUpdate.name := None; NFTUpdate.description := None;
     NFTUpdate.price := Some 9; NFTUpdate.isListed := Some true |}.

Definition example_rename (name : string) : UserUpdate.t :=
  {| UserUpdate.username := Some name; UserUpdate.email := None;
     UserUpdate.isVerified := None; UserUpdate.isSuspended := None |}.

Definition example_verify : UserUpdate.t :=
  {| UserUpdate.username := None; UserUpdate.email := None;
     UserUpdate.isVerified := Some true; UserUpdate.isSuspended := None |}.

(** ** The routes that write, taken together *)

(** A request to one of the routes that write, with what the route takes
    from outside: the time, the identifiers and the random draws. *)
Inductive Request :=
| MintNFT (user : JWTPayload) (body : NFTCreate.t) (draws : list string)
    (nftUuid txUuid txHash : Id)
| PurchaseNFT (user : JWTPayload) (nftId : Id) (now : DateTime)
    (txUuid txHash : Id)
| UpdateNFT (user : JWTPayload) (id : Id) (body : NFTUpdate.t)
| DeleteNFT (user : JWTPayload) (id : Id)
| DeleteCollection (user : JWTPayload) (id : Id)
| CreateAuction (user : JWTPayload) (body : AuctionCreate.t) (now : DateTime)
    (uuid : Id)
| PlaceBid (user : JWTPayload) (auctionId : Id) (amount : Q) (now : DateTime)
    (uuid : Id)
| RecordStockPurchase (user : JWTPayload) (body : StockPurchaseCreate.t)
    (now claimFrom : DateTime) (uuid txUuid txHash : Id)
| ClaimProfit (user : JWTPayload) (now : DateTime) (txUuid txHash : Id)
| CreateWithdrawal (user : JWTPayload) (body : WithdrawalCreate.t) (now : Z)
    (uuid : Id) (m : RateLimitMap)
| UpdateWithdrawalAsAdmin (id : Id) (status : string) (txUuid txHash : Id)
| UpdateWithdrawalAsUser (user : JWTPayload) (id : Id) (status : string)
| UpdateProfile (currentUser : JWTPayload) (id : Id)
    (validation : option UserUpdate.t).

(** The store after a request. *)
Definition serve (r : Request) (p : Plan) (d : DB) : DB :=
  match r with
  | MintNFT user body draws nftUuid txUuid txHash =>
      snd (POST_nfts user body draws nftUuid txUuid txHash p d)
  | PurchaseNFT user nftId now txUuid txHash =>
      snd (POST_nfts_id_purchase user nftId now txUuid txHash p d)
  | UpdateNFT user id body => snd (PUT_nfts_id user id body p d)
  | DeleteNFT user id => snd (DELETE_nfts_id user id p d)
  | DeleteCollection user id => snd (DELETE_collections_id user id p d)
  | CreateAuction user body now uuid => snd (POST_auctions user body now uuid p d)
  | PlaceBid user auctionId amount now uuid =>
      snd (POST_auctions_id_bid user auctionId amount now uuid p d)
  | RecordStockPurchase user body now claimFrom uuid txUuid txHash =>
      snd (POST_stocks_purchases user body now claimFrom uuid txUuid txHash p d)
  | ClaimProfit user now txUuid txHash =>
      snd (POST_stocks_purchases_claim user now txUuid txHash p d)
  | CreateWithdrawal user body now uuid m =>
      snd (POST_user_withdrawal_request user body now uuid m p d)
  | UpdateWithdrawalAsAdmin id status txUuid txHash =>
      snd (PUT_admin_withdrawal_request id status txUuid txHash p d)
  | UpdateWithdrawalAsUser user id status =>
      snd (PUT_user_withdrawal_request user id status p d)
  | UpdateProfile currentUser id validation =>
      snd (PUT_users_id currentUser id validation p d)
  end.

(** The store after requests served one after the other, each with the
    plan of its store calls. *)
Fixpoint serve_all (requests : list (Request * Plan)) (d : DB) : DB :=
  match requests with
  | [] => d
  | (r, p) :: later => serve_all later (serve r p d)
  end.

(** The identifiers the mint requests of a list bring for their NFTs. *)
Fixpoint minted_ids (requests : list (Request * Plan)) : list Id :=
  match requests with
  | [] => []
  | (MintNFT _ _ _ nftUuid _ _, _) :: later => nftUuid :: minted_ids later
  | _ :: later => minted_ids later
  end.

(** A computation that takes the store from [d] to stores related to [d]
    by [R] only, resolved or rejected. *)
Definition keeps (R : DB -> DB -> Prop) {A} (m : Prisma A) : Prop :=
  forall p d,
    match m p d with
    | Resolved _ _ d' => R d d'
    | Rejected _ _ d' => R d d'
    end.

(** A change of the store that stays off the market: users, collections,
    NFTs, auctions and bids are as before and the ledger has gained rows
    that mention no NFT. *)
Definition off_market (d d' : DB) : Prop :=
  users d' = users d /\ collections d' = collections d
  /\ nfts d' = nfts d /\ auctions d' = auctions d /\ bids d' = bids d
  /\ exists rows,
       transactions d' = transactions d ++ rows
       /\ forall t, In t rows -> Transaction.nftId t = None.

(** What a request can do to the store. *)
Inductive effect : Request -> DB -> DB -> Prop :=
| effect_none (r : Request) (d : DB) : effect r d d
| effect_mint (user : JWTPayload) (body : NFTCreate.t) (draws : list string)
    (nftUuid txUuid txHash : Id) (d : DB) (tokenId : string) :
    collection_allowed d user (NFTCreate.collectionId body) = true ->
    first_unused d draws = Some tokenId ->
    effect (MintNFT user body draws nftUuid txUuid txHash) d
           (mint_applied user body tokenId nftUuid txUuid txHash d)
| effect_purchase (user : JWTPayload) (nftId : Id) (now : DateTime)
    (txUuid txHash : Id) (d : DB) (nft : NFT.t) (price : Q) :
    purchase_preconditions d user nftId now nft price ->
    effect (PurchaseNFT user nftId now txUuid txHash) d
           (settlement_applied user nftId price txUuid txHash d)
| effect_update (user : JWTPayload) (id : Id) (body : NFTUpdate.t) (d : DB) :
    effect (UpdateNFT user id body) d
           (set_nfts d (update_where NFT.id id (updated_with body) (nfts d)))
| effect_delete (user : JWTPayload) (id : Id) (d : DB) :
    count_transactions_of id d = 0%nat ->
    count_auctions_of id d = 0%nat ->
    effect (DeleteNFT user id) d
           (set_nfts d (filter (fun n => negb (String.eqb (NFT.id n) id))
                               (nfts d)))
| effect_delete_collection (user : JWTPayload) (id : Id) (d : DB) :
    count_nfts_of id d = 0%nat ->
    effect (DeleteCollection user id) d
           (set_collections d
              (filter (fun c => negb (String.eqb (Collection.id c) id))
                      (collections d)))
| effect_auction (user : JWTPayload) (body : AuctionCreate.t)
    (now : DateTime) (uuid : Id) (d : DB) (nft : NFT.t) :
    find (fun n => String.eqb (NFT.id n) (AuctionCreate.nftId body)) (nfts d)
    = Some nft ->
    effect (CreateAuction user body now uuid) d
           (set_auctions d (auctions d ++ [new_auction user body now uuid]))
| effect_bid (user : JWTPayload) (auctionId : Id) (amount : Q)
    (now : DateTime) (uuid : Id) (d : DB) (a : Auction.t) :
    find (fun x => String.eqb (Auction.id x) auctionId) (auctions d) = Some a ->
    effect (PlaceBid user auctionId amount now uuid) d
           (set_bids d (bids d ++ [new_bid user auctionId (Auction.nftId a)
                                           amount uuid]))
| effect_off_market (r : Request) (d d' : DB) :
    off_market d d' -> effect r d d'
| effect_profile (currentUser : JWTPayload) (id : Id)
    (validation : option UserUpdate.t) (d : DB) (rows : list User.t) :
    map User.id rows = map User.id (users d) ->
    effect (UpdateProfile currentUser id validation) d (set_users d rows).

(** Every row that names an NFT, an auction or a collection names one that
    exists: the NFT of an auction and of a ledger row, the auction of a bid
    with the NFT the bid carries, the collection of an NFT. *)
Definition references_hold (d : DB) : Prop :=
  (forall a, In a (auctions d) ->
     exists n, In n (nfts d) /\ NFT.id n = Auction.nftId a)
  /\ (forall t id, In t (transactions d) -> Transaction.nftId t = Some id ->
        exists n, In n (nfts d) /\ NFT.id n = id)
  /\ (forall b, In b (bids d) ->
        exists a, In a (auctions d)
          /\ Auction.id a = Bid.auctionId b /\ Auction.nftId a = Bid.nftId b)
  /\ (forall n, In n (nfts d) -> truthy (NFT.collectionId n) = true ->
        exists c, In c (collections d)
          /\ NFT.collectionId n = Some (Collection.id c)).

(** Every sold NFT is mentioned in the ledger. *)
Definition sales_recorded (d : DB) : Prop :=
  forall n, In n (nfts d) -> NFT.isSold n = true ->
    exists t, In t (transactions d) /\ Transaction.nftId t = Some (NFT.id n).

(** A bid, an attempt to delete the NFT under auction, a mint and a claim. *)
Definition example_traffic : list (Request * Plan) :=
  [ (PlaceBid bob "a1" 1.5 1000 "b1", []);
    (DeleteNFT ann "n1", []);
    (MintNFT ann example_art ["tok9"] "n9" "tx9" "h9", []);
    (ClaimProfit ann 1000 "tx8" "h8", [None; Some OtherError]) ].

(** On the sold NFT: a relisting by its creator, a purchase, a deletion by
    its owner; and a mint. *)
Definition example_attempts : list (Request * Plan) :=
  [ (UpdateNFT ann "n1" example_relisting, []);
    (PurchaseNFT cleo "n1" 3000 "tx2" "h2", []);
    (DeleteNFT bob "n1", []);
    (MintNFT ann example_art ["tok9"] "n9" "tx9" "h9", []) ].



(** ** Verification of the withdrawal PIN and of the COT PIN *)

(** The columns of the caller's row the two routes read and write: for the
    withdrawal PIN [withdrawalPinHash], [withdrawalPinLockedUntil],
    [withdrawalPinAttempts] and [withdrawalPinValidated], for the COT PIN
    those of the same names with [cotPin]. *)
Module PinColumns.
Record t := {
  pinHash : option string;
  pinLockedUntil : option DateTime;
  pinAttempts : option Z;
  pinValidated : bool
}.
End PinColumns.

Section PinVerification.

(** [verifyPassword] of lib/auth, the comparison of bcrypt. *)
Variable verifyPassword : string -> string -> bool.

(** The name of the PIN in the texts: "Withdrawal PIN" or "COT PIN". *)
Variable label : string.

(** [(Number(u.withdrawalPinAttempts) || 0) + 1]. *)
Definition next_attempts (row : PinColumns.t) : Z :=
  match PinColumns.pinAttempts row with
  | Some n => (n + 1)%Z
  | None => 1%Z
  end.

Definition after_failure (now : DateTime) (row : PinColumns.t) : PinColumns.t :=
  {| PinColumns.pinHash := PinColumns.pinHash row;
     PinColumns.pinLockedUntil :=
       if (5 <=? next_attempts row)%Z then Some (now + 10 * 60000)%Z else None;
     PinColumns.pinAttempts := Some (next_attempts row);
     PinColumns.pinValidated := PinColumns.pinValidated row |}.

Definition after_success (row : PinColumns.t) : PinColumns.t :=
  {| PinColumns.pinHash := PinColumns.pinHash row;
     PinColumns.pinLockedUntil := None;
     PinColumns.pinAttempts := Some 0%Z;
     PinColumns.pinValidated := true |}.

(** The route, at the time [now], on the columns [u] of the caller's row
    ([None] when there is no such row), with the plan of its two store
    calls, the lookup and the update: the reply and the columns
    afterwards. *)
Definition POST_verify_pin (value : option string) (now : DateTime)
  (p : Plan) (u : option PinColumns.t) : Reply unit * option PinColumns.t :=
  let value := trim (or_else value "") in
  match p with
  | Some e :: _ => (refused_500 e, u)
  | _ =>
      match u with
      | None => (Refused 400 (Text (label ++ " not configured")%string), u)
      | Some row =>
          if negb (truthy (PinColumns.pinHash row)) then
            (Refused 400 (Text (label ++ " not configured")%string), u)
          else if match PinColumns.pinLockedUntil row with
                  | Some lockedUntil => (now <? lockedUntil)%Z
                  | None => false
                  end
          then (Refused 429 (Text "Too many attempts. Try again later."), u)
          else if negb (verifyPassword value (or_else (PinColumns.pinHash row) ""))
          then
            match tl p with
            | Some e :: _ => (refused_500 e, u)
            | _ =>
                (if (5 <=? next_attempts row)%Z
                 then Refused 429
                        (Text "Too many attempts. Locked for 10 minutes.")
                 else Refused 400 (Text ("Invalid " ++ label)%string),
                 Some (after_failure now row))
            end
          else
            match tl p with
            | Some e :: _ => (refused_500 e, u)
            | _ => (Done 200 tt, Some (after_success row))
            end
      end
  end.

(** Requests of one caller, one after the other, each with its value, its
    time and its plan. *)
Fixpoint POST_verify_pin_each
  (requests : list (option string * DateTime * Plan))
  (u : option PinColumns.t) : list (Reply unit) * option PinColumns.t :=
  match requests with
  | [] => ([], u)
  | (value, now, p) :: later =>
      let out := POST_verify_pin value now p u in
      let rest := POST_verify_pin_each later (snd out) in
      (fst out :: fst rest, snd rest)
  end.

End PinVerification.

Definition status_of {A} (r : Reply A) : Z :=
  match r with
  | Done status _ => status
  | Refused status _ => status
  end.

(** A comparison that knows one PIN, and a row with that PIN configured. *)
Definition example_compare (value hash : string) : bool :=
  String.eqb hash ("hash of " ++ value)%string.

Definition example_pin_row : PinColumns.t :=
  {| PinColumns.pinHash := Some "hash of 2468";
     PinColumns.pinLockedUntil := None;
     PinColumns.pinAttempts := Some 0%Z;
     PinColumns.pinValidated := false |}.

Definition example_guesses : list (option string * DateTime * Plan) :=
  [ (Some "0000", 1000%Z, []); (Some "1111", 2000%Z, []);
    (Some "2222", 3000%Z, []); (Some "3333", 4000%Z, []) ].

(** ** POST /api/auth/login *)

Section Login.

(** [verifyPassword] of lib/auth, the comparison of bcrypt, and the column
    [passwordHash] of a user row. *)
Variable verifyPassword : string -> string -> bool.
Variable passwordHash : User.t -> string.

(** [!x] on the object [rateLimit] returns: an object is truthy, whatever
    its fields hold. *)
Definition not_object (x : RateResult.t) : bool := false.

(** [findFirst({ where: { OR: [{ email }, { username }] } })]. *)
Definition findFirst_user (emailOrUsername : string) : Prisma (option User.t) :=
  read (fun d =>
    find (fun u => String.eqb (User.email u) emailOrUsername
                   || String.eqb (User.username u) emailOrUsername)
         (users d)).

Definition POST_auth_login_body (emailOrUsername password : string)
  : Prisma (Reply User.t) :=
  user <- findFirst_user emailOrUsername ;;
  match user with
  | None => ret (Refused 401 (Text "Invalid credentials"))
  | Some user =>
      if negb (verifyPassword password (passwordHash user)) then
        ret (Refused 401 (Text "Invalid credentials"))
      else ret (Done 200 user)
  end.

(** The route, for a request from [clientIP] at the time [now], on the map
    [m] of the limiter; [validation] is the result of
    [userLoginSchema.safeParse(body)], [None] when it fails.  The reply
    carries the row of the user; the tokens are left out. *)
Definition POST_auth_login (clientIP : string)
  (validation : option (string * string)) (now : Z) (m : RateLimitMap)
  (p : Plan) (d : DB) : Reply User.t * RateLimitMap * DB :=
  let rl := rateLimit ("login:" ++ clientIP)%string 10 (15 * 60 * 1000) now m in
  if not_object (fst rl) then
    (Refused 429 (Text "Too many login attempts. Please try again later."),
     snd rl, d)
  else
    match validation with
    | None => (Refused 400 (Text "Validation failed"), snd rl, d)
    | Some (emailOrUsername, password) =>
        let out := answer (POST_auth_login_body emailOrUsername password)
                          refused_500 p d in
        (fst out, snd rl, snd out)
    end.

End Login.

(** The limiter after ten requests from one address. *)
Definition example_login_map : RateLimitMap :=
  [ ("login:10.0.0.1",
     {| RateEntry.count := 10; RateEntry.resetTime := 900000 |}) ].

(** ** lib/db: [generateUniqueSlug] *)

(** [toLowerCase] on the letters A to Z: a name is read as a string of
    ASCII characters, one [ascii] each.  (Of the characters beyond them
    JavaScript lowers to a letter of [a-z] only the Kelvin sign and the
    dotted capital I; every other one ends in a dash below, as here.) *)
Definition lower_ascii (c : ascii) : ascii :=
  let n := nat_of_ascii c in
  if (65 <=? n)%nat && (n <=? 90)%nat then ascii_of_nat (n + 32) else c.

Fixpoint toLowerCase (s : string) : string :=
  match s with
  | EmptyString => EmptyString
  | String c rest => String (lower_ascii c) (toLowerCase rest)
  end.

(** The class [a-z0-9]. *)
Definition is_a_z_0_9 (c : ascii) : bool :=
  let n := nat_of_ascii c in
  ((97 <=? n)%nat && (n <=? 122)%nat) || ((48 <=? n)%nat && (n <=? 57)%nat).

(** [.replace(/[^a-z0-9]+/g, '-')]: every maximal run of other characters
    becomes one dash; [in_run] says that the character before was one of
    them. *)
Fixpoint replace_others (in_run : bool) (s : string) : string :=
  match s with
  | EmptyString => EmptyString
  | String c rest =>
      if is_a_z_0_9 c then String c (replace_others false rest)
      else if in_run then replace_others true rest
      else String "-" (replace_others true rest)
  end.

(** [.replace(/^-+|-+$/g, '')]: the dashes at the head, then those at the
    end. *)
Fixpoint strip_leading_dashes (s : string) : string :=
  match s with
  | EmptyString => EmptyString
  | String c rest =>
      if Ascii.eqb c "-" then strip_leading_dashes rest else s
  end.

Fixpoint strip_trailing_dashes (s : string) : string :=
  match s with
  | EmptyString => EmptyString
  | String c rest =>
      match strip_trailing_dashes rest with
      | EmptyString =>
          if Ascii.eqb c "-" then EmptyString else String c EmptyString
      | kept => String c kept
      end
  end.

Definition baseSlug (name : string) : string :=
  strip_trailing_dashes
    (strip_leading_dashes (replace_others false (toLowerCase name))).

(** [`${baseSlug}-${counter}`]. *)
Definition numbered (base : string) (counter : nat) : string :=
  (base ++ "-" ++ DecimalString.NilEmpty.string_of_uint (Nat.to_uint counter))%string.

(** The loop of [generateUniqueSlug], over the slugs of the collections,
    [slugs]: one lookup per turn, each a store call of the plan.  The
    result is the slug returned, the error thrown by a lookup, or [None]
    when the loop is still running after [turns] lookups. *)
Fixpoint slug_loop (slugs : list string) (base slug : string) (counter : nat)
  (turns : nat) (p : Plan) : option (StoreError + string) :=
  match turns with
  | O => None
  | S turns' =>
      match p with
      | Some e :: _ => Some (inl e)
      | _ =>
          if existsb (String.eqb slug) slugs
          then slug_loop slugs base (numbered base counter) (S counter)
                         turns' (tl p)
          else Some (inr slug)
      end
  end.

Definition generateUniqueSlug (slugs : list string) (name : string)
  (turns : nat) (p : Plan) : option (StoreError + string) :=
  slug_loop slugs (baseSlug name) (baseSlug name) 1 turns p.

(** The shape of a slug: characters of [a-z0-9] and single dashes between
    them, none at the head, none at the end.  [after_dash] says that the
    character before was a dash, or that there is none. *)
Fixpoint slug_body (after_dash : bool) (s : string) : bool :=
  match s with
  | EmptyString => negb after_dash
  | String c rest =>
      if is_a_z_0_9 c then slug_body false rest
      else Ascii.eqb c "-" && negb after_dash && slug_body true rest
  end.

Definition slug_shaped (s : string) : bool :=
  match s with
  | EmptyString => true
  | _ => slug_body true s
  end.

(** The candidates of the loop, in the order it tries them. *)
Definition candidate (base : string) (k : nat) : string :=
  match k with
  | O => base
  | S _ => numbered base k
  end.

(** What [replace_others] yields: characters of the class and single
    dashes, with no condition on the end. *)
Fixpoint dashed (after_dash : bool) (s : string) : bool :=
  match s with
  | EmptyString => true
  | String c rest =>
      if is_a_z_0_9 c then dashed false rest
      else Ascii.eqb c "-" && negb after_dash && dashed true rest
  end.

(** Some character of the string is of the class. *)
Fixpoint has_a_z_0_9 (s : string) : bool :=
  match s with
  | EmptyString => false
  | String c rest => is_a_z_0_9 c || has_a_z_0_9 rest
  end.

(** * Properties *)
(** ** The store monad *)

Lemma store_up_tl (p : Plan) (n : nat) :
  store_up p (S n) = true -> store_up (tl p) n = true.
Proof.
  unfold store_up. destruct p as [|o p]; simpl.
  - intros _. now destruct n.
  - destruct o; [discriminate | auto].
Qed.

Lemma store_up_le (p : Plan) (n m : nat) :
  (m <= n)%nat -> store_up p n = true -> store_up p m = true.
Proof.
  revert p m. induction n as [|n IH]; intros p m Hle H.
  - assert (m = 0%nat) by lia. subst. reflexivity.
  - destruct m as [|m]; [reflexivity|].
    unfold store_up in *. destruct p as [|o p]; simpl in *; [reflexivity|].
    destruct o; [discriminate|]. apply IH; [lia | exact H].
Qed.

Lemma call_up {A} (op : DB -> StoreError + (A * DB)) (p : Plan) (d : DB) :
  store_up p 1 = true ->
  call op p d =
  match op d with
  | inl e => Rejected e (tl p) d
  | inr (a, d') => Resolved a (tl p) d'
  end.
Proof.
  unfold call, store_up. destruct p as [|[e|] p]; simpl; try discriminate; reflexivity.
Qed.

Lemma read_up {A} (f : DB -> A) (p : Plan) (d : DB) :
  store_up p 1 = true -> read f p d = Resolved (f d) (tl p) d.
Proof. intros H. unfold read. now rewrite call_up. Qed.

Lemma reads_only_ret {A} (a : A) (P : DB -> A -> Prop) :
  (forall d, P d a) -> reads_only (ret a) P.
Proof. intros H p d. simpl. auto. Qed.

Lemma reads_only_read {A} (f : DB -> A) :
  reads_only (read f) (fun d a => a = f d).
Proof.
  intros p d. unfold read, call.
  destruct p as [|[e|] p]; simpl; auto.
Qed.

Lemma reads_only_bind {A B} (m : Prisma A) (k : A -> Prisma B)
  (P : DB -> A -> Prop) (R : DB -> B -> Prop) :
  reads_only m P ->
  (forall a, reads_only (k a) (fun d b => P d a -> R d b)) ->
  reads_only (bind m k) R.
Proof.
  intros Hm Hk p d. unfold bind.
  specialize (Hm p d). destruct (m p d) as [a p' d'|e p' d']; [|exact Hm].
  destruct Hm as [-> HP]. specialize (Hk a p' d).
  destruct (k a p' d) as [b p'' d''|e p'' d'']; [|exact Hk].
  destruct Hk as [-> HR]. auto.
Qed.

Lemma reads_only_weaken {A} (m : Prisma A) (P R : DB -> A -> Prop) :
  reads_only m P -> (forall d a, P d a -> R d a) -> reads_only m R.
Proof.
  intros Hm H p d. specialize (Hm p d).
  destruct (m p d); [destruct Hm; split; auto | exact Hm].
Qed.

(** ** Sums over the ledger *)

Lemma fold_left_amount (rows : list Transaction.t) (a : Q) :
  fold_left (fun acc t => acc + Transaction.amount t) rows a == a + total rows.
Proof.
  revert a. induction rows as [|r rows IH]; intros a; simpl.
  - ring.
  - rewrite IH. unfold total. ring.
Qed.

Lemma or_zero_sum_amount (rows : list Transaction.t) :
  or_zero (sum_amount rows) == total rows.
Proof.
  destruct rows as [|r rows]; simpl; [reflexivity|].
  rewrite <- fold_left_amount.
  destruct (Qeq_bool _ 0) eqn:E; [|reflexivity].
  apply Qeq_bool_iff in E. symmetry. exact E.
Qed.

Lemma total_app (l1 l2 : list Transaction.t) :
  total (l1 ++ l2) == total l1 + total l2.
Proof.
  induction l1 as [|r l1 IH]; simpl; [ring|]. rewrite IH. ring.
Qed.


Lemma ledger_total_eq d uid ty :
  ledger_total d uid ty = total (filter (of_user_and_type uid ty) (transactions d)).
Proof. reflexivity. Qed.

Lemma aggregate_sum_reads (w : Transaction.t -> bool) :
  reads_only (aggregate_sum w)
    (fun d x => or_zero x == total (filter w (transactions d))).
Proof.
  eapply reads_only_weaken; [apply reads_only_read|].
  intros d a ->. apply or_zero_sum_amount.
Qed.

Lemma availableBalance_reads (uid : Id) :
  reads_only (availableBalance uid) (fun d b => b == spendable_balance d uid).
Proof.
  unfold availableBalance.
  eapply reads_only_bind; [apply aggregate_sum_reads|]. intros c.
  eapply reads_only_bind; [apply aggregate_sum_reads|]. intros w.
  eapply reads_only_bind; [apply aggregate_sum_reads|]. intros m.
  apply reads_only_ret. intros d Hm Hw Hc.
  unfold spendable_balance. rewrite !ledger_total_eq, Hc, Hw, Hm. ring.
Qed.


Lemma bind_call_up {A B} (op : DB -> StoreError + (A * DB)) (k : A -> Prisma B)
  (p : Plan) (d : DB) :
  store_up p 1 = true ->
  bind (call op) k p d =
  match op d with
  | inl e => Rejected e (tl p) d
  | inr (a, d') => k a (tl p) d'
  end.
Proof.
  intros H. unfold bind. rewrite call_up by exact H.
  destruct (op d) as [e|[a d']]; reflexivity.
Qed.

Lemma bind_read_up {A B} (f : DB -> A) (k : A -> Prisma B) (p : Plan) (d : DB) :
  store_up p 1 = true -> bind (read f) k p d = k (f d) (tl p) d.
Proof. intros H. unfold read. now rewrite bind_call_up. Qed.

Lemma store_up_1 (p : Plan) (n : nat) :
  store_up p (S n) = true -> store_up p 1 = true.
Proof. apply store_up_le. lia. Qed.

(** Consumes one call of a plan known to let it through. *)
Ltac read_up H :=
  rewrite bind_read_up by exact (store_up_1 _ _ H);
  apply store_up_tl in H.


(** ** Settlement of a purchase *)

Lemma find_update_where {R} (key : R -> Id) (id : Id) (f : R -> R)
  (rows : list R) (r : R) :
  (forall x, key (f x) = key x) ->
  find (fun x => String.eqb (key x) id) rows = Some r ->
  find (fun x => String.eqb (key x) id) (update_where key id f rows)
  = Some (f r).
Proof.
  intros Hkey. induction rows as [|x rows IH]; simpl; [discriminate|].
  destruct (String.eqb (key x) id) eqn:E; simpl.
  - intros [= ->]. now rewrite Hkey, E.
  - rewrite E. exact IH.
Qed.

Lemma Qle_bool_false (a b : Q) : Qle_bool a b = false <-> b < a.
Proof.
  split; intros H.
  - apply Qnot_le_lt. intros Hle. apply Qle_bool_iff in Hle. congruence.
  - destruct (Qle_bool a b) eqn:E; [|reflexivity].
    apply Qle_bool_iff in E. exfalso. exact (Qlt_not_le _ _ H E).
Qed.


Lemma Qlt_bool_false (a b : Q) : Qlt_bool a b = false <-> b <= a.
Proof.
  unfold Qlt_bool. rewrite negb_false_iff. apply Qle_bool_iff.
Qed.

(** What a purchase request can end in: a failure with the store as it
    was, or the settlement applied as a whole. *)
Lemma purchase_outcomes (user : JWTPayload) (nftId : Id) (now : DateTime)
  (txUuid txHash : Id) (p : Plan) (d : DB) :
  (is_success (fst (POST_nfts_id_purchase user nftId now txUuid txHash p d)) = false
   /\ snd (POST_nfts_id_purchase user nftId now txUuid txHash p d) = d)
  \/ exists nft price,
       purchase_preconditions d user nftId now nft price
       /\ POST_nfts_id_purchase user nftId now txUuid txHash p d
          = (Success 200
               (NFTPurchased (sale_transaction user nftId price txUuid txHash)
                             (sold_to (userId user) nft)),
             settlement_applied user nftId price txUuid txHash d).
Proof.
  unfold POST_nfts_id_purchase, respond, POST_nfts_id_purchase_body,
    findUnique_nft, findFirst_active_auction, transaction, create_transaction,
    update_nft_sold, bind, read, call, ret.
  destruct p as [|[e|] p]; simpl;
    try (left; split; [destruct e|]; reflexivity).
  all: destruct (find _ (nfts d)) as [nft|] eqn:Hn; simpl; auto.
  all: destruct (NFT.isListed nft) eqn:Hl; simpl; auto.
  all: destruct (NFT.isSold nft) eqn:Hs; simpl; auto.
  all: destruct (nullable_is _ _) eqn:Ho; simpl; auto.
  all: try (destruct p as [|[e|] p]; simpl;
            try (left; split; [destruct e|]; reflexivity)).
  all: destruct (find _ (auctions d)) as [a|] eqn:Ha; simpl; auto.
  all: destruct (NFT.price nft) as [price|] eqn:Hp; simpl; auto.
  all: destruct (Qle_bool price 0) eqn:Hq; simpl; auto.
  all: try (destruct p as [|[e|] p]; simpl;
            try (left; split; [destruct e|]; reflexivity)).
  all: try (destruct p as [|[e|] p]; simpl;
            try (left; split; [destruct e|]; reflexivity)).
  all: rewrite ?Hn; simpl.
  all: right; exists nft, price; split;
    [ unfold purchase_preconditions; repeat split; auto;
      now apply Qle_bool_false
    | reflexivity ].
Qed.
Lemma store_down (p : Plan) (n : nat) :
  store_up p n = true -> store_up p (S n) = false ->
  exists e, nth_error p n = Some (Some e).
Proof.
  revert p. induction n as [|n IH]; intros p Hup Hdown.
  - destruct p as [|[e|] p]; try discriminate. now exists e.
  - destruct p as [|[e|] p]; try discriminate.
    apply (IH p); [exact (store_up_tl _ _ Hup) | exact Hdown].
Qed.

Lemma purchase_settles (user : JWTPayload) (nftId : Id) (now : DateTime)
  (txUuid txHash : Id) (p : Plan) (d : DB) (nft : NFT.t) (price : Q) :
  purchase_preconditions d user nftId now nft price ->
  store_up p 4 = true ->
  POST_nfts_id_purchase user nftId now txUuid txHash p d
  = (Success 200
       (NFTPurchased (sale_transaction user nftId price txUuid txHash)
                     (sold_to (userId user) nft)),
     settlement_applied user nftId price txUuid txHash d).
Proof.
  intros (Hn & Hl & Hs & Ho & Ha & Hp & Hq) Hup.
  apply Qle_bool_false in Hq.
  unfold POST_nfts_id_purchase, respond, POST_nfts_id_purchase_body,
    findUnique_nft, findFirst_active_auction.
  read_up Hup. rewrite Hn, Hl, Hs, Ho. simpl.
  read_up Hup. rewrite Ha, Hp, Hq.
  unfold transaction, create_transaction, update_nft_sold, bind at 1.
  rewrite bind_call_up by exact (store_up_1 _ _ Hup). apply store_up_tl in Hup.
  rewrite bind_call_up by exact Hup. simpl. rewrite Hn. reflexivity.
Qed.

Lemma purchase_rolls_back (user : JWTPayload) (nftId : Id) (now : DateTime)
  (txUuid txHash : Id) (p : Plan) (d : DB) (nft : NFT.t) (price : Q) :
  purchase_preconditions d user nftId now nft price ->
  store_up p 2 = true -> store_up p 4 = false ->
  exists e,
    POST_nfts_id_purchase user nftId now txUuid txHash p d
    = (database_or_internal_error e, d).
Proof.
  intros (Hn & Hl & Hs & Ho & Ha & Hp & Hq) Hup Hdown.
  apply Qle_bool_false in Hq.
  unfold POST_nfts_id_purchase, respond, POST_nfts_id_purchase_body,
    findUnique_nft, findFirst_active_auction.
  destruct p as [|[e1|] [|[e2|] p]]; try discriminate.
  unfold transaction, create_transaction, update_nft_sold, bind, read, call, ret.
  simpl. rewrite Hn, Hl, Hs, Ho. simpl. rewrite Ha, Hp, Hq.
  destruct p as [|[e3|] [|[e4|] p]]; try discriminate; simpl; eauto.
Qed.

(** C2. A purchase request ends in one of two ways, whatever the store does:
    a failed response with every table as it was, or a success with both
    effects of the settlement in place, the SALE row (NFT, buyer, price)
    appended to the ledger and the NFT row given to the buyer, sold and
    unlisted.  When the preconditions hold and the store answers, it is
    the second; when the store throws at either write of the unit, it is
    the first and the caller gets the error response. *)
Theorem purchase_settlement_is_atomic (user : JWTPayload) (nftId : Id)
  (now : DateTime) (txUuid txHash : Id) (p : Plan) (d : DB) :
  let out := POST_nfts_id_purchase user nftId now txUuid txHash p d in
  ((is_success (fst out) = false /\ snd out = d)
   \/ exists nft price,
        purchase_preconditions d user nftId now nft price
        /\ out = (Success 200
                    (NFTPurchased
                       (sale_transaction user nftId price txUuid txHash)
                       (sold_to (userId user) nft)),
                  settlement_applied user nftId price txUuid txHash d))
  /\ forall nft price,
       purchase_preconditions d user nftId now nft price ->
       let sale := sale_transaction user nftId price txUuid txHash in
       let d' := settlement_applied user nftId price txUuid txHash d in
       (transactions d' = transactions d ++ [sale]
        /\ Transaction.type sale = SALE
        /\ Transaction.nftId sale = Some nftId
        /\ Transaction.userId sale = userId user
        /\ Transaction.amount sale = price)
       /\ (find (fun n => String.eqb (NFT.id n) nftId) (nfts d')
           = Some (sold_to (userId user) nft)
           /\ NFT.ownerId (sold_to (userId user) nft) = Some (userId user)
           /\ NFT.isSold (sold_to (userId user) nft) = true
           /\ NFT.isListed (sold_to (userId user) nft) = false)
       /\ (store_up p 4 = true -> out = (Success 200 (NFTPurchased sale (sold_to (userId user) nft)), d'))
       /\ (store_up p 2 = true -> store_up p 4 = false ->
           exists e, out = (database_or_internal_error e, d)).
Proof.
  intros out. split; [apply purchase_outcomes|].
  intros nft price Hpre sale d'. repeat split.
  - destruct Hpre as [Hn _]. unfold d', settlement_applied. simpl.
    now apply find_update_where.
  - intros Hup. now apply purchase_settles.
  - intros Hup Hdown. now apply (purchase_rolls_back _ _ _ _ _ _ _ nft price).
Qed.

Lemma purchase_settlement_is_atomic_witness :
  POST_nfts_id_purchase bob "n1" 1000 "tx1" "hash1" [] example_market
  = (Success 200
       (NFTPurchased (sale_transaction bob "n1" 2 "tx1" "hash1")
                     (sold_to "u2" example_nft)),
     settlement_applied bob "n1" 2 "tx1" "hash1" example_market)
  /\ exists e,
       POST_nfts_id_purchase bob "n1" 1000 "tx1" "hash1"
         [None; None; None; Some OtherError] example_market
       = (database_or_internal_error e, example_market).
Proof.
  assert (Hpre : purchase_preconditions example_market bob "n1" 1000
                   example_nft 2).
  { unfold purchase_preconditions. simpl. repeat split; reflexivity. }
  split.
  - apply (proj2 (purchase_settlement_is_atomic bob "n1" 1000 "tx1" "hash1"
                    [] example_market) example_nft 2 Hpre); reflexivity.
  - apply (proj2 (purchase_settlement_is_atomic bob "n1" 1000 "tx1" "hash1"
                    [None; None; None; Some OtherError] example_market)
                 example_nft 2 Hpre); reflexivity.
Defined.
(** An NFT that is unlisted or sold is refused before anything else is
    looked at, and nothing is written. *)
Lemma unavailable_is_refused (user : JWTPayload) (nftId : Id) (now : DateTime)
  (txUuid txHash : Id) (p : Plan) (d : DB) (nft : NFT.t) :
  find (fun n => String.eqb (NFT.id n) nftId) (nfts d) = Some nft ->
  NFT.isListed nft = false \/ NFT.isSold nft = true ->
  let out := POST_nfts_id_purchase user nftId now txUuid txHash p d in
  snd out = d
  /\ is_success (fst out) = false
  /\ (store_up p 1 = true -> fst out = Failure 400 NFTNotAvailable).
Proof.
  intros Hn Hflags out.
  assert (Hc : negb (NFT.isListed nft) || NFT.isSold nft = true).
  { destruct Hflags as [-> | ->]; [reflexivity | apply orb_true_r]. }
  unfold out, POST_nfts_id_purchase, respond, POST_nfts_id_purchase_body,
    findUnique_nft, bind, read, call, ret.
  destruct p as [|[e|] p]; simpl; rewrite ?Hn, ?Hc; simpl;
    repeat split; try discriminate; try reflexivity.
  all: destruct e; reflexivity.
Qed.

(** C8. Once a purchase of an NFT has succeeded, its row is sold and
    unlisted, and every later purchase request for it, by anyone, at any
    time, fails and writes nothing; the failure is 'NFT is not available
    for purchase' whenever the store answers the lookup.  The same holds
    in any store where the row is unlisted or sold, which is what the
    availability check tests. *)
Theorem purchase_then_unavailable (buyer : JWTPayload) (nftId : Id)
  (now : DateTime) (txUuid txHash : Id) (p : Plan) (d : DB) :
  (is_success (fst (POST_nfts_id_purchase buyer nftId now txUuid txHash p d))
   = true ->
   let d' := snd (POST_nfts_id_purchase buyer nftId now txUuid txHash p d) in
   (exists sold,
      find (fun n => String.eqb (NFT.id n) nftId) (nfts d') = Some sold
      /\ NFT.isSold sold = true /\ NFT.isListed sold = false
      /\ NFT.ownerId sold = Some (userId buyer))
   /\ forall (again : JWTPayload) (later : DateTime) (txUuid' txHash' : Id)
             (p' : Plan),
        let out := POST_nfts_id_purchase again nftId later txUuid' txHash' p' d' in
        snd out = d'
        /\ is_success (fst out) = false
        /\ (store_up p' 1 = true -> fst out = Failure 400 NFTNotAvailable))
  /\ forall (nft : NFT.t),
       find (fun n => String.eqb (NFT.id n) nftId) (nfts d) = Some nft ->
       NFT.isListed nft = false \/ NFT.isSold nft = true ->
       let out := POST_nfts_id_purchase buyer nftId now txUuid txHash p d in
       snd out = d
       /\ is_success (fst out) = false
       /\ (store_up p 1 = true -> fst out = Failure 400 NFTNotAvailable).
Proof.
  split.
  - intros Hok d'.
    destruct (purchase_outcomes buyer nftId now txUuid txHash p d)
      as [[Hfail _] | (nft & price & Hpre & Hout)]; [congruence|].
    assert (Hsold : find (fun n => String.eqb (NFT.id n) nftId) (nfts d')
                    = Some (sold_to (userId buyer) nft)).
    { unfold d'. rewrite Hout. simpl. destruct Hpre as [Hn _].
      now apply find_update_where. }
    split.
    + exists (sold_to (userId buyer) nft). repeat split. exact Hsold.
    + intros again later txUuid' txHash' p'.
      apply (unavailable_is_refused _ _ _ _ _ _ _ _ Hsold). now right.
  - intros nft Hn Hflags. now apply (unavailable_is_refused _ _ _ _ _ _ _ nft).
Qed.

Lemma purchase_then_unavailable_witness :
  POST_nfts_id_purchase cleo "n1" 2000 "tx2" "hash2" []
    (settlement_applied bob "n1" 2 "tx1" "hash1" example_market)
  = (Failure 400 NFTNotAvailable,
     settlement_applied bob "n1" 2 "tx1" "hash1" example_market).
Proof.
  pose proof (proj1 (purchase_then_unavailable bob "n1" 1000 "tx1" "hash1" []
                       example_market) eq_refl) as [_ H].
  specialize (H cleo 2000%Z "tx2" "hash2" []).
  destruct H as (Hd & _ & Hr).
  apply injective_projections; [exact (Hr eq_refl) | exact Hd].
Defined.
(** ** The ledger under an appended row *)

Lemma ledger_total_append (d : DB) (uid : Id) (ty : TransactionType)
  (t : Transaction.t) (d' : DB) :
  transactions d' = transactions d ++ [t] ->
  ledger_total d' uid ty
  == ledger_total d uid ty
     + (if of_user_and_type uid ty t then Transaction.amount t else 0).
Proof.
  intros H. rewrite !ledger_total_eq, H, filter_app, total_app. simpl.
  destruct (of_user_and_type uid ty t); simpl; ring.
Qed.

Lemma sale_keeps_balance (d d' : DB) (uid : Id) (t : Transaction.t) :
  transactions d' = transactions d ++ [t] ->
  Transaction.type t = SALE ->
  spendable_balance d' uid == spendable_balance d uid.
Proof.
  intros H Ht. unfold spendable_balance.
  rewrite !(ledger_total_append d uid _ t d' H).
  unfold of_user_and_type. rewrite Ht. simpl. rewrite andb_false_r. ring.
Qed.

(** The purchase route on a store with another ledger: same response, same
    writes. *)
Lemma purchase_ignores_ledger (user : JWTPayload) (nftId : Id) (now : DateTime)
  (txUuid txHash : Id) (p : Plan) (d : DB) (ledger : list Transaction.t) :
  exists rows,
    transactions (snd (POST_nfts_id_purchase user nftId now txUuid txHash p d))
    = transactions d ++ rows
    /\ POST_nfts_id_purchase user nftId now txUuid txHash p
         (set_transactions d ledger)
       = (fst (POST_nfts_id_purchase user nftId now txUuid txHash p d),
          set_transactions
            (snd (POST_nfts_id_purchase user nftId now txUuid txHash p d))
            (ledger ++ rows)).
Proof.
  unfold POST_nfts_id_purchase, respond, POST_nfts_id_purchase_body,
    findUnique_nft, findFirst_active_auction, transaction, create_transaction,
    update_nft_sold, bind, read, call, ret.
  assert (Hnil : forall l : list Transaction.t, l = l ++ []) 
    by (intros; now rewrite app_nil_r).
  assert (Hset : set_transactions d ledger
                 = set_transactions d (ledger ++ []))
    by now rewrite app_nil_r.
  destruct p as [|[e|] p]; simpl;
    try (exists []; split; [apply Hnil | now rewrite Hset]).
  all: destruct (find _ (nfts d)) as [nft|] eqn:Hn; simpl;
    try (exists []; split; [apply Hnil | now rewrite Hset]).
  all: destruct (negb (NFT.isListed nft) || NFT.isSold nft); simpl;
    try (exists []; split; [apply Hnil | now rewrite Hset]).
  all: destruct (nullable_is _ _); simpl;
    try (exists []; split; [apply Hnil | now rewrite Hset]).
  all: try (destruct p as [|[e|] p]; simpl;
            try (exists []; split; [apply Hnil | now rewrite Hset])).
  all: destruct (find _ (auctions d)) as [a|]; simpl;
    try (exists []; split; [apply Hnil | now rewrite Hset]).
  all: destruct (NFT.price nft) as [price|]; simpl;
    try (exists []; split; [apply Hnil | now rewrite Hset]).
  all: destruct (Qle_bool price 0); simpl;
    try (exists []; split; [apply Hnil | now rewrite Hset]).
  all: try (destruct p as [|[e|] p]; simpl;
            try (exists []; split; [apply Hnil | now rewrite Hset])).
  all: try (destruct p as [|[e|] p]; simpl;
            try (exists []; split; [apply Hnil | now rewrite Hset])).
  all: rewrite ?Hn; simpl.
  all: eexists; split; reflexivity.
Qed.

(** C9. The purchase route neither reads nor debits the ledger balance of
    the buyer: it has no insufficient-funds failure; run against any other
    ledger it gives the same response and makes the same writes, so its
    success does not depend on what the buyer holds; and the balance of
    every user, by the DEPOSIT minus WITHDRAWAL minus MINT formula, is the
    same after the request as before. *)
Theorem purchase_leaves_balances_alone (user : JWTPayload) (nftId : Id)
  (now : DateTime) (txUuid txHash : Id) (p : Plan) (d : DB) :
  let out := POST_nfts_id_purchase user nftId now txUuid txHash p d in
  (forall st required available,
     fst out <> Failure st (InsufficientBalance required available))
  /\ (forall ledger : list Transaction.t,
        exists rows,
          transactions (snd out) = transactions d ++ rows
          /\ POST_nfts_id_purchase user nftId now txUuid txHash p
               (set_transactions d ledger)
             = (fst out, set_transactions (snd out) (ledger ++ rows)))
  /\ (forall uid, spendable_balance (snd out) uid == spendable_balance d uid).
Proof.
  intros out. split; [|split].
  - intros st required available. unfold out.
    unfold POST_nfts_id_purchase, respond, POST_nfts_id_purchase_body,
      findUnique_nft, findFirst_active_auction, transaction,
      create_transaction, update_nft_sold, bind, read, call, ret.
    destruct p as [|[e|] p]; simpl; try (destruct e; discriminate).
    all: destruct (find _ (nfts d)) as [nft|] eqn:Hn; simpl; try discriminate.
    all: destruct (negb (NFT.isListed nft) || NFT.isSold nft); simpl;
      try discriminate.
    all: destruct (nullable_is _ _); simpl; try discriminate.
    all: try (destruct p as [|[e|] p]; simpl; try (destruct e; discriminate)).
    all: destruct (find _ (auctions d)) as [a|]; simpl; try discriminate.
    all: destruct (NFT.price nft) as [price|]; simpl; try discriminate.
    all: destruct (Qle_bool price 0); simpl; try discriminate.
    all: try (destruct p as [|[e|] p]; simpl; try (destruct e; discriminate)).
    all: try (destruct p as [|[e|] p]; simpl; try (destruct e; discriminate)).
    all: rewrite ?Hn; simpl; discriminate.
  - intros ledger. apply purchase_ignores_ledger.
  - intros uid.
    destruct (purchase_outcomes user nftId now txUuid txHash p d)
      as [[_ Hd] | (nft & price & _ & Hout)].
    + unfold out. rewrite Hd. reflexivity.
    + unfold out. rewrite Hout. simpl.
      apply (sale_keeps_balance d _ uid
               (sale_transaction user nftId price txUuid txHash));
        reflexivity.
Qed.

(** A buyer whose ledger is empty, hence whose balance is 0, buys an NFT
    priced 2. *)
Example purchase_with_empty_ledger :
  spendable_balance example_market "u2" == 0
  /\ is_success (fst (POST_nfts_id_purchase bob "n1" 1000 "tx1" "hash1" []
                        example_market)) = true.
Proof. split; reflexivity. Qed.
(** ** Record of a stock purchase *)

Lemma withdrawal_debits_balance (d d' : DB) (uid : Id) (t : Transaction.t) :
  transactions d' = transactions d ++ [t] ->
  Transaction.type t = WITHDRAWAL ->
  Transaction.userId t = uid ->
  spendable_balance d' uid == spendable_balance d uid - Transaction.amount t.
Proof.
  intros H Ht Hu. unfold spendable_balance.
  rewrite !(ledger_total_append d uid _ t d' H).
  unfold of_user_and_type. rewrite Ht, Hu, String.eqb_refl. simpl. ring.
Qed.

(** C10. Recording a stock purchase appends the purchase row and then, as a
    separate call, a WITHDRAWAL row of [amountUSD] for the user, which
    lowers the user's balance by that amount.  The two writes are not one
    unit: when the store throws at the ledger insert, the purchase row
    stays, the response is still the success 201, and the ledger and the
    balance are as before. *)
Theorem stock_purchase_debit_is_not_atomic (user : JWTPayload)
  (body : StockPurchaseCreate.t) (now claimFrom : DateTime)
  (uuid txUuid txHash : Id) (p : Plan) (d : DB) :
  let out := POST_stocks_purchases user body now claimFrom uuid txUuid txHash p d in
  let row := new_purchase user body now claimFrom uuid in
  let debit := withdrawal_transaction (userId user)
                 (StockPurchaseCreate.amountUSD body) txUuid txHash in
  (Transaction.type debit = WITHDRAWAL
   /\ Transaction.amount debit = StockPurchaseCreate.amountUSD body
   /\ Transaction.userId debit = userId user)
  /\ (store_up p 2 = true ->
      out = (Success 201 (PurchaseRecorded row),
             set_transactions
               (set_stockPurchases d (stockPurchases d ++ [row]))
               (transactions d ++ [debit]))
      /\ spendable_balance (snd out) (userId user)
         == spendable_balance d (userId user)
            - StockPurchaseCreate.amountUSD body)
  /\ (store_up p 1 = true -> store_up p 2 = false ->
      out = (Success 201 (PurchaseRecorded row),
             set_stockPurchases d (stockPurchases d ++ [row]))
      /\ transactions (snd out) = transactions d
      /\ spendable_balance (snd out) (userId user)
         == spendable_balance d (userId user)).
Proof.
  intros out row debit. split; [repeat split|split].
  - intros Hup.
    assert (Hout : out = (Success 201 (PurchaseRecorded row),
                          set_transactions
                            (set_stockPurchases d (stockPurchases d ++ [row]))
                            (transactions d ++ [debit]))).
    { unfold out, POST_stocks_purchases, respond, POST_stocks_purchases_body,
        create_purchase, create_transaction, try_catch, bind, call, ret.
      destruct p as [|[e1|] [|[e2|] p]]; try discriminate; reflexivity. }
    split; [exact Hout|]. rewrite Hout. simpl.
    apply (withdrawal_debits_balance d _ (userId user) debit); reflexivity.
  - intros Hup Hdown.
    assert (Hout : out = (Success 201 (PurchaseRecorded row),
                          set_stockPurchases d (stockPurchases d ++ [row]))).
    { unfold out, POST_stocks_purchases, respond, POST_stocks_purchases_body,
        create_purchase, create_transaction, try_catch, bind, call, ret.
      destruct p as [|[e1|] [|[e2|] p]]; try discriminate; reflexivity. }
    rewrite Hout. simpl. repeat split; reflexivity.
Qed.

Lemma stock_purchase_debit_is_not_atomic_witness :
  (spendable_balance
     (snd (POST_stocks_purchases ann example_order 1000 1000 "sp1" "tx1" "h1"
             [] example_ledger)) "u1"
   == 3.9 - 100)
  /\ (POST_stocks_purchases ann example_order 1000 1000 "sp1" "tx1" "h1"
        [None; Some OtherError] example_ledger
      = (Success 201
           (PurchaseRecorded (new_purchase ann example_order 1000 1000 "sp1")),
         set_stockPurchases example_ledger
           [new_purchase ann example_order 1000 1000 "sp1"])).
Proof.
  destruct (stock_purchase_debit_is_not_atomic ann example_order 1000 1000
              "sp1" "tx1" "h1" [] example_ledger) as (_ & Hboth & _).
  destruct (stock_purchase_debit_is_not_atomic ann example_order 1000 1000
              "sp1" "tx1" "h1" [None; Some OtherError] example_ledger)
    as (_ & _ & Hone).
  split.
  - rewrite (proj2 (Hboth eq_refl)). reflexivity.
  - exact (proj1 (Hone eq_refl eq_refl)).
Defined.
(** ** Approval of a withdrawal request *)

(** Counterexample to C6 as stated: the admin route approves the request
    "w1" while the store throws at the ledger insert; the response is the
    success 200, the request is APPROVED, and the ledger has no new row. *)
Lemma approved_without_ledger_entry :
  let out := PUT_admin_withdrawal_request "w1" "approved" "tx9" "h9"
               [None; Some OtherError] example_requests in
  fst out = Success 200 (RequestUpdated (with_status APPROVED example_request))
  /\ withdrawalRequests (snd out) = [with_status APPROVED example_request]
  /\ transactions (snd out) = transactions example_requests
  /\ ~ (exists t, In t (transactions (snd out))
                  /\ Transaction.type t = WITHDRAWAL
                  /\ Transaction.amount t == 50).
Proof.
  cbv zeta. repeat split.
  intros (t & Hin & Hty & Ham). simpl in Hin.
  repeat (destruct Hin as [<- | Hin]; [try discriminate Hty|]); try contradiction.
  simpl in Ham. discriminate Ham.
Qed.

(** The user route sets APPROVED and never writes the ledger. *)
Example user_route_approves_without_ledger_entry :
  PUT_user_withdrawal_request ann "w1" "APPROVED" [] example_requests
  = (Success 200 (RequestUpdated (with_status APPROVED example_request)),
     set_withdrawalRequests example_requests
       [with_status APPROVED example_request]).
Proof. reflexivity. Qed.

(** C6, amended. The admin route that sets a withdrawal request to APPROVED
    updates the status and then, in a separate call that is not part of
    any atomic unit, inserts a WITHDRAWAL row for the user and the amount
    of the request.  When the store answers both calls the row is
    appended; when it throws at the insert the error is swallowed: the
    request stays APPROVED, the ledger is as before and the response is
    still the success 200.  When the update itself throws nothing is
    written. *)
Theorem admin_approval_then_best_effort_ledger_entry (id : Id)
  (status : string) (txUuid txHash : Id) (p : Plan) (d : DB)
  (r : WithdrawalRequest.t) :
  accepted_status (toUpperCase status) = Some APPROVED ->
  find (fun r => String.eqb (WithdrawalRequest.id r) id) (withdrawalRequests d)
  = Some r ->
  let out := PUT_admin_withdrawal_request id status txUuid txHash p d in
  let approved :=
    set_withdrawalRequests d
      (update_where WithdrawalRequest.id id (with_status APPROVED)
                    (withdrawalRequests d)) in
  let entry := withdrawal_transaction (WithdrawalRequest.userId r)
                 (WithdrawalRequest.amount r) txUuid txHash in
  (store_up p 2 = true ->
   out = (Success 200 (RequestUpdated (with_status APPROVED r)),
          set_transactions approved (transactions d ++ [entry])))
  /\ (store_up p 1 = true -> store_up p 2 = false ->
      out = (Success 200 (RequestUpdated (with_status APPROVED r)), approved)
      /\ transactions (snd out) = transactions d
      /\ find (fun r => String.eqb (WithdrawalRequest.id r) id)
              (withdrawalRequests (snd out))
         = Some (with_status APPROVED r))
  /\ (store_up p 1 = false ->
      out = (Failure 500 InternalServerError, d)).
Proof.
  intros Hst Hr out approved entry.
  unfold out, PUT_admin_withdrawal_request, respond,
    PUT_admin_withdrawal_request_body.
  rewrite Hst.
  unfold update_request_status, create_transaction, try_catch, bind, call, ret.
  split; [|split].
  - intros Hup. destruct p as [|[e1|] [|[e2|] p]]; try discriminate;
      simpl; rewrite Hr; reflexivity.
  - intros Hup Hdown. destruct p as [|[e1|] [|[e2|] p]]; try discriminate.
    simpl. rewrite Hr. simpl. repeat split.
    now apply find_update_where.
  - intros Hdown. destruct p as [|[e1|] p]; try discriminate. reflexivity.
Qed.

Lemma admin_approval_then_best_effort_ledger_entry_witness :
  PUT_admin_withdrawal_request "w1" "approved" "tx9" "h9" [] example_requests
  = (Success 200 (RequestUpdated (with_status APPROVED example_request)),
     set_transactions
       (set_withdrawalRequests example_requests
          [with_status APPROVED example_request])
       (transactions example_requests
        ++ [withdrawal_transaction "u1" 50 "tx9" "h9"])).
Proof.
  exact (proj1 (admin_approval_then_best_effort_ledger_entry "w1" "approved"
                  "tx9" "h9" [] example_requests example_request
                  eq_refl eq_refl) eq_refl).
Defined.
(** ** Creation of an auction *)

Lemma nullable_is_true (o : option Id) (s : Id) :
  nullable_is o s = true <-> o = Some s.
Proof.
  destruct o as [x|]; simpl.
  - rewrite String.eqb_eq. split; [now intros -> | now intros [= ->]].
  - split; discriminate.
Qed.




Lemma auction_outcomes (user : JWTPayload) (body : AuctionCreate.t)
  (now : DateTime) (uuid : Id) (p : Plan) (d : DB) :
  (is_success (fst (POST_auctions user body now uuid p d)) = false
   /\ snd (POST_auctions user body now uuid p d) = d)
  \/ ((exists nft,
         find (fun n => String.eqb (NFT.id n) (AuctionCreate.nftId body))
              (nfts d) = Some nft
         /\ NFT.isSold nft = false
         /\ (isAdmin user = true
             \/ NFT.creatorId nft = userId user
             \/ NFT.ownerId nft = Some (userId user)))
      /\ find (active_unexpired (AuctionCreate.nftId body) now) (auctions d)
         = None
      /\ POST_auctions user body now uuid p d
         = (Success 201 (AuctionCreated (new_auction user body now uuid)),
            set_auctions d (auctions d ++ [new_auction user body now uuid]))).
Proof.
  unfold POST_auctions, respond, POST_auctions_body, validateNFTOwnership,
    findUnique_nft, findFirst_active_auction, create_auction,
    bind, read, call, ret.
  destruct p as [|[e|] p]; simpl; auto.
  all: destruct (find _ (nfts d)) as [nft|] eqn:Hn; simpl; auto.
  all: destruct (isAdmin user) eqn:Hadm; simpl.
  all: try (destruct p as [|[e|] p]); simpl; auto; rewrite ?Hn; simpl.
  all: try (destruct (String.eqb (NFT.creatorId nft) (userId user)) eqn:Hc;
            simpl;
            [| destruct (nullable_is (NFT.ownerId nft) (userId user)) eqn:Ho;
               simpl; auto]).
  all: destruct (NFT.isSold nft) eqn:Hs; simpl; auto.
  all: try (destruct p as [|[e|] p]); simpl; auto.
  all: destruct (find _ (auctions d)) as [a|] eqn:Ha; simpl; auto.
  all: try (destruct p as [|[e|] p]); simpl; auto.
  all: right; split; [exists nft; repeat split; auto | split; auto].
  all: try (right; left; now apply String.eqb_eq).
  all: try (right; right; now apply nullable_is_true).
Qed.





(** ** Bids *)





(** The request, check by check, when the store answers the lookup. *)
Lemma bid_checks (user : JWTPayload) (auctionId : Id) (amount : Q)
  (now : DateTime) (uuid : Id) (p : Plan) (d : DB) :
  store_up p 1 = true ->
  POST_auctions_id_bid user auctionId amount now uuid p d =
  match lookup_auction auctionId d with
  | None => (Failure 404 AuctionNotFound, d)
  | Some a =>
      if negb (Auction.isActive (auction_row a)) then
        (Failure 400 AuctionNotActive, d)
      else if (Auction.endTime (auction_row a) <=? now)%Z then
        (Failure 400 AuctionEnded, d)
      else if nullable_is (nft_owner a) (userId user) then
        (Failure 400 OwnNFTBid, d)
      else if Qlt_bool amount (minimumBid a) then
        (Failure 400 (BidTooLow (minimumBid a)), d)
      else if match bids_0 a with
              | Some b => String.eqb (Bid.bidderId b) (userId user)
              | None => false
              end
      then (Failure 400 AlreadyHighestBid, d)
      else
        let bid := new_bid user auctionId (Auction.nftId (auction_row a))
                           amount uuid in
        match nth_error p 1 with
        | Some (Some e) => (database_or_internal_error e, d)
        | _ => (Success 201 (BidPlaced bid), set_bids d (bids d ++ [bid]))
        end
  end.
Proof.
  intros Hup.
  unfold POST_auctions_id_bid, respond, POST_auctions_id_bid_body,
    findUnique_auction.
  rewrite bind_read_up by exact Hup.
  destruct (lookup_auction auctionId d) as [a|]; [|reflexivity].
  destruct (negb _); [reflexivity|].
  destruct (_ <=? _)%Z; [reflexivity|].
  destruct (nullable_is _ _); [reflexivity|].
  destruct (Qlt_bool _ _); [reflexivity|].
  destruct (match bids_0 a with Some _ => _ | None => _ end); [reflexivity|].
  unfold create_bid, bind, call, ret.
  destruct p as [|o1 [|[e2|] p]]; reflexivity.
Qed.

Lemma bid_store_down (user : JWTPayload) (auctionId : Id) (amount : Q)
  (now : DateTime) (uuid : Id) (p : Plan) (d : DB) :
  store_up p 1 = false ->
  exists e, POST_auctions_id_bid user auctionId amount now uuid p d
            = (database_or_internal_error e, d).
Proof.
  destruct p as [|[e|] p]; try discriminate. intros _. now exists e.
Qed.


Lemma nullable_is_false (o : option Id) (s : Id) :
  nullable_is o s = false <-> o <> Some s.
Proof.
  rewrite <- nullable_is_true. destruct (nullable_is o s); split;
    congruence.
Qed.




(** ** Minting *)


Lemma no_fault_tl (p : Plan) : no_fault p = true -> no_fault (tl p) = true.
Proof.
  unfold no_fault. destruct p as [|o p]; [reflexivity|].
  simpl. apply store_up_tl.
Qed.





Lemma check_collection_reads (user : JWTPayload) (cid : option Id) :
  reads_only (check_collection user cid)
    (fun d early =>
       match early with
       | None => collection_allowed d user cid = true
       | Some r => is_success r = false
                   /\ collection_allowed d user cid = false
       end).
Proof.
  unfold check_collection, collection_allowed.
  destruct (truthy cid).
  - eapply reads_only_bind; [apply reads_only_read|]. intros [c|].
    + destruct (String.eqb (Collection.creatorId c) (userId user)) eqn:Hc;
        simpl.
      * apply reads_only_ret. intros d <-. now rewrite Hc.
      * destruct (isAdmin user); simpl; apply reads_only_ret; intros d <-;
          rewrite Hc; auto.
    + apply reads_only_ret. intros d <-. auto.
  - apply reads_only_ret. reflexivity.
Qed.



Lemma token_loop_reads (draws : list string) :
  reads_only (generateUniqueTokenId draws)
    (fun d tokenId => tokenId = first_unused d draws).
Proof.
  induction draws as [|t draws IH]; simpl.
  - apply reads_only_ret. reflexivity.
  - eapply reads_only_bind; [apply reads_only_read|]. intros [n|].
    + eapply reads_only_weaken; [exact IH|].
      intros d a -> E. unfold first_unused. simpl. now rewrite <- E.
    + apply reads_only_ret. intros d E. unfold first_unused. simpl.
      now rewrite <- E.
Qed.


(** What a mint request can end in: the store as it was and no success, or
    the NFT row and the MINT row both in place. *)
Lemma mint_outcomes (user : JWTPayload) (body : NFTCreate.t)
  (draws : list string) (nftUuid txUuid txHash : Id) (p : Plan) (d : DB) :
  (snd (POST_nfts user body draws nftUuid txUuid txHash p d) = d
   /\ forall st data,
        fst (POST_nfts user body draws nftUuid txUuid txHash p d)
        <> Some (Success st data))
  \/ exists tokenId available,
       available == spendable_balance d (userId user)
       /\ MINT_FEE <= available
       /\ collection_allowed d user (NFTCreate.collectionId body) = true
       /\ first_unused d draws = Some tokenId
       /\ POST_nfts user body draws nftUuid txUuid txHash p d
          = (Some (Success 201
                     (NFTCreated (minted_nft user body nftUuid tokenId)
                                 MINT_FEE txUuid (available - MINT_FEE))),
             mint_applied user body tokenId nftUuid txUuid txHash d).
Proof.
  unfold POST_nfts, POST_nfts_body, bind.
  pose proof (check_collection_reads user (NFTCreate.collectionId body) p d)
    as H1.
  destruct (check_collection _ _ p d) as [early p1 d1|e p1 d1]; simpl.
  2:{ left. split; [exact H1 | discriminate]. }
  destruct H1 as [-> H1]. destruct early as [r|]; simpl.
  { left. split; [reflexivity|]. intros st data [= ->]. now destruct H1. }
  pose proof (availableBalance_reads (userId user) p1 d) as H2.
  destruct (availableBalance _ p1 d) as [available p2 d2|e p2 d2]; simpl.
  2:{ left. split; [exact H2 | discriminate]. }
  destruct H2 as [-> H2].
  destruct (Qlt_bool available MINT_FEE) eqn:Hlow; simpl.
  { left. split; [reflexivity | discriminate]. }
  apply Qlt_bool_false in Hlow.
  pose proof (token_loop_reads draws p2 d) as H3.
  destruct (generateUniqueTokenId draws p2 d) as [tokenId p3 d3|e p3 d3]; simpl.
  2:{ left. split; [exact H3 | discriminate]. }
  destruct H3 as [-> H3]. destruct tokenId as [tokenId|]; simpl.
  2:{ left. split; [reflexivity | discriminate]. }
  unfold transaction, create_nft, create_transaction, bind, call, ret.
  destruct p3 as [|[e|] [|[e'|] p3]]; simpl;
    try (left; split; [reflexivity | discriminate]).
  all: right; exists tokenId, available; repeat split; auto.
Qed.













(** The scenario run on [example_wallet]: ten mints succeed, the eleventh
    is refused for insufficient balance, and the store after eleven
    requests is the store after ten. *)
Example eleven_mints :
  map succeeded (fst (mint_repeatedly ann example_art 11 example_wallet))
  = [true; true; true; true; true; true; true; true; true; true; false]
  /\ snd (mint_repeatedly ann example_art 11 example_wallet)
     = snd (mint_repeatedly ann example_art 10 example_wallet)
  /\ List.length (transactions
                    (snd (mint_repeatedly ann example_art 11 example_wallet)))
     = 11%nat
  /\ spendable_balance
       (snd (mint_repeatedly ann example_art 11 example_wallet)) "u1" == 0.
Proof. vm_compute. repeat split; congruence. Qed.
(** ** Claim of profit *)








Lemma update_where_keys {R} (key : R -> Id) (id : Id) (f : R -> R)
  (rows : list R) :
  (forall x, key (f x) = key x) ->
  map key (update_where key id f rows) = map key rows.
Proof.
  intros Hkey. unfold update_where. rewrite map_map. apply map_ext.
  intros x. destruct (String.eqb (key x) id); [apply Hkey | reflexivity].
Qed.

Lemma unique_key {R} (key : R -> Id) (rows : list R) (x y : R) :
  NoDup (map key rows) -> In x rows -> In y rows -> key x = key y -> x = y.
Proof.
  induction rows as [|r rows IH]; simpl; [contradiction|].
  intros Hnd Hx Hy Hk. inversion Hnd as [|k ks Hnot Hnd']; subst.
  destruct Hx as [-> | Hx], Hy as [-> | Hy]; auto.
  - exfalso. apply Hnot. rewrite Hk. now apply in_map.
  - exfalso. apply Hnot. rewrite <- Hk. now apply in_map.
Qed.



Lemma bind_unfold {A B} (m : Prisma A) (k : A -> Prisma B) (p : Plan) (d : DB) :
  bind m k p d =
  match m p d with
  | Resolved a p' d' => k a p' d'
  | Rejected e p' d' => Rejected e p' d'
  end.
Proof. reflexivity. Qed.

Lemma bind_read_plan {A B} (f : DB -> A) (k : A -> Prisma B) (p : Plan)
  (d : DB) :
  bind (read f) k p d =
  match p with
  | Some e :: p' => Rejected e p' d
  | _ => k (f d) (tl p) d
  end.
Proof. unfold bind, read, call. destruct p as [|[e|] p]; reflexivity. Qed.


(** ** Rounding to two decimals *)





(** The scenario run: a purchase of 100 claimed after one hour accrues 10,
    deposited as one row; an immediate second claim reports 0 and writes
    nothing. *)
Example claim_after_one_hour :
  let first := POST_stocks_purchases_claim ann one_hour "tx1" "hash1" []
                 example_portfolio in
  let second := POST_stocks_purchases_claim ann one_hour "tx2" "hash2" []
                  (snd first) in
  (exists claimed row,
     fst first = Success 200 (ProfitClaim claimed) /\ claimed == 10
     /\ transactions (snd first) = [row]
     /\ Transaction.type row = DEPOSIT /\ Transaction.amount row == 10
     /\ stockPurchases (snd first)
        = [claimed_at one_hour example_holding; example_other_holding])
  /\ second = (Success 200 (ProfitClaim 0), snd first).
Proof.
  split.
  - eexists. eexists. vm_compute. repeat split.
  - vm_compute. reflexivity.
Qed.

(** ** The scenarios in binary64 *)

(** Out of one deposit of 1.0, the balance stays at the fee or above
    through nine mints and is below it after ten. *)
Example mint_scenario_binary64 :
  map (fun k => PrimFloat.ltb
                  (availableBalance64 [1%float] [] (repeat MINT_FEE64 k))
                  MINT_FEE64)
      (seq 0 11)
  = [false; false; false; false; false; false; false; false; false; false;
     true].
Proof. vm_compute. reflexivity. Qed.

(** With a start price of 1.0: 1.0 is not below the start price; after a
    bid of 1.0, a bid of 1.0 is below the minimum and bids of 1.01 and 1.02
    are not. *)
Example bid_scenario_binary64 :
  PrimFloat.ltb 1%float 1%float = false
  /\ PrimFloat.ltb 1%float (minimumBid64 1%float) = true
  /\ PrimFloat.ltb 1.01%float (minimumBid64 1%float) = false
  /\ PrimFloat.ltb 1.02%float (minimumBid64 1%float) = false.
Proof. vm_compute. repeat split. Qed.

(** 100 USD over one hour accrue 10; over no time, nothing. *)
Example claim_scenario_binary64 :
  profit64 100%float 3600000%float = 10%float
  /\ PrimFloat.ltb 0%float (profit64 100%float 0%float) = false.
Proof. vm_compute. split; reflexivity. Qed.
(** * Properties of the further code *)

(** ** The rate limiter *)

Lemma rate_get_absent (key : string) (m : RateLimitMap) :
  ~ In key (map fst m) -> rate_get key m = None.
Proof.
  unfold rate_get. induction m as [|[k e] m IH]; simpl; [reflexivity|].
  intros H. destruct (String.eqb k key) eqn:E.
  - apply String.eqb_eq in E. exfalso. apply H. now left.
  - apply IH. intros Hin. apply H. now right.
Qed.

Lemma rate_get_present (key : string) (m : RateLimitMap) (e : RateEntry.t) :
  rate_get key m = Some e -> In key (map fst m).
Proof.
  unfold rate_get. induction m as [|[k x] m IH]; simpl; [discriminate|].
  destruct (String.eqb k key) eqn:E.
  - apply String.eqb_eq in E. now left.
  - intros H. right. now apply IH.
Qed.

Lemma rate_get_set_same (key : string) (v : RateEntry.t) (m : RateLimitMap) :
  rate_get key (rate_set key v m) = Some v.
Proof.
  unfold rate_get. induction m as [|[k e] m IH]; simpl.
  - now rewrite String.eqb_refl.
  - destruct (String.eqb k key) eqn:E; simpl.
    + now rewrite String.eqb_refl.
    + now rewrite E.
Qed.

Lemma rate_get_set_other (key other : string) (v : RateEntry.t)
  (m : RateLimitMap) :
  other <> key -> rate_get other (rate_set key v m) = rate_get other m.
Proof.
  intros Hne. unfold rate_get. induction m as [|[k e] m IH]; simpl.
  - apply String.eqb_neq in Hne. rewrite String.eqb_sym in Hne.
    now rewrite Hne.
  - destruct (String.eqb k key) eqn:E; simpl.
    + apply String.eqb_eq in E. subst k.
      apply String.eqb_neq in Hne. rewrite String.eqb_sym in Hne.
      now rewrite Hne.
    + destruct (String.eqb k other); [reflexivity | exact IH].
Qed.

Lemma rate_set_keys (key : string) (v : RateEntry.t) (m : RateLimitMap) :
  NoDup (map fst m) -> NoDup (map fst (rate_set key v m)).
Proof.
  induction m as [|[k e] m IH]; simpl; intros Hnd.
  - constructor; [intros [] | constructor].
  - inversion Hnd as [|x xs Hnot Hnd']; subst.
    destruct (String.eqb k key) eqn:E; simpl.
    + apply String.eqb_eq in E. subst k. now constructor.
    + constructor; [|now apply IH].
      intros Hin. apply Hnot. clear - Hin E.
      induction m as [|[k' e'] m IH]; simpl in *.
      * destruct Hin as [H | []]. subst k. now rewrite String.eqb_refl in E.
      * destruct (String.eqb k' key); simpl in *.
        -- destruct Hin as [H | H]; [|now right].
           subst k. now rewrite String.eqb_refl in E.
        -- destruct Hin as [H | H]; [now left | right; now apply IH].
Qed.

Lemma rate_cleanup_keys (now : Z) (m : RateLimitMap) :
  NoDup (map fst m) -> NoDup (map fst (rate_cleanup now m)).
Proof.
  induction m as [|[k e] m IH]; simpl; intros Hnd; [constructor|].
  inversion Hnd as [|x xs Hnot Hnd']; subst.
  destruct (negb _); simpl; [|now apply IH].
  constructor; [|now apply IH].
  intros Hin. apply Hnot. apply in_map_iff in Hin.
  destruct Hin as ([k' e'] & Hk & Hin). apply filter_In in Hin.
  apply in_map_iff. exists (k', e'). split; [exact Hk | apply Hin].
Qed.

(** Looking a key up after the clean-up: its entry, unless it has expired. *)
Lemma rate_get_cleanup (key : string) (now : Z) (m : RateLimitMap) :
  NoDup (map fst m) ->
  rate_get key (rate_cleanup now m)
  = match rate_get key m with
    | Some e => if (RateEntry.resetTime e <? now)%Z then None else Some e
    | None => None
    end.
Proof.
  induction m as [|[k e] m IH]; simpl; intros Hnd; [reflexivity|].
  inversion Hnd as [|x xs Hnot Hnd']; subst.
  unfold rate_get in *. simpl.
  destruct (String.eqb k key) eqn:E.
  - apply String.eqb_eq in E. subst k.
    destruct (RateEntry.resetTime e <? now)%Z eqn:L; simpl; rewrite ?L.
    + apply (rate_get_absent key (rate_cleanup now m)).
      intros Hin. apply Hnot. apply in_map_iff in Hin.
      destruct Hin as ([k' e'] & Hk & Hin). apply filter_In in Hin.
      apply in_map_iff. exists (k', e'). split; [exact Hk | apply Hin].
    + now rewrite String.eqb_refl.
  - destruct (negb _); simpl; [rewrite E|]; now apply IH.
Qed.

(** One call on a live entry, and one call without a live entry. *)
Lemma rateLimit_live (identifier : string) (maxRequests windowMs now : Z)
  (m : RateLimitMap) (e : RateEntry.t) :
  NoDup (map fst m) ->
  rate_get identifier m = Some e ->
  (now <= RateEntry.resetTime e)%Z ->
  rateLimit identifier maxRequests windowMs now m
  = if (maxRequests <=? RateEntry.count e)%Z then
      ({| RateResult.success := false;
          RateResult.resetTime := (RateEntry.resetTime e - now)%Z;
          RateResult.count := RateEntry.count e |}, rate_cleanup now m)
    else
      ({| RateResult.success := true;
          RateResult.resetTime := (RateEntry.resetTime e - now)%Z;
          RateResult.count := (RateEntry.count e + 1)%Z |},
       rate_set identifier
         {| RateEntry.count := (RateEntry.count e + 1)%Z;
            RateEntry.resetTime := RateEntry.resetTime e |}
         (rate_cleanup now m)).
Proof.
  intros Hnd Hget Hlive. unfold rateLimit.
  rewrite (rate_get_cleanup identifier now m Hnd), Hget.
  apply Z.ltb_ge in Hlive. now rewrite !Hlive.
Qed.

Lemma rateLimit_fresh (identifier : string) (maxRequests windowMs now : Z)
  (m : RateLimitMap) :
  NoDup (map fst m) ->
  (forall e, rate_get identifier m = Some e ->
             (RateEntry.resetTime e < now)%Z) ->
  rateLimit identifier maxRequests windowMs now m
  = ({| RateResult.success := true; RateResult.resetTime := windowMs;
        RateResult.count := 1 |},
     rate_set identifier
       {| RateEntry.count := 1; RateEntry.resetTime := (now + windowMs)%Z |}
       (rate_cleanup now m)).
Proof.
  intros Hnd Hdead. unfold rateLimit.
  rewrite (rate_get_cleanup identifier now m Hnd).
  destruct (rate_get identifier m) as [e|]; [|reflexivity].
  specialize (Hdead e eq_refl). apply Z.ltb_lt in Hdead. now rewrite Hdead.
Qed.

(** From a live entry: the calls pass while the count is below the limit. *)
Lemma rate_limit_from_live (identifier : string) (maxRequests windowMs : Z)
  (times : list Z) (m : RateLimitMap) (c r : Z) :
  NoDup (map fst m) ->
  rate_get identifier m
  = Some {| RateEntry.count := c; RateEntry.resetTime := r |} ->
  (forall t, In t times -> (t <= r)%Z) ->
  map RateResult.success
      (fst (rateLimit_each identifier maxRequests windowMs times m))
  = map (fun i => (c + Z.of_nat i <? maxRequests)%Z)
        (seq 0 (List.length times)).
Proof.
  revert m c. induction times as [|t times IH]; intros m c Hnd Hget Hle;
    [reflexivity|].
  simpl.
  rewrite (rateLimit_live identifier maxRequests windowMs t m _ Hnd Hget)
    by (apply Hle; now left).
  simpl. destruct (maxRequests <=? c)%Z eqn:Hmax; simpl.
  - apply Z.leb_le in Hmax. f_equal.
    + symmetry. apply Z.ltb_ge. lia.
    + rewrite (IH (rate_cleanup t m) c).
      * rewrite <- seq_shift, map_map. apply map_ext. intros i.
        transitivity false; [apply Z.ltb_ge | symmetry; apply Z.ltb_ge]; lia.
      * now apply rate_cleanup_keys.
      * rewrite (rate_get_cleanup identifier t m Hnd), Hget. simpl.
        assert (Ht : (r <? t)%Z = false) by (apply Z.ltb_ge, Hle; now left).
        now rewrite Ht.
      * intros x Hx. apply Hle. now right.
  - apply Z.leb_gt in Hmax. f_equal.
    + symmetry. apply Z.ltb_lt. lia.
    + rewrite (IH _ (c + 1)%Z).
      * rewrite <- seq_shift, map_map. apply map_ext. intros i.
        f_equal. lia.
      * apply rate_set_keys. now apply rate_cleanup_keys.
      * apply rate_get_set_same.
      * intros x Hx. apply Hle. now right.
Qed.

Lemma passes_below_bound (bound : Z) (n : nat) :
  (List.length (filter (fun b : bool => b)
                  (map (fun k => (Z.of_nat k <? bound)%Z) (seq 0 n)))
   <= Z.to_nat bound)%nat.
Proof.
  assert (H : List.length (filter (fun b : bool => b)
                 (map (fun k => (Z.of_nat k <? bound)%Z) (seq 0 n)))
              = Nat.min n (Z.to_nat bound)).
  { induction n as [|n IH]; [reflexivity|].
    rewrite seq_S, map_app, filter_app, length_app, IH.
    cbn [map filter Nat.add].
    destruct (Z.of_nat n <? bound)%Z eqn:E; cbn [List.length].
    - apply Z.ltb_lt in E. lia.
    - apply Z.ltb_ge in E. lia. }
  lia.
Qed.

(** X1. From a map where the identifier has no live entry, among calls that
    all fall within the window opened by the first one, the call number k
    (from 0) passes exactly when k is below the greater of 1 and
    [maxRequests]: the first call always passes, also with a limit of 0,
    and no more than that many calls pass. *)
Theorem rate_limit_window (identifier : string) (maxRequests windowMs : Z)
  (first : Z) (later : list Z) (m : RateLimitMap) :
  NoDup (map fst m) ->
  (forall e, rate_get identifier m = Some e ->
             (RateEntry.resetTime e < first)%Z) ->
  (forall t, In t later -> (t <= first + windowMs)%Z) ->
  let results :=
    fst (rateLimit_each identifier maxRequests windowMs (first :: later) m) in
  map RateResult.success results
  = map (fun k => (Z.of_nat k <? Z.max 1 maxRequests)%Z)
        (seq 0 (S (List.length later)))
  /\ (List.length (filter RateResult.success results)
      <= Z.to_nat (Z.max 1 maxRequests))%nat.
Proof.
  intros Hnd Hdead Hin results.
  assert (Hmap : map RateResult.success results
                 = map (fun k => (Z.of_nat k <? Z.max 1 maxRequests)%Z)
                       (seq 0 (S (List.length later)))).
  { unfold results. simpl.
    rewrite (rateLimit_fresh identifier maxRequests windowMs first m Hnd Hdead).
    simpl. f_equal; [symmetry; apply Z.ltb_lt; lia|].
    rewrite (rate_limit_from_live identifier maxRequests windowMs later _ 1
               (first + windowMs)).
    - rewrite <- seq_shift, map_map. apply map_ext. intros i.
      destruct (1 + Z.of_nat i <? maxRequests)%Z eqn:E.
      + apply Z.ltb_lt in E. symmetry. apply Z.ltb_lt. lia.
      + apply Z.ltb_ge in E. symmetry. apply Z.ltb_ge. lia.
    - apply rate_set_keys. now apply rate_cleanup_keys.
    - apply rate_get_set_same.
    - exact Hin. }
  split; [exact Hmap|].
  assert (Hlen : forall l : list RateResult.t,
             List.length (filter RateResult.success l)
             = List.length (filter (fun b : bool => b)
                                   (map RateResult.success l))).
  { induction l as [|x l IH]; simpl; [reflexivity|].
    destruct (RateResult.success x); simpl; now rewrite IH. }
  rewrite Hlen, Hmap. apply passes_below_bound.
Qed.

(** X2. A refused call changes nothing for its identifier: the entry keeps
    its count and its reset time, so that refusals do not prolong the wait;
    it is refused only on a live entry whose count has reached the limit.
    Once the reset time of the entry has passed, the next call passes and
    opens a new window with a count of 1. *)
Theorem rate_limit_refusal_and_expiry (identifier : string)
  (maxRequests windowMs now : Z) (m : RateLimitMap) :
  NoDup (map fst m) ->
  let out := rateLimit identifier maxRequests windowMs now m in
  (RateResult.success (fst out) = false ->
   exists e,
     rate_get identifier m = Some e
     /\ rate_get identifier (snd out) = Some e
     /\ (now <= RateEntry.resetTime e)%Z
     /\ (maxRequests <= RateEntry.count e)%Z
     /\ RateResult.resetTime (fst out) = (RateEntry.resetTime e - now)%Z)
  /\ ((forall e, rate_get identifier m = Some e ->
                 (RateEntry.resetTime e < now)%Z) ->
      fst out = {| RateResult.success := true;
                   RateResult.resetTime := windowMs;
                   RateResult.count := 1 |}
      /\ rate_get identifier (snd out)
         = Some {| RateEntry.count := 1;
                   RateEntry.resetTime := (now + windowMs)%Z |}).
Proof.
  intros Hnd out. split.
  - intros Hfail. destruct (rate_get identifier m) as [e|] eqn:Hget.
    + destruct (Z.ltb_spec (RateEntry.resetTime e) now) as [Hdead | Hlive].
      * exfalso. unfold out in Hfail.
        rewrite (rateLimit_fresh identifier maxRequests windowMs now m Hnd)
          in Hfail; [discriminate|].
        intros e' He'. rewrite Hget in He'. now injection He' as <-.
      * unfold out in *.
        rewrite (rateLimit_live identifier maxRequests windowMs now m e
                   Hnd Hget Hlive) in *.
        destruct (maxRequests <=? RateEntry.count e)%Z eqn:Hmax;
          [|discriminate].
        exists e. simpl. repeat split; auto.
        -- rewrite (rate_get_cleanup identifier now m Hnd), Hget.
           apply Z.ltb_ge in Hlive. now rewrite Hlive.
        -- now apply Z.leb_le.
    + exfalso. unfold out in Hfail.
      rewrite (rateLimit_fresh identifier maxRequests windowMs now m Hnd)
        in Hfail; [discriminate|].
      intros e' He'. rewrite Hget in He'. discriminate.
  - intros Hdead. unfold out.
    rewrite (rateLimit_fresh identifier maxRequests windowMs now m Hnd Hdead).
    split; [reflexivity | apply rate_get_set_same].
Qed.

Lemma rate_limit_refusal_and_expiry_witness :
  RateResult.success
    (fst (rateLimit "login:10.0.0.1" 3 900000 5000 example_rate_map)) = false
  /\ rate_get "login:10.0.0.1"
       (snd (rateLimit "login:10.0.0.1" 3 900000 5000 example_rate_map))
     = Some {| RateEntry.count := 3; RateEntry.resetTime := 900000 |}
  /\ fst (rateLimit "login:10.0.0.1" 3 900000 900001 example_rate_map)
     = {| RateResult.success := true; RateResult.resetTime := 900000;
          RateResult.count := 1 |}.
Proof.
  assert (Hnd : NoDup (map fst example_rate_map)).
  { simpl. constructor; [intros [H | []]; discriminate|].
    constructor; [intros [] | constructor]. }
  destruct (rate_limit_refusal_and_expiry "login:10.0.0.1" 3 900000 5000
              example_rate_map Hnd) as [Hrefused _].
  destruct (rate_limit_refusal_and_expiry "login:10.0.0.1" 3 900000 900001
              example_rate_map Hnd) as [_ Hexpired].
  split; [reflexivity|]. split.
  - destruct (Hrefused eq_refl) as (e & He & Hafter & _).
    rewrite Hafter, <- He. reflexivity.
  - apply Hexpired. intros e He. injection He as <-. simpl. lia.
Defined.

(** X3. A call for one identifier leaves the entries of the others as they
    are, except that it deletes those whose reset time has passed; the keys
    of the map stay distinct; and, for a window that is not negative, no
    entry of the map it leaves has a reset time before now. *)
Theorem rate_limit_other_identifiers (identifier : string)
  (maxRequests windowMs now : Z) (m : RateLimitMap) :
  NoDup (map fst m) ->
  let after := snd (rateLimit identifier maxRequests windowMs now m) in
  (forall other,
     other <> identifier ->
     rate_get other after
     = match rate_get other m with
       | Some e => if (RateEntry.resetTime e <? now)%Z then None else Some e
       | None => None
       end)
  /\ NoDup (map fst after)
  /\ ((0 <= windowMs)%Z ->
      forall key e, rate_get key after = Some e ->
                    (now <= RateEntry.resetTime e)%Z).
Proof.
  intros Hnd after.
  assert (Hshape :
    after = rate_cleanup now m
    \/ exists v,
         after = rate_set identifier v (rate_cleanup now m)
         /\ ((0 <= windowMs)%Z -> (now <= RateEntry.resetTime v)%Z)).
  { unfold after, rateLimit.
    rewrite (rate_get_cleanup identifier now m Hnd).
    destruct (rate_get identifier m) as [e|].
    - destruct (RateEntry.resetTime e <? now)%Z eqn:L; simpl.
      + right. eexists. split; [reflexivity|]. simpl. lia.
      + rewrite L. destruct (maxRequests <=? RateEntry.count e)%Z; simpl.
        * now left.
        * right. eexists. split; [reflexivity|]. simpl.
          apply Z.ltb_ge in L. lia.
    - right. eexists. split; [reflexivity|]. simpl. lia. }
  assert (Hclean : forall key e,
             rate_get key (rate_cleanup now m) = Some e ->
             (now <= RateEntry.resetTime e)%Z).
  { intros key e. rewrite (rate_get_cleanup key now m Hnd).
    destruct (rate_get key m) as [x|]; [|discriminate].
    destruct (RateEntry.resetTime x <? now)%Z eqn:L; [discriminate|].
    intros [= <-]. now apply Z.ltb_ge. }
  split; [|split].
  - intros other Hne. destruct Hshape as [-> | (v & -> & _)].
    + now apply rate_get_cleanup.
    + rewrite rate_get_set_other by exact Hne. now apply rate_get_cleanup.
  - destruct Hshape as [-> | (v & -> & _)].
    + now apply rate_cleanup_keys.
    + apply rate_set_keys. now apply rate_cleanup_keys.
  - intros Hw key e. destruct Hshape as [-> | (v & -> & Hv)].
    + apply Hclean.
    + destruct (String.eqb key identifier) eqn:E.
      * apply String.eqb_eq in E. subst key.
        rewrite rate_get_set_same. intros [= <-]. now apply Hv.
      * apply String.eqb_neq in E. rewrite rate_get_set_other by exact E.
        apply Hclean.
Qed.

Lemma rate_limit_other_identifiers_witness :
  let after := snd (rateLimit "login:10.0.0.1" 10 900000 5000 example_rate_map) in
  rate_get "withdraw:create:u1" after = None
  /\ rate_get "login:10.0.0.1" after
     = Some {| RateEntry.count := 4; RateEntry.resetTime := 900000 |}.
Proof.
  assert (Hnd : NoDup (map fst example_rate_map)).
  { simpl. constructor; [intros [H | []]; discriminate|].
    constructor; [intros [] | constructor]. }
  destruct (rate_limit_other_identifiers "login:10.0.0.1" 10 900000 5000
              example_rate_map Hnd) as (Hother & _ & _).
  split; [|reflexivity].
  rewrite (Hother "withdraw:create:u1") by discriminate. reflexivity.
Defined.

Lemma rate_limit_window_witness :
  map RateResult.success
    (fst (rateLimit_each "password_reset:a@b.c" 3 900000
            [1000; 2000; 3000; 4000; 900999]%Z example_rate_map))
  = [true; true; true; false; false].
Proof.
  assert (Hnd : NoDup (map fst example_rate_map)).
  { simpl. constructor; [intros [H | []]; discriminate|].
    constructor; [intros [] | constructor]. }
  refine (proj1 (rate_limit_window "password_reset:a@b.c" 3 900000 1000
                   [2000; 3000; 4000; 900999]%Z example_rate_map Hnd _ _)).
  - intros e He. discriminate He.
  - intros t Ht. simpl in Ht.
    repeat (destruct Ht as [<- | Ht]; [lia|]). contradiction.
Defined.

(** ** Pagination *)



(** ** The bids of an auction ascend *)







(** ** Successive claims of profit *)







(** * Properties of the further routes *)

(** ** Creation of withdrawal requests *)

(** A row the creation route may write for [user]. *)
Lemma create_body_outcome (user : JWTPayload) (body : WithdrawalCreate.t)
  (uuid : Id) (p : Plan) (d : DB) :
  let out := answer (POST_user_withdrawal_request_body user body uuid)
                    refused_500 p d in
  (done (fst out) = false /\ snd out = d)
  \/ exists row,
       out = (Done 201 (uuid, PENDING),
              set_withdrawalRequests d (withdrawalRequests d ++ [row]))
       /\ WithdrawalRequest.id row = uuid
       /\ WithdrawalRequest.userId row = userId user
       /\ WithdrawalRequest.status row = PENDING
       /\ Some (WithdrawalRequest.amount row) = WithdrawalCreate.amount body
       /\ 0 < WithdrawalRequest.amount row
       /\ WithdrawalRequest.amount row <= 1000000
       /\ WithdrawalRequest.method row <> "".
Proof.
  unfold answer, POST_user_withdrawal_request_body.
  destruct (WithdrawalCreate.amount body) as [amt|]; [|now left].
  destruct (Qle_bool amt 0) eqn:H0; [now left|].
  destruct (Qlt_bool 1000000 amt) eqn:H1; [now left|].
  destruct (String.length _ =? 0)%nat eqn:H2; [now left|].
  cbn [orb]. unfold create_request, bind, call, ret.
  destruct p as [|[e|] p]; [| now left |];
    (right; eexists; split; [reflexivity|]; simpl; repeat split;
     [ now apply Qle_bool_false | now apply Qlt_bool_false
     | intros E; rewrite E in H2; discriminate H2 ]).
Qed.

(** From a live entry of the limiter that holds the count [c]: no more than
    [5 - c] rows are written, and every request from number [5 - c] on is
    turned away. *)
Lemma creation_from_live (user : JWTPayload)
  (requests : list (WithdrawalCreate.t * Z * Id * Plan))
  (m : RateLimitMap) (d : DB) (c r : Z) :
  NoDup (map fst m) ->
  rate_get ("withdraw:create:" ++ userId user)%string m
  = Some {| RateEntry.count := c; RateEntry.resetTime := r |} ->
  (forall body now uuid p, In (body, now, uuid, p) requests -> (now <= r)%Z) ->
  let out := POST_user_withdrawal_request_each user requests m d in
  (exists created,
     withdrawalRequests (snd out) = withdrawalRequests d ++ created
     /\ (Z.of_nat (List.length created) <= Z.max 0 (5 - c))%Z
     /\ forall row, In row created ->
          WithdrawalRequest.userId row = userId user
          /\ WithdrawalRequest.status row = PENDING
          /\ 0 < WithdrawalRequest.amount row
          /\ WithdrawalRequest.amount row <= 1000000)
  /\ transactions (snd out) = transactions d
  /\ forall k reply,
       nth_error (fst (fst out)) k = Some reply ->
       (5 - c <= Z.of_nat k)%Z ->
       reply = Refused 429 (Text "Too many requests. Try again later.").
Proof.
  revert m d c.
  induction requests as [|[[[body now] uuid] p] requests IH];
    intros m d c Hnd Hget Htimes.
  - simpl. split; [|split].
    + exists []. rewrite app_nil_r. split; [reflexivity|].
      split; [simpl; lia | intros row []].
    + reflexivity.
    + intros [|k] reply H; discriminate H.
  - cbn [POST_user_withdrawal_request_each].
    unfold POST_user_withdrawal_request.
    assert (Hnow : (now <= r)%Z)
      by (apply (Htimes body now uuid p); now left).
    rewrite (rateLimit_live _ 5 60000 now m _ Hnd Hget Hnow).
    cbn [RateEntry.count RateEntry.resetTime].
    assert (Hlater : forall body now uuid p,
               In (body, now, uuid, p) requests -> (now <= r)%Z).
    { intros b n u q Hin. apply (Htimes b n u q). now right. }
    destruct (5 <=? c)%Z eqn:Hmax; cbn [fst snd negb RateResult.success].
    + (* turned away *)
      apply Z.leb_le in Hmax.
      assert (Hget' : rate_get ("withdraw:create:" ++ userId user)%string
                               (rate_cleanup now m)
                      = Some {| RateEntry.count := c;
                                RateEntry.resetTime := r |}).
      { rewrite (rate_get_cleanup _ now m Hnd), Hget. simpl.
        assert (E : (r <? now)%Z = false) by (apply Z.ltb_ge; lia).
        now rewrite E. }
      specialize (IH (rate_cleanup now m) d c
                     (rate_cleanup_keys now m Hnd) Hget' Hlater).
      destruct (POST_user_withdrawal_request_each user requests
                  (rate_cleanup now m) d) as [[rs m2] d2].
      cbn [fst snd] in *. destruct IH as (Hrows & Htx & Hrep).
      split; [exact Hrows|]. split; [exact Htx|].
      intros [|k] reply Hk Hge; simpl in Hk.
      * now injection Hk as <-.
      * apply (Hrep k reply Hk). lia.
    + (* let through *)
      apply Z.leb_gt in Hmax.
      set (m1 := rate_set ("withdraw:create:" ++ userId user)%string
                   {| RateEntry.count := (c + 1)%Z;
                      RateEntry.resetTime := r |}
                   (rate_cleanup now m)).
      assert (Hnd1 : NoDup (map fst m1))
        by (apply rate_set_keys; now apply rate_cleanup_keys).
      assert (Hget1 : rate_get ("withdraw:create:" ++ userId user)%string m1
                      = Some {| RateEntry.count := (c + 1)%Z;
                                RateEntry.resetTime := r |})
        by apply rate_get_set_same.
      pose proof (create_body_outcome user body uuid p d) as Hbody.
      cbv zeta in Hbody.
      destruct (answer (POST_user_withdrawal_request_body user body uuid)
                       refused_500 p d) as [reply1 d1] eqn:Hout.
      cbn [fst snd] in *.
      specialize (IH m1 d1 (c + 1)%Z Hnd1 Hget1 Hlater).
      destruct (POST_user_withdrawal_request_each user requests m1 d1)
        as [[rs m2] d2].
      cbn [fst snd] in *. destruct IH as ((created & Hrows & Hlen & Hgood)
                                          & Htx & Hrep).
      assert (Hreplies : forall k reply,
                 nth_error (reply1 :: rs) k = Some reply ->
                 (5 - c <= Z.of_nat k)%Z ->
                 reply = Refused 429
                           (Text "Too many requests. Try again later.")).
      { intros [|k] reply Hk Hge; [lia|]. simpl in Hk.
        apply (Hrep k reply Hk). lia. }
      destruct Hbody as [[_ ->] | (row & Heq & Hid & Hu & Hst & _ & Hpos
                                   & Hmaxi & _)].
      * split; [|split; [exact Htx | exact Hreplies]].
        exists created. repeat split; auto; try lia. all: now apply Hgood.
      * injection Heq as -> ->. simpl in Hrows, Htx.
        split; [|split; [exact Htx | exact Hreplies]].
        exists (row :: created). split; [|split].
        -- rewrite Hrows, <- app_assoc. reflexivity.
        -- simpl List.length. lia.
        -- intros x [<- | Hx]; [repeat split; auto | now apply Hgood].
Qed.

(** X7. Creation of withdrawal requests is limited to five per user and
    minute, whatever is asked: among requests of one user that start with
    no live entry of the limiter for the user and all fall within the
    minute opened by the first, at most five rows are written, each PENDING,
    for that user, with an amount above 0 and of 1,000,000 at most; every
    request from the sixth on is turned away with the status 429, valid or
    not, and refused or invalid requests use up the allowance as well.  The
    ledger is not written. *)
Theorem withdrawal_creation_is_rate_limited (user : JWTPayload)
  (body : WithdrawalCreate.t) (first : Z) (uuid : Id) (p : Plan)
  (later : list (WithdrawalCreate.t * Z * Id * Plan))
  (m : RateLimitMap) (d : DB) :
  NoDup (map fst m) ->
  (forall e, rate_get ("withdraw:create:" ++ userId user)%string m = Some e ->
             (RateEntry.resetTime e < first)%Z) ->
  (forall body now uuid p,
     In (body, now, uuid, p) later -> (now <= first + 60000)%Z) ->
  let out := POST_user_withdrawal_request_each user
               ((body, first, uuid, p) :: later) m d in
  (exists created,
     withdrawalRequests (snd out) = withdrawalRequests d ++ created
     /\ (List.length created <= 5)%nat
     /\ forall row, In row created ->
          WithdrawalRequest.userId row = userId user
          /\ WithdrawalRequest.status row = PENDING
          /\ 0 < WithdrawalRequest.amount row
          /\ WithdrawalRequest.amount row <= 1000000)
  /\ transactions (snd out) = transactions d
  /\ forall k reply,
       nth_error (fst (fst out)) k = Some reply ->
       (5 <= k)%nat ->
       reply = Refused 429 (Text "Too many requests. Try again later.").
Proof.
  intros Hnd Hdead Htimes.
  cbn [POST_user_withdrawal_request_each].
  unfold POST_user_withdrawal_request.
  rewrite (rateLimit_fresh _ 5 60000 first m Hnd Hdead).
  cbn [fst snd negb RateResult.success].
  set (m1 := rate_set ("withdraw:create:" ++ userId user)%string
               {| RateEntry.count := 1;
                  RateEntry.resetTime := (first + 60000)%Z |}
               (rate_cleanup first m)).
  assert (Hnd1 : NoDup (map fst m1))
    by (apply rate_set_keys; now apply rate_cleanup_keys).
  assert (Hget1 : rate_get ("withdraw:create:" ++ userId user)%string m1
                  = Some {| RateEntry.count := 1;
                            RateEntry.resetTime := (first + 60000)%Z |})
    by apply rate_get_set_same.
  pose proof (create_body_outcome user body uuid p d) as Hbody.
  cbv zeta in Hbody.
  destruct (answer (POST_user_withdrawal_request_body user body uuid)
                   refused_500 p d) as [reply1 d1] eqn:Hout.
  cbn [fst snd] in *.
  pose proof (creation_from_live user later m1 d1 1 (first + 60000)
                Hnd1 Hget1 Htimes) as IH.
  cbv zeta in IH.
  destruct (POST_user_withdrawal_request_each user later m1 d1)
    as [[rs m2] d2].
  cbn [fst snd] in *.
  destruct IH as ((created & Hrows & Hlen & Hgood) & Htx & Hrep).
  assert (Hreplies : forall k reply,
             nth_error (reply1 :: rs) k = Some reply ->
             (5 <= k)%nat ->
             reply = Refused 429
                       (Text "Too many requests. Try again later.")).
  { intros [|k] reply Hk Hge; [lia|]. simpl in Hk.
    apply (Hrep k reply Hk). lia. }
  destruct Hbody as [[_ ->] | (row & Heq & Hid & Hu & Hst & _ & Hpos
                               & Hmaxi & _)].
  - split; [|split; [exact Htx | exact Hreplies]].
    exists created. repeat split; auto; try lia. all: now apply Hgood.
  - injection Heq as -> ->. simpl in Hrows, Htx.
    split; [|split; [exact Htx | exact Hreplies]].
    exists (row :: created). split; [|split].
    + rewrite Hrows, <- app_assoc. reflexivity.
    + simpl List.length. lia.
    + intros x [<- | Hx]; [repeat split; auto | now apply Hgood].
Qed.

Lemma withdrawal_creation_is_rate_limited_witness :
  let out := POST_user_withdrawal_request_each ann example_burst []
               example_ledger in
  List.length (withdrawalRequests (snd out)) = 5%nat
  /\ map (@done _) (fst (fst out))
     = [true; true; true; true; true; false; false]
  /\ nth_error (fst (fst out)) 5
     = Some (Refused 429 (Text "Too many requests. Try again later.")).
Proof.
  assert (H := withdrawal_creation_is_rate_limited ann example_withdrawal 0
                 "0" [] (tl example_burst) [] example_ledger).
  destruct H as (_ & _ & Hrep).
  - constructor.
  - intros e He. discriminate He.
  - intros body now uuid p Hin. simpl in Hin.
    repeat (destruct Hin as [Hin | Hin];
            [injection Hin as _ <- _ _; lia|]).
    contradiction.
  - split; [reflexivity|]. split; [reflexivity|].
    destruct (nth_error _ 5) as [reply|] eqn:E; [|discriminate E].
    f_equal. apply (Hrep 5%nat reply); [exact E | lia].
Defined.

(** ** The course of a withdrawal request *)








(** ** Withdrawal requests of other users *)

(** X10. The routes of a user on withdrawal requests do not reach the
    requests of others.  When no request with the identifier belongs to the
    user, the lookup by identifier is refused and the update is refused
    and writes nothing, however the store behaves; the listing holds rows
    of the user only, twenty at most, the latest first; and the lookup and
    the listing leave the store as it is. *)
Theorem withdrawal_requests_are_private (user : JWTPayload) (id : Id)
  (status : string) (p : Plan) (d : DB) :
  (forall r, In r (withdrawalRequests d) -> WithdrawalRequest.id r = id ->
             WithdrawalRequest.userId r <> userId user) ->
  (done (fst (GET_user_withdrawal_request_id user id p d)) = false
   /\ snd (GET_user_withdrawal_request_id user id p d) = d)
  /\ (is_success (fst (PUT_user_withdrawal_request user id status p d)) = false
      /\ snd (PUT_user_withdrawal_request user id status p d) = d)
  /\ snd (GET_user_withdrawal_request user p d) = d
  /\ forall st rows,
       fst (GET_user_withdrawal_request user p d) = Done st rows ->
       rows = firstn 20 (rev (filter
                (fun r => String.eqb (WithdrawalRequest.userId r) (userId user))
                (withdrawalRequests d)))
       /\ (List.length rows <= 20)%nat
       /\ forall r, In r rows ->
            In r (withdrawalRequests d)
            /\ WithdrawalRequest.userId r = userId user.
Proof.
  intros Hother.
  assert (Hnone : find (fun r => String.eqb (WithdrawalRequest.id r) id
                         && String.eqb (WithdrawalRequest.userId r)
                                       (userId user))
                       (withdrawalRequests d) = None).
  { destruct (find _ _) as [r|] eqn:E; [|reflexivity].
    apply find_some in E. destruct E as [Hin Hc].
    apply andb_true_iff in Hc. destruct Hc as [Hi Hu].
    apply String.eqb_eq in Hi, Hu. now destruct (Hother r Hin Hi). }
  split; [|split; [|split]].
  - unfold GET_user_withdrawal_request_id, answer, findFirst_own_request,
      bind, read, call, ret.
    destruct p as [|[e|] p]; simpl; rewrite ?Hnone; split; reflexivity.
  - unfold PUT_user_withdrawal_request, respond,
      PUT_user_withdrawal_request_body.
    destruct (accepted_status _); [|split; reflexivity].
    unfold bind, read, call, ret.
    destruct p as [|[e|] p]; simpl; rewrite ?Hnone; split; reflexivity.
  - unfold GET_user_withdrawal_request, answer, bind, read, call, ret.
    destruct p as [|[e|] p]; reflexivity.
  - intros st rows.
    unfold GET_user_withdrawal_request, answer, bind, read, call, ret.
    assert (Hrows : forall l : list WithdrawalRequest.t,
              l = firstn 20 (rev (filter
                    (fun r => String.eqb (WithdrawalRequest.userId r)
                                         (userId user))
                    (withdrawalRequests d))) ->
              (List.length l <= 20)%nat
              /\ forall r, In r l ->
                   In r (withdrawalRequests d)
                   /\ WithdrawalRequest.userId r = userId user).
    { intros l ->. split; [apply firstn_le_length|].
      intros r Hr.
      assert (Hr' : In r (rev (filter
                 (fun r => String.eqb (WithdrawalRequest.userId r)
                                      (userId user))
                 (withdrawalRequests d)))).
      { rewrite <- (firstn_skipn 20). apply in_or_app. now left. }
      clear Hr. rename Hr' into Hr. apply in_rev in Hr.
      apply filter_In in Hr. destruct Hr as [Hin Hu].
      split; [exact Hin | now apply String.eqb_eq]. }
    destruct p as [|[e|] p]; simpl; intros H;
      try discriminate H; injection H as _ <-;
      (split; [reflexivity | now apply Hrows]).
Qed.

Lemma withdrawal_requests_are_private_witness :
  GET_user_withdrawal_request_id bob "w1" [] example_requests
  = (Refused 404 (Text "Not found"), example_requests)
  /\ snd (PUT_user_withdrawal_request bob "w1" "APPROVED" [] example_requests)
     = example_requests
  /\ fst (GET_user_withdrawal_request ann [] example_requests)
     = Done 200 [example_request].
Proof.
  destruct (withdrawal_requests_are_private bob "w1" "APPROVED" []
              example_requests) as (_ & [_ Hput] & _).
  - intros r [<- | []] _. discriminate.
  - split; [reflexivity|]. split; [exact Hput | reflexivity].
Defined.

(** ** Update and deletion of an NFT *)


(** A request to update ends refused with the store as it was, or done
    with the one row rewritten. *)
Lemma PUT_nfts_id_outcomes (user : JWTPayload) (id : Id) (body : NFTUpdate.t)
  (p : Plan) (d : DB) :
  let out := PUT_nfts_id user id body p d in
  (done (fst out) = false /\ snd out = d)
  \/ exists n,
       find (fun n => String.eqb (NFT.id n) id) (nfts d) = Some n
       /\ nftUpdateSchema body = true
       /\ may_manage user n
       /\ out = (Done 200 (updated_with body n),
                 set_nfts d (update_where NFT.id id (updated_with body)
                                          (nfts d))).
Proof.
  unfold PUT_nfts_id, answer, PUT_nfts_id_body, validateNFTOwnership,
    findUnique_nft, update_nft, may_manage.
  destruct (nftUpdateSchema body); [|now left]. cbn [negb].
  unfold bind, read, call, ret.
  destruct p as [|[e|] p]; simpl;
    try (left; split; [destruct e|]; reflexivity).
  all: destruct (find _ (nfts d)) as [n|] eqn:Hn; simpl; auto.
  all: destruct (isAdmin user) eqn:Hadm; simpl.
  all: try (destruct p as [|[e|] p]; simpl;
            try (left; split; [destruct e|]; reflexivity)).
  all: rewrite ?Hn; simpl.
  all: try (destruct (String.eqb (NFT.creatorId n) (userId user)) eqn:Hc;
            simpl;
            [| destruct (nullable_is (NFT.ownerId n) (userId user)) eqn:Ho;
               simpl; auto]).
  all: try (destruct p as [|[e|] p]; simpl;
            try (left; split; [destruct e|]; reflexivity)).
  all: rewrite ?Hn; simpl.
  all: right; exists n; repeat split; auto.
  all: try (right; left; now apply String.eqb_eq).
  all: try (right; right; now apply nullable_is_true).
Qed.

(** On a store that answers, a valid update by someone who may manage the
    row is done. *)
Lemma PUT_nfts_id_done (user : JWTPayload) (id : Id) (body : NFTUpdate.t)
  (p : Plan) (d : DB) (n : NFT.t) :
  store_up p 3 = true ->
  find (fun n => String.eqb (NFT.id n) id) (nfts d) = Some n ->
  nftUpdateSchema body = true ->
  may_manage user n ->
  PUT_nfts_id user id body p d
  = (Done 200 (updated_with body n),
     set_nfts d (update_where NFT.id id (updated_with body) (nfts d))).
Proof.
  intros Hup Hn Hv Hperm.
  assert (Hc : isAdmin user = false ->
               String.eqb (NFT.creatorId n) (userId user)
               || nullable_is (NFT.ownerId n) (userId user) = true).
  { intros Hadm. destruct Hperm as [H | [H | H]]; [congruence | |].
    - rewrite H, String.eqb_refl. reflexivity.
    - apply nullable_is_true in H. rewrite H. apply orb_true_r. }
  unfold PUT_nfts_id, answer, PUT_nfts_id_body, validateNFTOwnership,
    findUnique_nft, update_nft.
  rewrite Hv. cbn [negb]. unfold bind, read, call, ret.
  destruct (isAdmin user) eqn:Hadm.
  - destruct p as [|[e1|] [|[e2|] p]]; try discriminate Hup;
      simpl; rewrite ?Hn; simpl; rewrite ?Hn; reflexivity.
  - specialize (Hc eq_refl).
    destruct p as [|[e1|] [|[e2|] [|[e3|] p]]]; try discriminate Hup;
      simpl; rewrite ?Hn; simpl; rewrite ?Hn, ?Hc; simpl; rewrite ?Hn;
      reflexivity.
Qed.

Lemma update_where_row {R} (key : R -> Id) (id : Id) (f : R -> R)
  (rows : list R) (x' : R) :
  In x' (update_where key id f rows) ->
  exists x, In x rows /\ (x' = x \/ (key x = id /\ x' = f x)).
Proof.
  unfold update_where. intros H. apply in_map_iff in H.
  destruct H as (x & Hx & Hin). exists x. split; [exact Hin|].
  destruct (String.eqb (key x) id) eqn:E.
  - right. split; [now apply String.eqb_eq | now symmetry].
  - left. now symmetry.
Qed.

Lemma find_update_where_other {R} (key : R -> Id) (id other : Id)
  (f : R -> R) (rows : list R) :
  (forall x, key (f x) = key x) ->
  other <> id ->
  find (fun x => String.eqb (key x) other) (update_where key id f rows)
  = find (fun x => String.eqb (key x) other) rows.
Proof.
  intros Hkey Hne. induction rows as [|x rows IH]; simpl; [reflexivity|].
  destruct (String.eqb (key x) id) eqn:E.
  - rewrite Hkey. apply String.eqb_eq in E.
    assert (En : String.eqb (key x) other = false).
    { apply String.eqb_neq. congruence. }
    now rewrite En.
  - destruct (String.eqb (key x) other); [reflexivity | exact IH].
Qed.

(** X11. An update cannot undo a sale.  Whatever the request to update an
    NFT and however the store behaves, every table but the NFTs is left as
    it is, the NFTs keep their identifiers and order, and each row keeps its
    token, creator, owner, collection and its sold flag; rows other than
    the one addressed are left as they are.  So an NFT that was sold stays
    sold, also when the update lists it again, and a purchase of it is
    still refused. *)
Theorem update_cannot_undo_sale (user : JWTPayload) (id : Id)
  (body : NFTUpdate.t) (p : Plan) (d : DB) :
  let d' := snd (PUT_nfts_id user id body p d) in
  set_nfts d' (nfts d) = d
  /\ map NFT.id (nfts d') = map NFT.id (nfts d)
  /\ (forall n', In n' (nfts d') ->
        exists n, In n (nfts d)
          /\ NFT.id n' = NFT.id n /\ NFT.tokenId n' = NFT.tokenId n
          /\ NFT.isSold n' = NFT.isSold n
          /\ NFT.creatorId n' = NFT.creatorId n
          /\ NFT.ownerId n' = NFT.ownerId n
          /\ NFT.collectionId n' = NFT.collectionId n
          /\ (NFT.id n <> id -> n' = n))
  /\ forall (nftId : Id) (sold : NFT.t) (buyer : JWTPayload) (now : DateTime)
            (txUuid txHash : Id) (p' : Plan),
       find (fun n => String.eqb (NFT.id n) nftId) (nfts d) = Some sold ->
       NFT.isSold sold = true ->
       let out := POST_nfts_id_purchase buyer nftId now txUuid txHash p' d' in
       snd out = d' /\ is_success (fst out) = false.
Proof.
  intros d'.
  destruct (PUT_nfts_id_outcomes user id body p d)
    as [[_ Hd] | (n & Hn & _ & _ & Hout)]; fold d' in Hd || idtac.
  - rewrite Hd. split; [now destruct d|]. split; [reflexivity|]. split.
    + intros n' Hin. exists n'. repeat split; auto.
    + intros nftId sold buyer now txUuid txHash p' Hs Hsold.
      destruct (unavailable_is_refused buyer nftId now txUuid txHash p' d sold
                  Hs (or_intror Hsold)) as (H1 & H2 & _).
      now split.
  - assert (Hd : d' = set_nfts d (update_where NFT.id id (updated_with body)
                                              (nfts d))).
    { unfold d'. now rewrite Hout. }
    rewrite Hd. split; [now destruct d|]. split; [|split].
    + simpl. now apply update_where_keys.
    + simpl. intros n' Hin. apply update_where_row in Hin.
      destruct Hin as (x & Hx & [-> | [Hid ->]]); exists x.
      * repeat split; auto.
      * repeat split; auto. intros Hne. contradiction.
    + intros nftId sold buyer now txUuid txHash p' Hs Hsold.
      destruct (String.eqb nftId id) eqn:E.
      * apply String.eqb_eq in E. subst nftId.
        assert (Hs' : find (fun n => String.eqb (NFT.id n) id)
                        (nfts (set_nfts d (update_where NFT.id id
                                             (updated_with body) (nfts d))))
                      = Some (updated_with body sold)).
        { simpl. now apply find_update_where. }
        destruct (unavailable_is_refused buyer id now txUuid txHash p' _ _
                    Hs' (or_intror Hsold)) as (H1 & H2 & _).
        now split.
      * assert (Hs' : find (fun n => String.eqb (NFT.id n) nftId)
                        (nfts (set_nfts d (update_where NFT.id id
                                             (updated_with body) (nfts d))))
                      = Some sold).
        { simpl. rewrite find_update_where_other; [exact Hs | reflexivity|].
          intros ->. rewrite String.eqb_refl in E. discriminate. }
        destruct (unavailable_is_refused buyer nftId now txUuid txHash p' _ _
                    Hs' (or_intror Hsold)) as (H1 & H2 & _).
        now split.
Qed.

Lemma update_cannot_undo_sale_witness :
  let d' := snd (PUT_nfts_id ann "n1" example_relisting [] example_sold) in
  (exists n, find (fun n => String.eqb (NFT.id n) "n1") (nfts d') = Some n
             /\ NFT.isListed n = true /\ NFT.isSold n = true)
  /\ is_success (fst (POST_nfts_id_purchase cleo "n1" 3000 "tx2" "h2" [] d'))
     = false.
Proof.
  destruct (update_cannot_undo_sale ann "n1" example_relisting [] example_sold)
    as (_ & _ & _ & Hsold).
  split.
  - eexists. split; [reflexivity|]. split; reflexivity.
  - apply (Hsold "n1" (sold_to "u2" example_nft) cleo 3000%Z "tx2" "h2" []);
      reflexivity.
Defined.

(** X12. The creator keeps the right to update after the sale.  After a
    purchase of an NFT has succeeded, its creator, who no longer owns it
    and is no admin, can still send a valid update on a store that answers:
    the update is done, the row takes the price and the listing of the
    body, and it stays sold and the buyer's. *)
Theorem creator_updates_after_sale (buyer creator : JWTPayload) (nftId : Id)
  (now : DateTime) (txUuid txHash : Id) (p p2 : Plan) (d : DB)
  (nft : NFT.t) (body : NFTUpdate.t) :
  is_success (fst (POST_nfts_id_purchase buyer nftId now txUuid txHash p d))
  = true ->
  find (fun n => String.eqb (NFT.id n) nftId) (nfts d) = Some nft ->
  NFT.creatorId nft = userId creator ->
  nftUpdateSchema body = true ->
  store_up p2 3 = true ->
  let d1 := snd (POST_nfts_id_purchase buyer nftId now txUuid txHash p d) in
  let out := PUT_nfts_id creator nftId body p2 d1 in
  exists n',
    fst out = Done 200 n'
    /\ find (fun n => String.eqb (NFT.id n) nftId) (nfts (snd out)) = Some n'
    /\ NFT.ownerId n' = Some (userId buyer)
    /\ NFT.isSold n' = true
    /\ (forall x, NFTUpdate.price body = Some x -> NFT.price n' = Some x)
    /\ (forall b, NFTUpdate.isListed body = Some b -> NFT.isListed n' = b).
Proof.
  intros Hok Hn Hcr Hv Hup d1 out.
  destruct (purchase_outcomes buyer nftId now txUuid txHash p d)
    as [[Hfail _] | (nft' & price & Hpre & Hout)]; [congruence|].
  assert (nft' = nft) as ->.
  { destruct Hpre as [Hn' _]. congruence. }
  assert (Hn1 : find (fun n => String.eqb (NFT.id n) nftId) (nfts d1)
                = Some (sold_to (userId buyer) nft)).
  { unfold d1. rewrite Hout. simpl. now apply find_update_where. }
  assert (Hperm : may_manage creator (sold_to (userId buyer) nft)).
  { right. left. exact Hcr. }
  pose proof (PUT_nfts_id_done creator nftId body p2 d1 _ Hup Hn1 Hv Hperm)
    as Hput.
  fold out in Hput.
  exists (updated_with body (sold_to (userId buyer) nft)).
  rewrite Hput. split; [reflexivity|]. split.
  - simpl. now apply find_update_where.
  - repeat split.
    + intros x Hx. simpl. now rewrite Hx.
    + intros b Hb. simpl. now rewrite Hb.
Qed.

Lemma creator_updates_after_sale_witness :
  exists n',
    fst (PUT_nfts_id ann "n1" example_relisting []
           (snd (POST_nfts_id_purchase bob "n1" 1000 "tx1" "hash1" []
                   example_market)))
    = Done 200 n'
    /\ NFT.ownerId n' = Some "u2" /\ NFT.price n' = Some 9
    /\ NFT.isListed n' = true.
Proof.
  destruct (creator_updates_after_sale bob ann "n1" 1000 "tx1" "hash1" [] []
              example_market example_nft example_relisting
              eq_refl eq_refl eq_refl eq_refl eq_refl)
    as (n' & Hdone & _ & Hown & _ & Hprice & Hlisted).
  exists n'. split; [exact Hdone|]. split; [exact Hown|].
  split; [now apply Hprice | now apply Hlisted].
Defined.

(** A request to delete ends refused with the store as it was, or done
    with the row removed. *)
Lemma DELETE_nfts_id_outcomes (user : JWTPayload) (id : Id) (p : Plan)
  (d : DB) :
  let out := DELETE_nfts_id user id p d in
  (done (fst out) = false /\ snd out = d)
  \/ exists n,
       find (fun n => String.eqb (NFT.id n) id) (nfts d) = Some n
       /\ may_manage user n
       /\ count_transactions_of id d = 0%nat
       /\ count_auctions_of id d = 0%nat
       /\ out = (Done 200 tt,
                 set_nfts d (filter (fun n => negb (String.eqb (NFT.id n) id))
                                    (nfts d))).
Proof.
  unfold DELETE_nfts_id, answer, DELETE_nfts_id_body, validateNFTOwnership,
    findUnique_nft, delete_nft, may_manage.
  unfold bind, read, call, ret.
  destruct p as [|[e|] p]; simpl;
    try (left; split; [destruct e|]; reflexivity).
  all: destruct (find _ (nfts d)) as [n|] eqn:Hn; simpl; auto.
  all: destruct (isAdmin user) eqn:Hadm; simpl.
  all: try (destruct p as [|[e|] p]; simpl;
            try (left; split; [destruct e|]; reflexivity)).
  all: rewrite ?Hn; simpl.
  all: try (destruct (String.eqb (NFT.creatorId n) (userId user)) eqn:Hc;
            simpl;
            [| destruct (nullable_is (NFT.ownerId n) (userId user)) eqn:Ho;
               simpl; auto]).
  all: destruct (count_transactions_of id d) as [|k] eqn:Ht; simpl; auto.
  all: destruct (count_auctions_of id d) as [|k'] eqn:Ha; simpl; auto.
  all: try (destruct p as [|[e|] p]; simpl;
            try (left; split; [destruct e|]; reflexivity)).
  all: rewrite ?Hn; simpl.
  all: try (left; split; [destruct e|]; reflexivity).
  all: right; exists n; repeat split; auto.
  all: try (right; left; now apply String.eqb_eq).
  all: try (right; right; now apply nullable_is_true).
Qed.

Lemma count_zero {A} (f : A -> bool) (l : list A) :
  List.length (filter f l) = 0%nat <-> forall x, In x l -> f x = false.
Proof.
  split.
  - intros H x Hx. destruct (f x) eqn:E; [|reflexivity].
    assert (Hin : In x (filter f l)) by (apply filter_In; now split).
    destruct (filter f l); [contradiction | discriminate H].
  - intros H. induction l as [|x l IH]; [reflexivity|]. simpl.
    rewrite (H x (or_introl eq_refl)). apply IH. intros y Hy. apply H.
    now right.
Qed.

(** X13. Deletion needs a clean history.  A request to delete an NFT is
    done only when the NFT exists, the user is its creator, its owner or an
    admin, and no row of the ledger and no auction mentions it; it then
    removes the row and nothing else.  Otherwise nothing is written.  So an
    NFT that was purchased, or put up for auction, through the routes
    cannot be deleted, by anyone, however the store behaves. *)
Theorem deletion_needs_clean_history (user : JWTPayload) (id : Id) (p : Plan)
  (d : DB) :
  let out := DELETE_nfts_id user id p d in
  (done (fst out) = true ->
   (exists n,
      find (fun n => String.eqb (NFT.id n) id) (nfts d) = Some n
      /\ may_manage user n)
   /\ (forall t, In t (transactions d) -> Transaction.nftId t <> Some id)
   /\ (forall a, In a (auctions d) -> Auction.nftId a <> id)
   /\ snd out
      = set_nfts d (filter (fun n => negb (String.eqb (NFT.id n) id)) (nfts d))
   /\ find (fun n => String.eqb (NFT.id n) id) (nfts (snd out)) = None)
  /\ (done (fst out) = false -> snd out = d)
  /\ (forall (buyer : JWTPayload) (now : DateTime) (txUuid txHash : Id)
             (p0 : Plan) (d0 : DB),
        is_success (fst (POST_nfts_id_purchase buyer id now txUuid txHash p0 d0))
        = true ->
        d = snd (POST_nfts_id_purchase buyer id now txUuid txHash p0 d0) ->
        done (fst out) = false)
  /\ (forall (seller : JWTPayload) (body : AuctionCreate.t) (now : DateTime)
             (uuid : Id) (p0 : Plan) (d0 : DB),
        is_success (fst (POST_auctions seller body now uuid p0 d0)) = true ->
        AuctionCreate.nftId body = id ->
        d = snd (POST_auctions seller body now uuid p0 d0) ->
        done (fst out) = false).
Proof.
  intros out.
  assert (Hdone : done (fst out) = true ->
            (exists n,
               find (fun n => String.eqb (NFT.id n) id) (nfts d) = Some n
               /\ may_manage user n)
            /\ (forall t, In t (transactions d) -> Transaction.nftId t <> Some id)
            /\ (forall a, In a (auctions d) -> Auction.nftId a <> id)
            /\ snd out
               = set_nfts d (filter (fun n => negb (String.eqb (NFT.id n) id))
                                    (nfts d))
            /\ find (fun n => String.eqb (NFT.id n) id) (nfts (snd out))
               = None).
  { intros Hd.
    destruct (DELETE_nfts_id_outcomes user id p d)
      as [[Hno _] | (n & Hn & Hperm & Ht & Ha & Hout)];
      fold out in Hno || idtac; [congruence|].
    fold out in Hout. rewrite Hout. simpl.
    split; [now exists n|]. split; [|split; [|split]].
    - intros t Hin. unfold count_transactions_of in Ht.
      rewrite count_zero in Ht. specialize (Ht t Hin).
      now apply nullable_is_false.
    - intros a Hin. unfold count_auctions_of in Ha.
      rewrite count_zero in Ha. specialize (Ha a Hin).
      now apply String.eqb_neq.
    - reflexivity.
    - destruct (find _ (filter _ (nfts d))) as [x|] eqn:E; [|reflexivity].
      apply find_some in E. destruct E as [Hin Hx].
      apply filter_In in Hin. destruct Hin as [_ Hy].
      rewrite Hx in Hy. discriminate Hy. }
  split; [exact Hdone|]. split; [|split].
  - intros Hno.
    destruct (DELETE_nfts_id_outcomes user id p d)
      as [[_ Hd] | (n & _ & _ & _ & _ & Hout)]; [exact Hd|].
    fold out in Hout. rewrite Hout in Hno. discriminate Hno.
  - intros buyer now txUuid txHash p0 d0 Hok Hd.
    destruct (done (fst out)) eqn:E; [|reflexivity]. exfalso.
    destruct (Hdone eq_refl) as (_ & Hledger & _).
    destruct (purchase_outcomes buyer id now txUuid txHash p0 d0)
      as [[Hfail _] | (nft & price & _ & Hout)]; [congruence|].
    apply (Hledger (sale_transaction buyer id price txUuid txHash));
      [|reflexivity].
    rewrite Hd, Hout. simpl. apply in_or_app. right. now left.
  - intros seller body now uuid p0 d0 Hok Hid Hd.
    destruct (done (fst out)) eqn:E; [|reflexivity]. exfalso.
    destruct (Hdone eq_refl) as (_ & _ & Hauctions & _).
    destruct (auction_outcomes seller body now uuid p0 d0)
      as [[Hfail _] | (_ & _ & Hout)]; [congruence|].
    apply (Hauctions (new_auction seller body now uuid)); [|exact Hid].
    rewrite Hd, Hout. simpl. apply in_or_app. right. now left.
Qed.

Lemma deletion_needs_clean_history_witness :
  DELETE_nfts_id ann "n1" [] example_market
  = (Done 200 tt, set_nfts example_market [])
  /\ done (fst (DELETE_nfts_id bob "n1" [] example_sold)) = false
  /\ done (fst (DELETE_nfts_id ann "n1" [] example_auction_house)) = false.
Proof.
  split; [reflexivity|]. split.
  - destruct (deletion_needs_clean_history bob "n1" [] example_sold)
      as (_ & _ & Hbought & _).
    apply (Hbought bob 1000%Z "tx1" "hash1" [] example_market); reflexivity.
  - reflexivity.
Defined.

(** ** Update of a profile *)

(** What the uniqueness check of a column lets through. *)
Lemma check_unique_outcome (new : option string) (old : string)
  (column : User.t -> string) (taken : string) (p : Plan) (d : DB) :
  match check_unique new old column taken p d with
  | Resolved None _ d' =>
      d' = d
      /\ (truthy new = false \/ new = Some old
          \/ forall u, In u (users d) -> new <> Some (column u))
  | Resolved (Some r) _ d' => d' = d /\ done r = false
  | Rejected _ _ d' => d' = d
  end.
Proof.
  unfold check_unique.
  destruct (truthy new) eqn:T; simpl; [|split; [reflexivity | now left]].
  destruct (nullable_is new old) eqn:O; simpl.
  { split; [reflexivity|]. right. left. now apply nullable_is_true. }
  unfold bind, read, call, ret.
  assert (Hfree : find (fun u => nullable_is new (column u)) (users d) = None ->
                  forall u, In u (users d) -> new <> Some (column u)).
  { intros Hnone u Hu E.
    apply (find_none _ _ Hnone) in Hu. apply nullable_is_true in E.
    congruence. }
  destruct p as [|[e|] p]; simpl; [| reflexivity |];
    (destruct (find _ (users d)) eqn:F;
     [split; reflexivity | split; [reflexivity | right; right; now apply Hfree]]).
Qed.

(** The body of the route: it resolves to a refusal with the store as it
    was, or to the row rewritten; it rejects with the store as it was. *)
Lemma PUT_users_id_body_outcomes (currentUser : JWTPayload) (id : Id)
  (validation : option UserUpdate.t) (p : Plan) (d : DB) :
  match PUT_users_id_body currentUser id validation p d with
  | Resolved r _ d' =>
      (done r = false /\ d' = d)
      \/ exists updateData u,
           validation = Some updateData
           /\ (isAdmin currentUser = true \/ userId currentUser = id)
           /\ (isAdmin currentUser = true
               \/ (UserUpdate.isVerified updateData = None
                   /\ UserUpdate.isSuspended updateData = None))
           /\ find (fun u => String.eqb (User.id u) id) (users d) = Some u
           /\ (truthy (UserUpdate.username updateData) = false
               \/ UserUpdate.username updateData = Some (User.username u)
               \/ forall x, In x (users d) ->
                    UserUpdate.username updateData <> Some (User.username x))
           /\ (truthy (UserUpdate.email updateData) = false
               \/ UserUpdate.email updateData = Some (User.email u)
               \/ forall x, In x (users d) ->
                    UserUpdate.email updateData <> Some (User.email x))
           /\ r = Done 200 (updated_user updateData u)
           /\ d' = set_users d (update_where User.id id
                                  (updated_user updateData) (users d))
  | Rejected _ _ d' => d' = d
  end.
Proof.
  unfold PUT_users_id_body.
  assert (Hwho : negb (isAdmin currentUser)
                 && negb (String.eqb (userId currentUser) id) = false ->
                 isAdmin currentUser = true \/ userId currentUser = id).
  { destruct (isAdmin currentUser); [now left|].
    destruct (String.eqb (userId currentUser) id) eqn:E; [|discriminate].
    right. now apply String.eqb_eq. }
  destruct (negb (isAdmin currentUser)
            && negb (String.eqb (userId currentUser) id)) eqn:Hw;
    [now left|].
  specialize (Hwho eq_refl).
  destruct validation as [updateData|]; [|now left].
  assert (Hflags : (defined (UserUpdate.isVerified updateData)
                    || defined (UserUpdate.isSuspended updateData))
                   && negb (isAdmin currentUser) = false ->
                   isAdmin currentUser = true
                   \/ (UserUpdate.isVerified updateData = None
                       /\ UserUpdate.isSuspended updateData = None)).
  { destruct (isAdmin currentUser); [now left|].
    destruct (UserUpdate.isVerified updateData),
             (UserUpdate.isSuspended updateData); try discriminate.
    now right. }
  destruct ((defined (UserUpdate.isVerified updateData)
             || defined (UserUpdate.isSuspended updateData))
            && negb (isAdmin currentUser)) eqn:Hf; [now left|].
  specialize (Hflags eq_refl).
  rewrite bind_read_plan.
  destruct p as [|[e|] p]; [| reflexivity |]; cbn [tl].
  all: destruct (find _ (users d)) as [u|] eqn:Hu; [|now left].
  all: rewrite bind_unfold.
  all: match goal with
       | |- context [check_unique ?n ?o ?c ?t ?q ?s] =>
           pose proof (check_unique_outcome n o c t q s) as H1;
           destruct (check_unique n o c t q s) as [[r1|] p1 d1|e1 p1 d1];
           [ destruct H1 as [-> H1]; left; split; [exact H1 | reflexivity]
           | destruct H1 as [-> H1]
           | exact H1 ]
       end.
  all: rewrite bind_unfold.
  all: match goal with
       | |- context [check_unique ?n ?o ?c ?t ?q ?s] =>
           pose proof (check_unique_outcome n o c t q s) as H2;
           destruct (check_unique n o c t q s) as [[r2|] p2 d2|e2 p2 d2];
           [ destruct H2 as [-> H2]; left; split; [exact H2 | reflexivity]
           | destruct H2 as [-> H2]
           | exact H2 ]
       end.
  all: unfold update_user, bind, call, ret.
  all: destruct p2 as [|[e|] p2]; try reflexivity; rewrite Hu.
  all: right; exists updateData, u; repeat split; auto.
Qed.

(** A request to update a profile ends refused with the store as it was,
    or done with the one row rewritten. *)
Lemma PUT_users_id_outcomes (currentUser : JWTPayload) (id : Id)
  (validation : option UserUpdate.t) (p : Plan) (d : DB) :
  let out := PUT_users_id currentUser id validation p d in
  (done (fst out) = false /\ snd out = d)
  \/ exists updateData u,
       validation = Some updateData
       /\ (isAdmin currentUser = true \/ userId currentUser = id)
       /\ (isAdmin currentUser = true
           \/ (UserUpdate.isVerified updateData = None
               /\ UserUpdate.isSuspended updateData = None))
       /\ find (fun u => String.eqb (User.id u) id) (users d) = Some u
       /\ (truthy (UserUpdate.username updateData) = false
           \/ UserUpdate.username updateData = Some (User.username u)
           \/ forall x, In x (users d) ->
                UserUpdate.username updateData <> Some (User.username x))
       /\ (truthy (UserUpdate.email updateData) = false
           \/ UserUpdate.email updateData = Some (User.email u)
           \/ forall x, In x (users d) ->
                UserUpdate.email updateData <> Some (User.email x))
       /\ out = (Done 200 (updated_user updateData u),
                 set_users d (update_where User.id id (updated_user updateData)
                                           (users d))).
Proof.
  unfold PUT_users_id, answer.
  pose proof (PUT_users_id_body_outcomes currentUser id validation p d) as H.
  destruct (PUT_users_id_body currentUser id validation p d)
    as [r p' d'|e p' d']; cbn [fst snd].
  - destruct H as [H | (upd & u & H1 & H2 & H3 & H4 & H5 & H6 & -> & ->)].
    + now left.
    + right. exists upd, u. repeat split; auto.
  - subst d'. left. split; [destruct e|]; reflexivity.
Qed.

Lemma update_where_unique_row {R} (key : R -> Id) (id : Id) (f : R -> R)
  (rows : list R) (u : R) :
  NoDup (map key rows) ->
  find (fun x => String.eqb (key x) id) rows = Some u ->
  exists before after,
    rows = before ++ u :: after
    /\ update_where key id f rows = before ++ f u :: after.
Proof.
  induction rows as [|x rows IH]; simpl; [discriminate|].
  intros Hnd Hfind. inversion Hnd as [|k ks Hnot Hnd']; subst.
  destruct (String.eqb (key x) id) eqn:E.
  - injection Hfind as ->. exists [], rows. split; [reflexivity|].
    simpl. f_equal. apply String.eqb_eq in E.
    unfold update_where.
    rewrite <- (map_id rows) at 2. apply map_ext_in. intros y Hy.
    destruct (String.eqb (key y) id) eqn:Ey; [|reflexivity].
    exfalso. apply Hnot. apply String.eqb_eq in Ey. rewrite E, <- Ey.
    now apply in_map.
  - destruct (IH Hnd' Hfind) as (before & after & -> & Hupd).
    exists (x :: before), after. split; [reflexivity|].
    simpl. f_equal. exact Hupd.
Qed.

Lemma NoDup_replace {A} (before after : list A) (x y : A) :
  NoDup (before ++ x :: after) ->
  (y = x \/ ~ In y (before ++ x :: after)) ->
  NoDup (before ++ y :: after).
Proof.
  intros Hnd [-> | Hnew]; [exact Hnd|].
  apply NoDup_remove in Hnd. destruct Hnd as [Hnd Hx].
  assert (HA : Add y (before ++ after) (before ++ y :: after))
    by apply Add_app.
  apply (proj2 (NoDup_Add HA)). split; [exact Hnd|].
  intros Hin. apply Hnew. apply in_app_or in Hin. apply in_or_app.
  destruct Hin as [H | H]; [now left | right; now right].
Qed.

(** X14. Names and addresses stay unique.  On a store whose users have
    distinct identifiers, distinct user names and distinct e-mail addresses,
    a request to update a profile, whatever the caller and however the store
    behaves, leaves them distinct, provided the parsed body carries no
    empty user name or address (the schema lets none through): the route
    refuses a name or an address that another row carries. *)
Theorem profile_update_keeps_names_unique (currentUser : JWTPayload) (id : Id)
  (validation : option UserUpdate.t) (p : Plan) (d : DB) :
  NoDup (map User.id (users d)) ->
  NoDup (map User.username (users d)) ->
  NoDup (map User.email (users d)) ->
  (forall updateData, validation = Some updateData ->
     UserUpdate.username updateData <> Some ""
     /\ UserUpdate.email updateData <> Some "") ->
  let d' := snd (PUT_users_id currentUser id validation p d) in
  NoDup (map User.id (users d'))
  /\ NoDup (map User.username (users d'))
  /\ NoDup (map User.email (users d')).
Proof.
  intros Hid Hname Hmail Hschema d'.
  destruct (PUT_users_id_outcomes currentUser id validation p d)
    as [[_ Hd] | (upd & u & Hv & _ & _ & Hu & Hn & He & Hout)];
    fold d' in Hd || idtac.
  - rewrite Hd. auto.
  - assert (Hd : d' = set_users d (update_where User.id id (updated_user upd)
                                               (users d))).
    { unfold d'. now rewrite Hout. }
    destruct (Hschema upd Hv) as [Hn0 He0].
    destruct (update_where_unique_row User.id id (updated_user upd) (users d) u
                Hid Hu) as (before & after & Hrows & Hupd).
    rewrite Hd. simpl. rewrite Hupd. rewrite Hrows in Hid, Hname, Hmail.
    rewrite !map_app in *. simpl in *.
    split; [exact Hid|]. split.
    + apply NoDup_replace with (x := User.username u); [exact Hname|].
      destruct (UserUpdate.username upd) as [s|] eqn:Es; [|now left].
      destruct Hn as [Hn | [Hn | Hn]].
      * exfalso. simpl in Hn. destruct (String.eqb s "") eqn:Z;
          [|discriminate Hn]. apply String.eqb_eq in Z. congruence.
      * left. congruence.
      * right. intros Hin.
        change (In s (map User.username before
                      ++ map User.username (u :: after))) in Hin.
        rewrite <- map_app, <- Hrows in Hin.
        apply in_map_iff in Hin. destruct Hin as (x & Hx & Hin).
        apply (Hn x Hin). now rewrite Hx.
    + apply NoDup_replace with (x := User.email u); [exact Hmail|].
      destruct (UserUpdate.email upd) as [s|] eqn:Es; [|now left].
      destruct He as [He | [He | He]].
      * exfalso. simpl in He. destruct (String.eqb s "") eqn:Z;
          [|discriminate He]. apply String.eqb_eq in Z. congruence.
      * left. congruence.
      * right. intros Hin.
        change (In s (map User.email before
                      ++ map User.email (u :: after))) in Hin.
        rewrite <- map_app, <- Hrows in Hin.
        apply in_map_iff in Hin. destruct Hin as (x & Hx & Hin).
        apply (He x Hin). now rewrite Hx.
Qed.

Lemma profile_update_keeps_names_unique_witness :
  fst (PUT_users_id bob "u2" (Some (example_rename "ann")) [] example_market)
  = Refused 400 (Text "Username already taken")
  /\ done (fst (PUT_users_id ann "u1" (Some (example_rename "anna")) []
                  example_market)) = true
  /\ NoDup (map User.username
              (users (snd (PUT_users_id ann "u1" (Some (example_rename "anna"))
                             [] example_market)))).
Proof.
  split; [reflexivity|]. split; [reflexivity|].
  refine (proj1 (proj2 (profile_update_keeps_names_unique ann "u1"
                          (Some (example_rename "anna")) [] example_market
                          _ _ _ _))).
  - simpl. constructor; [intros [H | []]; discriminate|].
    constructor; [intros [] | constructor].
  - simpl. constructor; [intros [H | []]; discriminate|].
    constructor; [intros [] | constructor].
  - simpl. constructor; [intros [H | []]; discriminate|].
    constructor; [intros [] | constructor].
  - intros upd [= <-]. split; discriminate.
Defined.

(** X15. An update of a profile is confined.  Whatever the request and
    however the store behaves, every table but the users is left as it is,
    the users keep their identifiers, their order and their admin flags,
    and the rows of identifiers other than the one addressed are left as
    they are.  A caller who is no admin cannot update the profile of
    another user, and cannot send the verification or suspension flag:
    the request is refused and nothing is written. *)
Theorem profile_update_is_confined (currentUser : JWTPayload) (id : Id)
  (validation : option UserUpdate.t) (p : Plan) (d : DB) :
  let out := PUT_users_id currentUser id validation p d in
  set_users (snd out) (users d) = d
  /\ map User.id (users (snd out)) = map User.id (users d)
  /\ map User.isAdmin (users (snd out)) = map User.isAdmin (users d)
  /\ (forall u', In u' (users (snd out)) -> User.id u' <> id ->
                 In u' (users d))
  /\ (isAdmin currentUser = false -> userId currentUser <> id ->
      out = (Refused 403 (Text "You can only update your own profile"), d))
  /\ (isAdmin currentUser = false ->
      forall updateData,
        validation = Some updateData ->
        UserUpdate.isVerified updateData <> None
        \/ UserUpdate.isSuspended updateData <> None ->
        done (fst out) = false /\ snd out = d).
Proof.
  intros out.
  destruct (PUT_users_id_outcomes currentUser id validation p d)
    as [[Hno Hd] | (upd & u & Hv & Hwho & Hflags & Hu & _ & _ & Hout)];
    fold out in Hno, Hd || fold out in Hout.
  - rewrite Hd. split; [now destruct d|]. split; [reflexivity|].
    split; [reflexivity|]. split; [auto|]. split.
    + intros Hadm Hne. unfold out, PUT_users_id, answer, PUT_users_id_body.
      apply String.eqb_neq in Hne. now rewrite Hadm, Hne.
    + intros _ upd _ _. now split.
  - rewrite Hout. cbn [fst snd]. split; [now destruct d|]. split; [|split].
    + simpl. now apply update_where_keys.
    + simpl. unfold update_where. rewrite map_map. apply map_ext.
      intros x. now destruct (String.eqb (User.id x) id).
    + split; [|split].
      * simpl. intros u' Hin Hne. apply update_where_row in Hin.
        destruct Hin as (x & Hx & [-> | [Hid ->]]); [exact Hx|].
        simpl in Hne. contradiction.
      * intros Hadm Hne. destruct Hwho; congruence.
      * intros Hadm upd' Hv' Hdef. exfalso.
        assert (upd' = upd) as -> by congruence.
        destruct Hflags as [H | [H1 H2]]; [congruence|].
        destruct Hdef; contradiction.
Qed.

Lemma profile_update_is_confined_witness :
  PUT_users_id bob "u1" (Some (example_rename "robert")) [] example_market
  = (Refused 403 (Text "You can only update your own profile"), example_market)
  /\ snd (PUT_users_id bob "u2" (Some example_verify) [] example_market)
     = example_market.
Proof.
  destruct (profile_update_is_confined bob "u1" (Some (example_rename "robert"))
              [] example_market) as (_ & _ & _ & _ & Hother & _).
  destruct (profile_update_is_confined bob "u2" (Some example_verify)
              [] example_market) as (_ & _ & _ & _ & _ & Hflags).
  split.
  - apply Hother; [reflexivity | discriminate].
  - apply (Hflags eq_refl example_verify eq_refl). left. discriminate.
Defined.

(** ** The routes that write, taken together *)

Section Keeps.

Variable R : DB -> DB -> Prop.
Hypothesis R_refl : forall d, R d d.
Hypothesis R_trans : forall a b c, R a b -> R b c -> R a c.

Lemma keeps_ret {A} (a : A) : keeps R (ret a).
Proof. intros p d. apply R_refl. Qed.

Lemma keeps_bind {A B} (m : Prisma A) (k : A -> Prisma B) :
  keeps R m -> (forall a, keeps R (k a)) -> keeps R (bind m k).
Proof.
  intros Hm Hk p d. unfold bind. specialize (Hm p d).
  destruct (m p d) as [a p' d'|e p' d']; [|exact Hm].
  specialize (Hk a p' d'). destruct (k a p' d'); eapply R_trans; eauto.
Qed.

Lemma keeps_call {A} (op : DB -> StoreError + (A * DB)) :
  (forall d a d', op d = inr (a, d') -> R d d') -> keeps R (call op).
Proof.
  intros Hop p d. unfold call.
  destruct p as [|[e|] p]; try apply R_refl;
    (destruct (op d) as [e'|[a d']] eqn:E; [apply R_refl | now apply (Hop d a)]).
Qed.

Lemma keeps_read {A} (f : DB -> A) : keeps R (read f).
Proof. apply keeps_call. intros d a d' [= _ <-]. apply R_refl. Qed.

Lemma keeps_transaction {A} (body : Prisma A) :
  keeps R body -> keeps R (transaction body).
Proof.
  intros H p d. unfold transaction. specialize (H p d).
  destruct (body p d); [exact H | apply R_refl].
Qed.

Lemma keeps_try_catch {A} (body : Prisma A) (handler : StoreError -> Prisma A) :
  keeps R body -> (forall e, keeps R (handler e)) ->
  keeps R (try_catch body handler).
Proof.
  intros Hb Hh p d. unfold try_catch. specialize (Hb p d).
  destruct (body p d) as [a p' d'|e p' d']; [exact Hb|].
  specialize (Hh e p' d'). destruct (handler e p' d'); eapply R_trans; eauto.
Qed.

Lemma keeps_respond (body : Prisma Response) (on_error : StoreError -> Response)
  (p : Plan) (d : DB) :
  keeps R body -> R d (snd (respond body on_error p d)).
Proof.
  intros H. unfold respond. specialize (H p d). now destruct (body p d).
Qed.

Lemma keeps_answer {A} (body : Prisma (Reply A))
  (on_error : StoreError -> Reply A) (p : Plan) (d : DB) :
  keeps R body -> R d (snd (answer body on_error p d)).
Proof.
  intros H. unfold answer. specialize (H p d). now destruct (body p d).
Qed.

End Keeps.

Lemma off_market_refl (d : DB) : off_market d d.
Proof.
  repeat split. exists []. split; [now rewrite app_nil_r | intros t []].
Qed.

Lemma off_market_trans (a b c : DB) :
  off_market a b -> off_market b c -> off_market a c.
Proof.
  intros (U1 & C1 & N1 & A1 & B1 & r1 & T1 & H1)
         (U2 & C2 & N2 & A2 & B2 & r2 & T2 & H2).
  repeat split; try congruence.
  exists (r1 ++ r2). split; [now rewrite T2, T1, app_assoc|].
  intros t Hin. apply in_app_or in Hin. destruct Hin; auto.
Qed.

Lemma off_market_ledger_row (row : Transaction.t) :
  Transaction.nftId row = None ->
  keeps off_market (create_transaction row).
Proof.
  intros Hnone. apply keeps_call; [apply off_market_refl|].
  intros d a d' [= _ <-]. repeat split. exists [row].
  split; [reflexivity|]. now intros x [<- | []].
Qed.

Lemma off_market_status (id : Id) (s : WithdrawalStatus) :
  keeps off_market (update_request_status id s).
Proof.
  apply keeps_call; [apply off_market_refl|]. intros d a d'.
  destruct (find _ _) as [w|]; [|discriminate]. intros [= _ <-].
  repeat split. exists []. split; [simpl; now rewrite app_nil_r | intros x []].
Qed.

Lemma off_market_update_each (ids : list Id) (now : DateTime) :
  keeps off_market (update_each ids now).
Proof.
  induction ids as [|u ids IH]; simpl.
  - apply keeps_ret. apply off_market_refl.
  - apply keeps_bind; [apply off_market_trans | | intros _; exact IH].
    apply keeps_call; [apply off_market_refl|]. intros d a d'.
    destruct (find _ _) as [w|]; [|discriminate]. intros [= _ <-].
    repeat split. exists [].
    split; [simpl; now rewrite app_nil_r | intros x []].
Qed.

Ltac off_market_leaf :=
  first
    [ apply keeps_ret; apply off_market_refl
    | apply keeps_read; apply off_market_refl
    | apply off_market_ledger_row; reflexivity
    | apply off_market_status
    | apply off_market_update_each ].

Ltac off_market_bind x :=
  apply keeps_bind; [apply off_market_trans | | intros x].

(** The ledger insert of the two routes that swallow its failure. *)
Lemma off_market_best_effort (row : Transaction.t) :
  Transaction.nftId row = None ->
  keeps off_market
    (try_catch (create_transaction row ;;; ret tt) (fun _ => ret tt)).
Proof.
  intros Hnone.
  apply keeps_try_catch; [apply off_market_trans | | intros e; off_market_leaf].
  off_market_bind x; [now apply off_market_ledger_row | off_market_leaf].
Qed.

Lemma stock_purchase_off_market (user : JWTPayload)
  (body : StockPurchaseCreate.t) (now claimFrom : DateTime)
  (uuid txUuid txHash : Id) :
  keeps off_market
    (POST_stocks_purchases_body user body now claimFrom uuid txUuid txHash).
Proof.
  unfold POST_stocks_purchases_body.
  off_market_bind created.
  - apply keeps_call; [apply off_market_refl|].
    intros d a d' [= _ <-]. repeat split. exists [].
    split; [simpl; now rewrite app_nil_r | intros x []].
  - off_market_bind x; [now apply off_market_best_effort | off_market_leaf].
Qed.

Lemma claim_off_market (user : JWTPayload) (now : DateTime)
  (txUuid txHash : Id) :
  keeps off_market (POST_stocks_purchases_claim_body user now txUuid txHash).
Proof.
  unfold POST_stocks_purchases_claim_body, findMany_purchases.
  off_market_bind userRecord; [off_market_leaf|].
  destruct userRecord as [u|]; [|off_market_leaf].
  off_market_bind purchases; [off_market_leaf|].
  destruct (Qle_bool _ 0); [off_market_leaf|].
  off_market_bind x; [|off_market_leaf].
  apply keeps_transaction; [apply off_market_refl|].
  off_market_bind y; off_market_leaf.
Qed.

Lemma admin_update_off_market (id : Id) (status : string) (txUuid txHash : Id) :
  keeps off_market (PUT_admin_withdrawal_request_body id status txUuid txHash).
Proof.
  unfold PUT_admin_withdrawal_request_body.
  destruct (accepted_status _) as [s|]; [|off_market_leaf].
  off_market_bind updated; [off_market_leaf|].
  off_market_bind x; [|off_market_leaf].
  destruct (WithdrawalStatus_eqb s APPROVED); [|off_market_leaf].
  now apply off_market_best_effort.
Qed.

Lemma user_update_off_market (user : JWTPayload) (id : Id) (status : string) :
  keeps off_market (PUT_user_withdrawal_request_body user id status).
Proof.
  unfold PUT_user_withdrawal_request_body.
  destruct (accepted_status _) as [s|]; [|off_market_leaf].
  off_market_bind existing; [off_market_leaf|].
  destruct existing; [|off_market_leaf].
  off_market_bind updated; off_market_leaf.
Qed.

Lemma creation_off_market (user : JWTPayload) (body : WithdrawalCreate.t)
  (uuid : Id) :
  keeps off_market (POST_user_withdrawal_request_body user body uuid).
Proof.
  unfold POST_user_withdrawal_request_body.
  destruct (WithdrawalCreate.amount body) as [amt|]; [|off_market_leaf].
  destruct (_ || _); [off_market_leaf|].
  off_market_bind record; [|off_market_leaf].
  apply keeps_call; [apply off_market_refl|].
  intros d a d' [= _ <-]. repeat split. exists [].
  split; [simpl; now rewrite app_nil_r | intros x []].
Qed.

Lemma lookup_auction_row (auctionId : Id) (d : DB) (a : AuctionWithRelations) :
  lookup_auction auctionId d = Some a ->
  find (fun x => String.eqb (Auction.id x) auctionId) (auctions d)
  = Some (auction_row a).
Proof.
  unfold lookup_auction. destruct (find _ (auctions d)); [|discriminate].
  now intros [= <-].
Qed.

(** What each request does to the store. *)
Lemma serve_effect (r : Request) (p : Plan) (d : DB) : effect r d (serve r p d).
Proof.
  destruct r; cbn [serve].
  - destruct (mint_outcomes user body draws nftUuid txUuid txHash p d)
      as [[-> _] | (tokenId & av & _ & _ & Hc & Hf & ->)];
      [apply effect_none | now apply effect_mint].
  - destruct (purchase_outcomes user nftId now txUuid txHash p d)
      as [[_ ->] | (nft & price & Hpre & ->)];
      [apply effect_none | now apply effect_purchase with (now := now) (nft := nft)].
  - destruct (PUT_nfts_id_outcomes user id body p d)
      as [[_ ->] | (n & _ & _ & _ & ->)];
      [apply effect_none | apply effect_update].
  - destruct (DELETE_nfts_id_outcomes user id p d)
      as [[_ ->] | (n & _ & _ & Ht & Ha & ->)];
      [apply effect_none | now apply effect_delete].
  - (* deletion of a collection *)
    unfold DELETE_collections_id, answer, DELETE_collections_id_body,
      validateCollectionOwnership, delete_collection.
    unfold bind, read, call, ret.
    destruct p as [|[e|] p]; simpl; try apply effect_none.
    all: destruct (find _ (collections d)) as [c|] eqn:Hc; simpl;
      try apply effect_none.
    all: destruct (isAdmin user); simpl.
    all: try (destruct p as [|[e|] p]; simpl; try apply effect_none).
    all: rewrite ?Hc; simpl.
    all: try (destruct (String.eqb (Collection.creatorId c) (userId user));
              simpl; try apply effect_none).
    all: destruct (count_nfts_of id d) as [|k] eqn:Hn; simpl;
      try apply effect_none.
    all: try (destruct p as [|[e|] p]; simpl; try apply effect_none).
    all: rewrite ?Hc; simpl; try apply effect_none.
    all: now apply effect_delete_collection.
  - destruct (auction_outcomes user body now uuid p d)
      as [[_ ->] | ((nft & Hn & _) & _ & ->)];
      [apply effect_none | now apply effect_auction with (nft := nft)].
  - destruct (store_up p 1) eqn:Hup.
    + rewrite bid_checks by exact Hup.
      destruct (lookup_auction auctionId d) as [a|] eqn:Ha;
        [|apply effect_none].
      destruct (negb _); [apply effect_none|].
      destruct (_ <=? _)%Z; [apply effect_none|].
      destruct (nullable_is _ _); [apply effect_none|].
      destruct (Qlt_bool _ _); [apply effect_none|].
      destruct (match bids_0 a with Some _ => _ | None => _ end);
        [apply effect_none|].
      apply lookup_auction_row in Ha.
      destruct (nth_error p 1) as [[e|]|]; simpl;
        [apply effect_none | now apply effect_bid | now apply effect_bid].
    + destruct (bid_store_down user auctionId amount now uuid p d Hup)
        as [e ->]. apply effect_none.
  - apply effect_off_market. unfold POST_stocks_purchases.
    apply keeps_respond. apply stock_purchase_off_market.
  - apply effect_off_market. unfold POST_stocks_purchases_claim.
    apply keeps_respond. apply claim_off_market.
  - apply effect_off_market. unfold POST_user_withdrawal_request.
    destruct (negb _); [apply off_market_refl|]. cbn [snd].
    apply keeps_answer. apply creation_off_market.
  - apply effect_off_market. unfold PUT_admin_withdrawal_request.
    apply keeps_respond. apply admin_update_off_market.
  - apply effect_off_market. unfold PUT_user_withdrawal_request.
    apply keeps_respond. apply user_update_off_market.
  - destruct (PUT_users_id_outcomes currentUser id validation p d)
      as [[_ ->] | (upd & u & _ & _ & _ & _ & _ & _ & ->)];
      [apply effect_none
      | apply effect_profile; now apply update_where_keys].
Qed.

Lemma update_where_in {R} (key : R -> Id) (id : Id) (f : R -> R)
  (rows : list R) (x : R) :
  In x rows ->
  In (if String.eqb (key x) id then f x else x) (update_where key id f rows).
Proof.
  intros Hin. unfold update_where.
  apply (in_map (fun r => if String.eqb (key r) id then f r else r)) in Hin.
  exact Hin.
Qed.

(** One request keeps the references. *)
Lemma effect_references (r : Request) (d d' : DB) :
  effect r d d' -> references_hold d -> references_hold d'.
Proof.
  intros He (Ha & Ht & Hb & Hc).
  destruct He as [ r d
                 | user body draws nftUuid txUuid txHash d tokenId H Hfirst
                 | user nftId now txUuid txHash d nft price H
                 | user id body d
                 | user id d H H0
                 | user id d H
                 | user body now uuid d nft H
                 | user auctionId amount now uuid d a H
                 | r d d' H
                 | currentUser id validation d rows Hids ].
  - repeat split; assumption.
  - (* mint *)
    repeat split; cbn [mint_applied auctions nfts transactions bids collections].
    + intros a Hin. destruct (Ha a Hin) as (n & Hn & Hid).
      exists n. split; [apply in_or_app; now left | exact Hid].
    + intros t id Hin Hid. apply in_app_or in Hin.
      destruct Hin as [Hin | [<- | []]]; [|discriminate Hid].
      destruct (Ht t id Hin Hid) as (n & Hn & E).
      exists n. split; [apply in_or_app; now left | exact E].
    + exact Hb.
    + intros n Hin Htr. apply in_app_or in Hin.
      destruct Hin as [Hin | [<- | []]]; [now apply Hc|].
      cbn [minted_nft NFT.collectionId] in *.
      unfold collection_allowed in H. rewrite Htr in H.
      destruct (find _ (collections d)) as [c|] eqn:F; [|discriminate H].
      apply find_some in F. destruct F as [Hin Hid].
      exists c. split; [exact Hin | now apply nullable_is_true].
  - (* purchase *)
    destruct H as (Hn & _).
    assert (Hkeep : forall x, In x (nfts d) ->
              exists x', In x' (update_where NFT.id nftId
                                   (sold_to (userId user)) (nfts d))
                         /\ NFT.id x' = NFT.id x).
    { intros x Hx. eexists. split; [apply update_where_in; exact Hx|].
      now destruct (String.eqb (NFT.id x) nftId). }
    repeat split;
      cbn [settlement_applied auctions nfts transactions bids collections].
    + intros a Hin. destruct (Ha a Hin) as (n & Hin' & Hid).
      destruct (Hkeep n Hin') as (n' & H1 & H2). exists n'. split; congruence.
    + intros t id Hin Hid. apply in_app_or in Hin.
      destruct Hin as [Hin | [<- | []]].
      * destruct (Ht t id Hin Hid) as (n & Hin' & E).
        destruct (Hkeep n Hin') as (n' & H1 & H2). exists n'. split; congruence.
      * injection Hid as <-. apply find_some in Hn. destruct Hn as [Hin E].
        apply String.eqb_eq in E.
        destruct (Hkeep nft Hin) as (n' & H1 & H2). exists n'.
        split; congruence.
    + exact Hb.
    + intros n Hin Htr. apply update_where_row in Hin.
      destruct Hin as (x & Hx & [-> | [_ ->]]); [now apply Hc|].
      now apply (Hc x Hx).
  - (* update *)
    assert (Hkeep : forall x, In x (nfts d) ->
              exists x', In x' (update_where NFT.id id (updated_with body)
                                             (nfts d))
                         /\ NFT.id x' = NFT.id x).
    { intros x Hx. eexists. split; [apply update_where_in; exact Hx|].
      now destruct (String.eqb (NFT.id x) id). }
    repeat split; cbn [set_nfts auctions nfts transactions bids collections].
    + intros a Hin. destruct (Ha a Hin) as (n & Hin' & Hid).
      destruct (Hkeep n Hin') as (n' & H1 & H2). exists n'. split; congruence.
    + intros t i Hin Hid. destruct (Ht t i Hin Hid) as (n & Hin' & E).
      destruct (Hkeep n Hin') as (n' & H1 & H2). exists n'. split; congruence.
    + exact Hb.
    + intros n Hin Htr. apply update_where_row in Hin.
      destruct Hin as (x & Hx & [-> | [_ ->]]); [now apply Hc|].
      now apply (Hc x Hx).
  - (* deletion of an NFT *)
    unfold count_transactions_of in H. unfold count_auctions_of in H0.
    rewrite count_zero in H. rewrite count_zero in H0.
    repeat split; cbn [set_nfts auctions nfts transactions bids collections].
    + intros a Hin. destruct (Ha a Hin) as (n & Hin' & Hid).
      exists n. split; [|exact Hid]. apply filter_In. split; [exact Hin'|].
      rewrite Hid. now rewrite (H0 a Hin).
    + intros t i Hin Hid. destruct (Ht t i Hin Hid) as (n & Hin' & E).
      exists n. split; [|exact E]. apply filter_In. split; [exact Hin'|].
      specialize (H t Hin). rewrite Hid in H. simpl in H. now rewrite E, H.
    + exact Hb.
    + intros n Hin Htr. apply filter_In in Hin. now apply Hc.
  - (* deletion of a collection *)
    unfold count_nfts_of in H. rewrite count_zero in H.
    repeat split;
      cbn [set_collections auctions nfts transactions bids collections];
      try assumption.
    intros n Hin Htr. destruct (Hc n Hin Htr) as (c & Hin' & E).
    exists c. split; [|exact E]. apply filter_In. split; [exact Hin'|].
    specialize (H n Hin). rewrite E in H. simpl in H. now rewrite H.
  - (* auction *)
    apply find_some in H. destruct H as [Hin E]. apply String.eqb_eq in E.
    repeat split;
      cbn [set_auctions auctions nfts transactions bids collections];
      try assumption.
    + intros a Hin'. apply in_app_or in Hin'.
      destruct Hin' as [Hin' | [<- | []]]; [now apply Ha|].
      exists nft. now split.
    + intros b Hin'. destruct (Hb b Hin') as (a & H1 & H2).
      exists a. split; [apply in_or_app; now left | exact H2].
  - (* bid *)
    apply find_some in H. destruct H as [Hin E]. apply String.eqb_eq in E.
    repeat split;
      cbn [set_bids auctions nfts transactions bids collections];
      try assumption.
    intros b Hin'. apply in_app_or in Hin'.
    destruct Hin' as [Hin' | [<- | []]]; [now apply Hb|].
    exists a. repeat split; assumption.
  - (* off the market *)
    destruct H as (_ & C & N & A & B & rows & T & Hrows).
    repeat split; rewrite ?N, ?A, ?B, ?C; try assumption.
    intros t id Hin Hid. rewrite T in Hin. apply in_app_or in Hin.
    destruct Hin as [Hin | Hin]; [now apply (Ht t)|].
    rewrite (Hrows t Hin) in Hid. discriminate Hid.
  - (* profile *)
    repeat split; assumption.
Qed.

(** X16. The routes keep the references of the store.  On a store where
    every auction and every ledger row that names an NFT names one that
    exists, every bid names an existing auction and carries its NFT, and
    every NFT with a collection names one that exists, the same holds after
    any requests to the routes that write (mint, purchase, update and
    deletion of an NFT, deletion of a collection, creation of an auction,
    bid, stock purchase, claim, creation and updates of withdrawal
    requests, update of a profile), served one after the other, however
    the store fails. *)
Theorem routes_keep_references (requests : list (Request * Plan)) (d : DB) :
  references_hold d -> references_hold (serve_all requests d).
Proof.
  revert d. induction requests as [|[r p] requests IH]; intros d H;
    [exact H|].
  simpl. apply IH. apply (effect_references r d); [apply serve_effect | exact H].
Qed.

Lemma routes_keep_references_witness :
  references_hold (serve_all example_traffic example_auction_house)
  /\ List.length (bids (serve_all example_traffic example_auction_house))
     = 1%nat.
Proof.
  split; [|reflexivity].
  apply routes_keep_references. repeat split.
  - intros a [<- | []]. exists example_nft. split; [now left | reflexivity].
  - intros t id [].
  - intros b [].
  - intros n [<- | []] H. discriminate H.
Defined.

(** One request leaves the ledger, the auctions and the bids in place and
    the users with their identifiers. *)
Lemma effect_history (r : Request) (d d' : DB) :
  effect r d d' ->
  (exists rows, transactions d' = transactions d ++ rows)
  /\ (exists rows, auctions d' = auctions d ++ rows)
  /\ (exists rows, bids d' = bids d ++ rows)
  /\ map User.id (users d') = map User.id (users d).
Proof.
  intros He.
  destruct He as [ r d
                 | user body draws nftUuid txUuid txHash d tokenId H Hfirst
                 | user nftId now txUuid txHash d nft price H
                 | user id body d
                 | user id d H H0
                 | user id d H
                 | user body now uuid d nft H
                 | user auctionId amount now uuid d a H
                 | r d d' H
                 | currentUser id validation d rows Hids ];
    cbn [mint_applied settlement_applied set_nfts set_collections set_auctions
         set_bids set_users transactions auctions bids users].
  10: { repeat split; try (exists []; now rewrite app_nil_r). exact Hids. }
  9: { destruct H as (U & _ & _ & A & B & rows & T & _).
       rewrite U, A, B. repeat split;
         [now exists rows | exists []; now rewrite app_nil_r
         | exists []; now rewrite app_nil_r]. }
  all: repeat split;
    try (exists []; now rewrite app_nil_r); try (eexists; reflexivity).
Qed.

(** X17. The history is append-only.  Whatever requests are served by the
    routes that write, one after the other and however the store fails, the
    ledger, the auctions and the bids of the store they started from are
    still there, row for row and in their order, with the new rows after
    them: no route edits or removes a ledger row, an auction (its current
    price and its active flag stay as they were created) or a bid; and the
    users keep their identifiers. *)
Theorem history_is_append_only (requests : list (Request * Plan)) (d : DB) :
  let d' := serve_all requests d in
  (exists rows, transactions d' = transactions d ++ rows)
  /\ (exists rows, auctions d' = auctions d ++ rows)
  /\ (exists rows, bids d' = bids d ++ rows)
  /\ map User.id (users d') = map User.id (users d).
Proof.
  revert d. induction requests as [|[r p] requests IH]; intros d; simpl.
  - repeat split; try (exists []; now rewrite app_nil_r).
  - destruct (effect_history r d (serve r p d) (serve_effect r p d))
      as ((t1 & T1) & (a1 & A1) & (b1 & B1) & U1).
    destruct (IH (serve r p d)) as ((t2 & T2) & (a2 & A2) & (b2 & B2) & U2).
    repeat split.
    + exists (t1 ++ t2). now rewrite T2, T1, app_assoc.
    + exists (a1 ++ a2). now rewrite A2, A1, app_assoc.
    + exists (b1 ++ b2). now rewrite B2, B1, app_assoc.
    + congruence.
Qed.

Lemma NoDup_app_filter {A B} (key : A -> B) (f : A -> bool) (l : list A)
  (m : list B) :
  NoDup (map key l ++ m) -> NoDup (map key (filter f l) ++ m).
Proof.
  induction l as [|x l IH]; simpl; [auto|].
  intros H. inversion H as [|k ks Hnot Hnd]; subst.
  destruct (f x); [|now apply IH].
  simpl. constructor; [|now apply IH].
  intros Hin. apply Hnot. apply in_app_or in Hin. apply in_or_app.
  destruct Hin as [Hin | Hin]; [|now right].
  left. apply in_map_iff in Hin. destruct Hin as (y & <- & Hy).
  apply filter_In in Hy. apply in_map. apply Hy.
Qed.

Lemma NoDup_app_l {A} (l m : list A) : NoDup (l ++ m) -> NoDup l.
Proof.
  induction l as [|x l IH]; simpl; [constructor|].
  intros H. inversion H as [|k ks Hnot Hnd]; subst.
  constructor; [|now apply IH].
  intros Hin. apply Hnot. apply in_or_app. now left.
Qed.

Lemma minted_ids_later (l : list Id) (r : Request) (p : Plan)
  (later : list (Request * Plan)) :
  NoDup (l ++ minted_ids ((r, p) :: later)) -> NoDup (l ++ minted_ids later).
Proof.
  destruct r; simpl; auto. apply NoDup_remove_1.
Qed.

(** One request keeps the sold NFTs, as long as a minted NFT comes with an
    identifier of its own. *)
Lemma effect_sold (r : Request) (p : Plan) (later : list (Request * Plan))
  (d d' : DB) :
  effect r d d' ->
  NoDup (map NFT.id (nfts d) ++ minted_ids ((r, p) :: later)) ->
  sales_recorded d ->
  NoDup (map NFT.id (nfts d') ++ minted_ids later)
  /\ sales_recorded d'
  /\ forall n, In n (nfts d) -> NFT.isSold n = true ->
       exists n', In n' (nfts d')
         /\ NFT.id n' = NFT.id n /\ NFT.tokenId n' = NFT.tokenId n
         /\ NFT.creatorId n' = NFT.creatorId n
         /\ NFT.ownerId n' = NFT.ownerId n
         /\ NFT.isSold n' = true.
Proof.
  intros He Hnd Hrec.
  assert (Hsame : forall n : NFT.t, In n (nfts d) -> NFT.isSold n = true ->
            exists n', In n' (nfts d)
              /\ NFT.id n' = NFT.id n /\ NFT.tokenId n' = NFT.tokenId n
              /\ NFT.creatorId n' = NFT.creatorId n
              /\ NFT.ownerId n' = NFT.ownerId n
              /\ NFT.isSold n' = true).
  { intros n Hin Hs. exists n. repeat split; auto. }
  destruct He as [ r d
                 | user body draws nftUuid txUuid txHash d tokenId H Hfirst
                 | user nftId now txUuid txHash d nft price H
                 | user id body d
                 | user id d H H0
                 | user id d H
                 | user body now uuid d nft H
                 | user auctionId amount now uuid d a H
                 | r d d' H
                 | currentUser id validation d rows Hids ].
  - split; [now apply (minted_ids_later _ r p)|]. now split.
  - (* mint *)
    cbn [mint_applied nfts transactions]. split; [|split].
    + rewrite map_app. simpl in *. now rewrite <- app_assoc.
    + intros n Hin Hs. apply in_app_or in Hin.
      destruct Hin as [Hin | [<- | []]]; [|discriminate Hs].
      destruct (Hrec n Hin Hs) as (t & Ht & E).
      exists t. split; [apply in_or_app; now left | exact E].
    + intros n Hin Hs. exists n. repeat split; auto.
      apply in_or_app. now left.
  - (* purchase *)
    destruct H as (Hn & _ & Hunsold & _).
    cbn [settlement_applied nfts transactions]. simpl in Hnd.
    split; [|split].
    + now rewrite update_where_keys.
    + intros n' Hin Hs. apply update_where_row in Hin.
      destruct Hin as (x & Hx & [-> | [Hid ->]]).
      * destruct (Hrec x Hx Hs) as (t & Ht & E).
        exists t. split; [apply in_or_app; now left | exact E].
      * eexists. split; [apply in_or_app; right; now left|].
        simpl. now rewrite Hid.
    + intros n Hin Hs.
      assert (Hne : String.eqb (NFT.id n) nftId = false).
      { apply String.eqb_neq. intros E.
        apply find_some in Hn. destruct Hn as [Hin' E'].
        apply String.eqb_eq in E'.
        assert (n = nft).
        { apply (unique_key NFT.id (nfts d)); auto.
          - now apply NoDup_app_l in Hnd.
          - congruence. }
        congruence. }
      exists n. repeat split; auto.
      pose proof (update_where_in NFT.id nftId (sold_to (userId user))
                    (nfts d) n Hin) as Hin'.
      now rewrite Hne in Hin'.
  - (* update *)
    cbn [set_nfts nfts transactions]. simpl in Hnd. split; [|split].
    + now rewrite update_where_keys.
    + intros n' Hin Hs. apply update_where_row in Hin.
      destruct Hin as (x & Hx & [-> | [Hid ->]]); [now apply Hrec|].
      now apply (Hrec x Hx).
    + intros n Hin Hs.
      exists (if String.eqb (NFT.id n) id then updated_with body n else n).
      split; [now apply update_where_in|].
      destruct (String.eqb (NFT.id n) id); repeat split; auto.
  - (* deletion of an NFT *)
    cbn [set_nfts nfts transactions]. simpl in Hnd. split; [|split].
    + now apply NoDup_app_filter.
    + intros n Hin Hs. apply filter_In in Hin. now apply Hrec.
    + intros n Hin Hs. exists n. repeat split; auto.
      apply filter_In. split; [exact Hin|].
      destruct (Hrec n Hin Hs) as (t & Ht & E).
      unfold count_transactions_of in H. rewrite count_zero in H.
      specialize (H t Ht). rewrite E in H. simpl in H. now rewrite H.
  - split; [exact Hnd|]. now split.
  - split; [exact Hnd|]. now split.
  - split; [exact Hnd|]. now split.
  - (* off the market *)
    destruct H as (_ & _ & N & _ & _ & rows & T & _).
    rewrite N. split; [now apply (minted_ids_later _ r p)|]. split.
    + intros n Hin Hs. rewrite N in Hin. destruct (Hrec n Hin Hs) as (t & Ht & E).
      exists t. split; [rewrite T; apply in_or_app; now left | exact E].
    + exact Hsame.
  - split; [exact Hnd|]. now split.
Qed.

(** X18. A sale is final.  On a store where every sold NFT is mentioned in
    the ledger, and for requests whose mints bring identifiers of their own
    (distinct from one another and from those of the store), every NFT
    that is sold is still there after the requests have been served, with
    its token, its creator and its owner, and still sold: no sequence of
    requests to the routes that write, however the store fails, removes a
    sold NFT, passes it on or makes it purchasable again. *)
Theorem sale_is_final (requests : list (Request * Plan)) (d : DB) :
  NoDup (map NFT.id (nfts d) ++ minted_ids requests) ->
  sales_recorded d ->
  forall n, In n (nfts d) -> NFT.isSold n = true ->
    exists n', In n' (nfts (serve_all requests d))
      /\ NFT.id n' = NFT.id n /\ NFT.tokenId n' = NFT.tokenId n
      /\ NFT.creatorId n' = NFT.creatorId n
      /\ NFT.ownerId n' = NFT.ownerId n
      /\ NFT.isSold n' = true.
Proof.
  revert d. induction requests as [|[r p] requests IH]; intros d Hnd Hrec n Hin Hs.
  - exists n. repeat split; auto.
  - simpl.
    destruct (effect_sold r p requests d (serve r p d) (serve_effect r p d)
                Hnd Hrec) as (Hnd' & Hrec' & Hkeep).
    destruct (Hkeep n Hin Hs) as (n1 & Hin1 & I1 & T1 & C1 & O1 & S1).
    destruct (IH (serve r p d) Hnd' Hrec' n1 Hin1 S1)
      as (n2 & Hin2 & I2 & T2 & C2 & O2 & S2).
    exists n2. repeat split; congruence.
Qed.

Lemma sale_is_final_witness :
  exists n',
    In n' (nfts (serve_all example_attempts example_sold))
    /\ NFT.id n' = "n1" /\ NFT.ownerId n' = Some "u2"
    /\ NFT.isSold n' = true.
Proof.
  destruct (sale_is_final example_attempts example_sold) with
    (n := sold_to "u2" example_nft)
    as (n' & Hin & Hid & _ & _ & Hown & Hsold).
  - simpl. constructor; [intros [H | []]; discriminate|].
    constructor; [intros [] | constructor].
  - intros n [<- | []] _. eexists. split; [now left | reflexivity].
  - now left.
  - reflexivity.
  - exists n'. repeat split; assumption.
Defined.

(** ** Tokens of minted NFTs *)

Lemma first_unused_spec (d : DB) (draws : list string) (tokenId : string) :
  first_unused d draws = Some tokenId ->
  In tokenId draws /\ ~ In tokenId (map NFT.tokenId (nfts d)).
Proof.
  unfold first_unused. intros H. apply find_some in H.
  destruct H as [Hin Hfree]. split; [exact Hin|].
  intros Hused. apply in_map_iff in Hused. destruct Hused as (n & Hn & Hin').
  destruct (find _ (nfts d)) as [x|] eqn:F; [discriminate Hfree|].
  apply (find_none _ _ F) in Hin'. rewrite Hn, String.eqb_refl in Hin'.
  discriminate Hin'.
Qed.

(** X19. Tokens stay distinct.  On a store whose NFTs carry distinct
    tokens, a mint request, whatever it is and however the store fails,
    leaves them distinct: the token of a created NFT is one of the draws
    of the generator and is carried by no NFT of the store. *)
Theorem mint_keeps_tokens_distinct (user : JWTPayload) (body : NFTCreate.t)
  (draws : list string) (nftUuid txUuid txHash : Id) (p : Plan) (d : DB) :
  NoDup (map NFT.tokenId (nfts d)) ->
  let out := POST_nfts user body draws nftUuid txUuid txHash p d in
  NoDup (map NFT.tokenId (nfts (snd out)))
  /\ forall st nft fee tx balance,
       fst out = Some (Success st (NFTCreated nft fee tx balance)) ->
       In (NFT.tokenId nft) draws
       /\ ~ In (NFT.tokenId nft) (map NFT.tokenId (nfts d))
       /\ nfts (snd out) = nfts d ++ [nft].
Proof.
  intros Hnd out.
  destruct (mint_outcomes user body draws nftUuid txUuid txHash p d)
    as [[Hd Hno] | (tokenId & av & _ & _ & _ & Hf & Hout)];
    fold out in Hd, Hno || fold out in Hout.
  - rewrite Hd. split; [exact Hnd|].
    intros st nft fee tx balance H. now destruct (Hno st (NFTCreated nft fee tx balance)).
  - destruct (first_unused_spec d draws tokenId Hf) as [Hin Hfree].
    rewrite Hout. cbn [fst snd mint_applied nfts]. split.
    + rewrite map_app. simpl.
      apply NoDup_Add with (a := tokenId) (l := map NFT.tokenId (nfts d)).
      * rewrite <- (app_nil_r (map NFT.tokenId (nfts d))) at 1.
        apply Add_app.
      * split; assumption.
    + intros st nft fee tx balance [= _ <- _ _ _]. simpl. repeat split; auto.
Qed.

Lemma mint_keeps_tokens_distinct_witness :
  NoDup (map NFT.tokenId
           (nfts (snd (POST_nfts ann example_art ["tok1"; "tok7"] "n7" "tx7" "h7"
                         [] (set_nfts example_wallet [example_nft])))))
  /\ map NFT.tokenId
       (nfts (snd (POST_nfts ann example_art ["tok1"; "tok7"] "n7" "tx7" "h7"
                     [] (set_nfts example_wallet [example_nft]))))
     = ["tok1"; "tok7"].
Proof.
  split; [|reflexivity].
  apply (mint_keeps_tokens_distinct ann example_art ["tok1"; "tok7"]
           "n7" "tx7" "h7" [] (set_nfts example_wallet [example_nft])).
  simpl. constructor; [intros [] | constructor].
Defined.

(** ** A stock purchase and the claims after it *)





(** ** Verification of a PIN *)

Section PinProperties.

Variable verifyPassword : string -> string -> bool.
Variable label : string.

(** A wrong value on a row that is not locked, on a store that answers. *)
Lemma wrong_pin_step (value : option string) (now : DateTime) (p : Plan)
  (row : PinColumns.t) :
  truthy (PinColumns.pinHash row) = true ->
  match PinColumns.pinLockedUntil row with
  | Some lockedUntil => (lockedUntil <= now)%Z
  | None => True
  end ->
  verifyPassword (trim (or_else value ""))
                 (or_else (PinColumns.pinHash row) "") = false ->
  store_up p 2 = true ->
  POST_verify_pin verifyPassword label value now p (Some row)
  = (if (5 <=? next_attempts row)%Z
     then Refused 429 (Text "Too many attempts. Locked for 10 minutes.")
     else Refused 400 (Text ("Invalid " ++ label)%string),
     Some (after_failure now row)).
Proof.
  intros Hhash Hlock Hwrong Hup. unfold POST_verify_pin.
  rewrite Hhash, Hwrong. cbn [negb].
  assert (Hl : match PinColumns.pinLockedUntil row with
               | Some lockedUntil => (now <? lockedUntil)%Z
               | None => false
               end = false).
  { destruct (PinColumns.pinLockedUntil row); [|reflexivity].
    apply Z.ltb_ge. exact Hlock. }
  rewrite Hl.
  destruct p as [|[e1|] [|[e2|] p]]; try discriminate Hup; reflexivity.
Qed.

(** Wrong values, one after the other, while fewer than five have been
    counted: each is answered 400 and counted, and no lock is set. *)
Lemma wrong_pins_counted (requests : list (option string * DateTime * Plan))
  (row : PinColumns.t) (n : Z) :
  truthy (PinColumns.pinHash row) = true ->
  PinColumns.pinLockedUntil row = None ->
  PinColumns.pinAttempts row = Some n ->
  (n + Z.of_nat (List.length requests) < 5)%Z ->
  (forall value now p, In (value, now, p) requests ->
     verifyPassword (trim (or_else value ""))
                    (or_else (PinColumns.pinHash row) "") = false
     /\ store_up p 2 = true) ->
  POST_verify_pin_each verifyPassword label requests (Some row)
  = (map (fun _ => Refused 400 (Text ("Invalid " ++ label)%string)) requests,
     Some {| PinColumns.pinHash := PinColumns.pinHash row;
             PinColumns.pinLockedUntil := None;
             PinColumns.pinAttempts :=
               Some (n + Z.of_nat (List.length requests))%Z;
             PinColumns.pinValidated := PinColumns.pinValidated row |}).
Proof.
  revert row n.
  induction requests as [|[[value now] p] requests IH];
    intros row n Hhash Hlock Hcount Hlt Hwrong.
  - simpl. f_equal. f_equal. destruct row; simpl in *. subst.
    f_equal. f_equal. lia.
  - cbn [POST_verify_pin_each map].
    destruct (Hwrong value now p (or_introl eq_refl)) as [Hw Hup].
    rewrite (wrong_pin_step value now p row Hhash) by
      (rewrite ?Hlock; auto).
    assert (Hnext : next_attempts row = (n + 1)%Z)
      by (unfold next_attempts; now rewrite Hcount).
    simpl List.length in Hlt.
    assert (Hfive : (5 <=? next_attempts row)%Z = false)
      by (rewrite Hnext; apply Z.leb_gt; lia).
    rewrite Hfive. cbn [fst snd].
    rewrite (IH (after_failure now row) (n + 1)%Z).
    + unfold after_failure. rewrite Hfive. cbn. f_equal. f_equal. f_equal.
      f_equal. simpl List.length. lia.
    + exact Hhash.
    + unfold after_failure. now rewrite Hfive.
    + unfold after_failure. cbn. now rewrite Hnext.
    + lia.
    + intros v t q Hin. apply (Hwrong v t q). now right.
Qed.

(** X21. Five wrong PINs lock the verification for ten minutes.  On a row
    with a PIN configured, no lock and no failure counted, and on a store
    that answers, four wrong values are each answered 400 and the fifth is
    answered 429 and sets the lock to ten minutes after its time.  Until
    then every request is turned away with 429 and changes nothing, the
    right PIN included, and the value is not even compared.  Once the lock
    has passed, the count is still five: a single wrong value locks again
    at once for ten minutes, and the right value is accepted, clears the
    count and the lock and marks the PIN validated. *)
Theorem five_wrong_pins_lock (row : PinColumns.t)
  (earlier : list (option string * DateTime * Plan))
  (value5 : option string) (t5 : DateTime) (p5 : Plan) :
  truthy (PinColumns.pinHash row) = true ->
  PinColumns.pinLockedUntil row = None ->
  PinColumns.pinAttempts row = Some 0%Z ->
  List.length earlier = 4%nat ->
  (forall value now p, In (value, now, p) (earlier ++ [(value5, t5, p5)]) ->
     verifyPassword (trim (or_else value ""))
                    (or_else (PinColumns.pinHash row) "") = false
     /\ store_up p 2 = true) ->
  let out := POST_verify_pin_each verifyPassword label
               (earlier ++ [(value5, t5, p5)]) (Some row) in
  let locked :=
    {| PinColumns.pinHash := PinColumns.pinHash row;
       PinColumns.pinLockedUntil := Some (t5 + 600000)%Z;
       PinColumns.pinAttempts := Some 5%Z;
       PinColumns.pinValidated := PinColumns.pinValidated row |} in
  map status_of (fst out) = [400; 400; 400; 400; 429]%Z
  /\ snd out = Some locked
  /\ (forall value now p,
        (now < t5 + 600000)%Z ->
        snd (POST_verify_pin verifyPassword label value now p (Some locked))
        = Some locked
        /\ (store_up p 1 = true ->
            fst (POST_verify_pin verifyPassword label value now p (Some locked))
            = Refused 429 (Text "Too many attempts. Try again later.")))
  /\ (forall value now p,
        (t5 + 600000 <= now)%Z ->
        store_up p 2 = true ->
        POST_verify_pin verifyPassword label value now p (Some locked)
        = if verifyPassword (trim (or_else value ""))
                            (or_else (PinColumns.pinHash row) "")
          then (Done 200 tt,
                Some {| PinColumns.pinHash := PinColumns.pinHash row;
                        PinColumns.pinLockedUntil := None;
                        PinColumns.pinAttempts := Some 0%Z;
                        PinColumns.pinValidated := true |})
          else (Refused 429 (Text "Too many attempts. Locked for 10 minutes."),
                Some {| PinColumns.pinHash := PinColumns.pinHash row;
                        PinColumns.pinLockedUntil := Some (now + 600000)%Z;
                        PinColumns.pinAttempts := Some 6%Z;
                        PinColumns.pinValidated :=
                          PinColumns.pinValidated row |})).
Proof.
  intros Hhash Hlock Hcount Hlen Hwrong out locked.
  assert (Hrun : out
                 = (map (fun _ => Refused 400 (Text ("Invalid " ++ label)%string))
                        earlier
                    ++ [Refused 429
                          (Text "Too many attempts. Locked for 10 minutes.")],
                    Some locked)).
  { unfold out.
    assert (Happ : forall l1 l2 u,
              POST_verify_pin_each verifyPassword label (l1 ++ l2) u
              = (fst (POST_verify_pin_each verifyPassword label l1 u)
                 ++ fst (POST_verify_pin_each verifyPassword label l2
                           (snd (POST_verify_pin_each verifyPassword label
                                   l1 u))),
                 snd (POST_verify_pin_each verifyPassword label l2
                        (snd (POST_verify_pin_each verifyPassword label
                                l1 u))))).
    { induction l1 as [|[[v t] q] l1 IH]; intros l2 u; simpl.
      - now destruct (POST_verify_pin_each _ _ l2 u).
      - now rewrite IH. }
    rewrite Happ.
    rewrite (wrong_pins_counted earlier row 0 Hhash Hlock Hcount).
    2:{ rewrite Hlen. simpl. lia. }
    2:{ intros v t q Hin. apply (Hwrong v t q). apply in_or_app. now left. }
    cbn [fst snd POST_verify_pin_each].
    destruct (Hwrong value5 t5 p5) as [Hw Hup];
      [apply in_or_app; right; now left|].
    rewrite wrong_pin_step; [| exact Hhash | exact I | exact Hw | exact Hup].
    rewrite Hlen. cbn. f_equal. }
  split; [|split; [|split]].
  - rewrite Hrun. cbn [fst]. rewrite map_app, map_map.
    destruct earlier as [|r1 [|r2 [|r3 [|r4 [|r5 l]]]]]; try discriminate Hlen.
    reflexivity.
  - now rewrite Hrun.
  - intros value now p Hnow.
    assert (Hl : (now <? t5 + 600000)%Z = true) by now apply Z.ltb_lt.
    unfold POST_verify_pin. cbn [locked PinColumns.pinHash
                                 PinColumns.pinLockedUntil].
    rewrite Hhash, Hl. cbn [negb].
    destruct p as [|[e|] p]; split; try reflexivity; discriminate.
  - intros value now p Hnow Hup.
    assert (Hl : (now <? t5 + 600000)%Z = false) by now apply Z.ltb_ge.
    unfold POST_verify_pin. cbn [locked PinColumns.pinHash
                                 PinColumns.pinLockedUntil].
    rewrite Hhash, Hl. cbn [negb].
    destruct (verifyPassword _ _); cbn [negb];
      destruct p as [|[e1|] [|[e2|] p]]; try discriminate Hup; reflexivity.
Qed.

End PinProperties.

Lemma five_wrong_pins_lock_witness :
  let out := POST_verify_pin_each example_compare "Withdrawal PIN"
               (example_guesses ++ [(Some "4444", 5000%Z, [])])
               (Some example_pin_row) in
  map status_of (fst out) = [400; 400; 400; 400; 429]%Z
  /\ status_of
       (fst (POST_verify_pin example_compare "Withdrawal PIN" (Some "2468")
               6000%Z [] (snd out))) = 429%Z.
Proof.
  intros out.
  destruct (five_wrong_pins_lock example_compare "Withdrawal PIN"
              example_pin_row example_guesses (Some "4444") 5000%Z [])
    as (Hreplies & Hrow & Hlocked & _).
  - reflexivity.
  - reflexivity.
  - reflexivity.
  - reflexivity.
  - intros value now p Hin. simpl in Hin.
    repeat (destruct Hin as [Hin | Hin];
            [injection Hin as <- <- <-; split; reflexivity|]).
    contradiction.
  - split; [exact Hreplies|].
    destruct (Hlocked (Some "2468") 6000%Z []) as [_ Hreply]; [lia|].
    exact (f_equal status_of
             (eq_trans
                (f_equal (fun u => fst (POST_verify_pin example_compare
                                          "Withdrawal PIN" (Some "2468")
                                          6000%Z [] u)) Hrow)
                (Hreply eq_refl))).
Defined.


(** ** Login *)

(** X22. Login is not rate limited.  The route asks the limiter and
    negates the object it returns, which is never false: whatever the
    limiter has counted, the request is never answered 429, and the reply
    and the store do not depend on the map of the limiter nor on the time,
    also when the limiter itself reports that the limit of 10 requests per
    15 minutes is used up.  The limiter keeps counting all the same. *)
Theorem login_is_not_rate_limited (verifyPassword : string -> string -> bool)
  (passwordHash : User.t -> string) (clientIP : string)
  (validation : option (string * string)) (now : Z) (m : RateLimitMap)
  (p : Plan) (d : DB) :
  let out := POST_auth_login verifyPassword passwordHash clientIP validation
               now m p d in
  status_of (fst (fst out)) <> 429%Z
  /\ snd out = d
  /\ snd (fst out)
     = snd (rateLimit ("login:" ++ clientIP)%string 10 900000 now m)
  /\ (forall now' m',
        fst (fst (POST_auth_login verifyPassword passwordHash clientIP
                    validation now' m' p d))
        = fst (fst out))
  /\ (forall e,
        NoDup (map fst m) ->
        rate_get ("login:" ++ clientIP)%string m = Some e ->
        (now <= RateEntry.resetTime e)%Z ->
        (10 <= RateEntry.count e)%Z ->
        RateResult.success
          (fst (rateLimit ("login:" ++ clientIP)%string 10 900000 now m))
        = false).
Proof.
  intros out.
  assert (Hreply : forall now' m',
            fst (fst (POST_auth_login verifyPassword passwordHash clientIP
                        validation now' m' p d))
            = match validation with
              | None => Refused 400 (Text "Validation failed")
              | Some (emailOrUsername, password) =>
                  fst (answer (POST_auth_login_body verifyPassword passwordHash
                                 emailOrUsername password) refused_500 p d)
              end).
  { intros now' m'. unfold POST_auth_login. cbn [not_object].
    destruct validation as [[u pw]|]; reflexivity. }
  split; [|split; [|split; [|split]]].
  - unfold out. rewrite Hreply.
    destruct validation as [[u pw]|]; [|discriminate].
    unfold answer, POST_auth_login_body, findFirst_user, bind, read, call, ret.
    destruct p as [|[e|] p]; simpl; try discriminate;
      (destruct (find _ (users d)); [|discriminate];
       destruct (verifyPassword _ _); discriminate).
  - unfold out, POST_auth_login. cbn [not_object].
    destruct validation as [[u pw]|]; [|reflexivity]. cbn [snd].
    unfold answer, POST_auth_login_body, findFirst_user, bind, read, call, ret.
    destruct p as [|[e|] p]; simpl; try reflexivity;
      (destruct (find _ (users d)); [|reflexivity];
       destruct (verifyPassword _ _); reflexivity).
  - unfold out, POST_auth_login. cbn [not_object].
    destruct validation as [[u pw]|]; reflexivity.
  - intros now' m'. unfold out. now rewrite !Hreply.
  - intros e Hnd Hget Hlive Hfull.
    rewrite (rateLimit_live _ 10 900000 now m e Hnd Hget Hlive).
    apply Z.leb_le in Hfull. now rewrite Hfull.
Qed.

Lemma login_is_not_rate_limited_witness :
  RateResult.success
    (fst (rateLimit "login:10.0.0.1" 10 900000 5000 example_login_map)) = false
  /\ fst (fst (POST_auth_login example_compare (fun _ => "hash of secret")
                 "10.0.0.1" (Some ("ann", "secret")) 5000 example_login_map
                 [] example_market))
     = Done 200 {| User.id := "u1"; User.username := "ann";
                   User.email := "ann@example.org"; User.isAdmin := false |}.
Proof.
  destruct (login_is_not_rate_limited example_compare
              (fun _ => "hash of secret") "10.0.0.1" (Some ("ann", "secret"))
              5000 example_login_map [] example_market)
    as (_ & _ & _ & _ & Hfull).
  split; [|reflexivity].
  apply (Hfull {| RateEntry.count := 10; RateEntry.resetTime := 900000 |}).
  - simpl. constructor; [intros [] | constructor].
  - reflexivity.
  - simpl. lia.
  - simpl. lia.
Defined.


(** ** Ownership *)

(** X23. Ownership is set by minting and by purchase only.  After any
    request to the routes that write, however the store fails, every NFT of
    the store is a row that was there with the same owner, creator and sold
    flag, or the row a mint request has just created for its user, or a
    row that the purchase request just served has sold to its buyer.  No
    other request moves an NFT: bids and auctions, ended or not, never do,
    and no route settles an auction. *)
Theorem ownership_moves_only_by_purchase (r : Request) (p : Plan) (d : DB)
  (n' : NFT.t) :
  In n' (nfts (serve r p d)) ->
  (exists n, In n (nfts d)
     /\ NFT.id n' = NFT.id n /\ NFT.ownerId n' = NFT.ownerId n
     /\ NFT.creatorId n' = NFT.creatorId n /\ NFT.isSold n' = NFT.isSold n)
  \/ (exists user body draws nftUuid txUuid txHash,
        r = MintNFT user body draws nftUuid txUuid txHash
        /\ NFT.id n' = nftUuid /\ NFT.ownerId n' = Some (userId user)
        /\ NFT.creatorId n' = userId user /\ NFT.isSold n' = false)
  \/ (exists user nftId now txUuid txHash n,
        r = PurchaseNFT user nftId now txUuid txHash
        /\ In n (nfts d) /\ NFT.id n = nftId /\ NFT.id n' = nftId
        /\ NFT.ownerId n' = Some (userId user) /\ NFT.isSold n' = true
        /\ NFT.creatorId n' = NFT.creatorId n).
Proof.
  pose proof (serve_effect r p d) as He. revert He.
  generalize (serve r p d). intros d' He Hin.
  assert (Hsame : forall x : NFT.t, In x (nfts d) ->
            exists n, In n (nfts d)
              /\ NFT.id x = NFT.id n /\ NFT.ownerId x = NFT.ownerId n
              /\ NFT.creatorId x = NFT.creatorId n
              /\ NFT.isSold x = NFT.isSold n).
  { intros x Hx. exists x. repeat split; auto. }
  destruct He as [ r d
                 | user body draws nftUuid txUuid txHash d tokenId H Hfirst
                 | user nftId now txUuid txHash d nft price H
                 | user id body d
                 | user id d H H0
                 | user id d H
                 | user body now uuid d nft H
                 | user auctionId amount now uuid d a H
                 | r d d' H
                 | currentUser id validation d rows Hids ];
    cbn [mint_applied settlement_applied set_nfts set_collections set_auctions
         set_bids set_users nfts] in Hin.
  - left. now apply Hsame.
  - apply in_app_or in Hin. destruct Hin as [Hin | [<- | []]].
    + left. now apply Hsame.
    + right. left. exists user, body, draws, nftUuid, txUuid, txHash.
      repeat split.
  - apply update_where_row in Hin.
    destruct Hin as (x & Hx & [-> | [Hid ->]]).
    + left. now apply Hsame.
    + right. right. exists user, nftId, now, txUuid, txHash, x.
      repeat split; auto.
  - apply update_where_row in Hin.
    destruct Hin as (x & Hx & [-> | [Hid ->]]).
    + left. now apply Hsame.
    + left. exists x. repeat split; auto.
  - apply filter_In in Hin. left. now apply Hsame.
  - left. now apply Hsame.
  - left. now apply Hsame.
  - left. now apply Hsame.
  - destruct H as (_ & _ & N & _). rewrite N in Hin. left. now apply Hsame.
  - left. now apply Hsame.
Qed.

Lemma ownership_moves_only_by_purchase_witness :
  In example_nft
     (nfts (serve (PlaceBid bob "a1" 1.5 6000 "b1") [] example_auction_house))
  /\ exists n, In n (nfts example_auction_house)
       /\ NFT.id example_nft = NFT.id n
       /\ NFT.ownerId example_nft = NFT.ownerId n.
Proof.
  assert (Hin : In example_nft
                   (nfts (serve (PlaceBid bob "a1" 1.5 6000 "b1") []
                            example_auction_house))) by now left.
  split; [exact Hin|].
  destruct (ownership_moves_only_by_purchase _ _ _ example_nft Hin)
    as [(n & Hn & Hid & Hown & _)
       | [(user & body & draws & nftUuid & txUuid & txHash & Hr & _)
         | (user & nftId & now & txUuid & txHash & n & Hr & _)]];
    try discriminate Hr.
  exists n. repeat split; assumption.
Defined.


(** ** The statistics of a profile after a purchase *)






(** ** Slugs *)

Lemma a_z_0_9_not_dash (c : ascii) :
  is_a_z_0_9 c = true -> Ascii.eqb c "-" = false.
Proof.
  destruct c as [[] [] [] [] [] [] [] []]; vm_compute; congruence.
Qed.

Lemma a_z_0_9_lower (c : ascii) : is_a_z_0_9 c = true -> lower_ascii c = c.
Proof.
  destruct c as [[] [] [] [] [] [] [] []]; vm_compute; congruence.
Qed.

Lemma replace_others_dashed (in_run : bool) (s : string) :
  dashed in_run (replace_others in_run s) = true.
Proof.
  revert in_run. induction s as [|c s IH]; intros in_run; simpl;
    [reflexivity|].
  destruct (is_a_z_0_9 c) eqn:E; simpl.
  - rewrite E. apply IH.
  - destruct in_run; [apply IH|]. simpl. apply IH.
Qed.

Lemma dashed_no_leading (s : string) :
  dashed true s = true -> strip_leading_dashes s = s.
Proof.
  destruct s as [|c s]; simpl; [reflexivity|].
  destruct (is_a_z_0_9 c) eqn:E.
  - now rewrite (a_z_0_9_not_dash c E).
  - rewrite andb_false_r. discriminate.
Qed.

Lemma strip_leading_dashed (s : string) :
  dashed false s = true -> dashed true (strip_leading_dashes s) = true.
Proof.
  destruct s as [|c s]; simpl; [reflexivity|].
  destruct (is_a_z_0_9 c) eqn:E.
  - rewrite (a_z_0_9_not_dash c E). simpl. now rewrite E.
  - destruct (Ascii.eqb c "-"); [|discriminate]. simpl.
    intros H. now rewrite (dashed_no_leading s H).
Qed.

Lemma strip_trailing_shaped (after_dash : bool) (s : string) :
  dashed after_dash s = true ->
  strip_trailing_dashes s = EmptyString
  \/ slug_body after_dash (strip_trailing_dashes s) = true.
Proof.
  revert after_dash. induction s as [|c s IH]; intros after_dash; simpl;
    [now left|].
  destruct (is_a_z_0_9 c) eqn:E.
  - intros H. right. rewrite (a_z_0_9_not_dash c E).
    destruct (IH false H) as [-> | Hk].
    + simpl. now rewrite E.
    + destruct (strip_trailing_dashes s) as [|k ks] eqn:K;
        simpl; now rewrite E.
  - destruct (Ascii.eqb c "-") eqn:D; [|discriminate].
    destruct after_dash; [discriminate|]. simpl. intros H.
    destruct (IH true H) as [-> | Hk]; [now left|].
    destruct (strip_trailing_dashes s) as [|k ks] eqn:K; [now left|].
    right. simpl slug_body at 1. rewrite E, D. exact Hk.
Qed.

Lemma slug_body_dashed (after_dash : bool) (s : string) :
  slug_body after_dash s = true -> dashed after_dash s = true.
Proof.
  revert after_dash. induction s as [|c s IH]; intros after_dash; simpl;
    [reflexivity|].
  destruct (is_a_z_0_9 c); [apply IH|].
  destruct (Ascii.eqb c "-"); [|discriminate].
  destruct after_dash; [discriminate|]. simpl. apply IH.
Qed.

Lemma slug_body_lower (after_dash : bool) (s : string) :
  slug_body after_dash s = true -> toLowerCase s = s.
Proof.
  revert after_dash. induction s as [|c s IH]; intros after_dash; simpl;
    [reflexivity|].
  destruct (is_a_z_0_9 c) eqn:E.
  - intros H. now rewrite (a_z_0_9_lower c E), (IH false H).
  - destruct (Ascii.eqb c "-") eqn:D; [|discriminate].
    apply Ascii.eqb_eq in D. subst c.
    destruct after_dash; [discriminate|]. simpl. intros H.
    now rewrite (IH true H).
Qed.

Lemma dashed_replace_others (after_dash : bool) (s : string) :
  dashed after_dash s = true -> replace_others after_dash s = s.
Proof.
  revert after_dash. induction s as [|c s IH]; intros after_dash; simpl;
    [reflexivity|].
  destruct (is_a_z_0_9 c) eqn:E.
  - intros H. now rewrite (IH false H).
  - destruct (Ascii.eqb c "-") eqn:D; [|discriminate].
    apply Ascii.eqb_eq in D. subst c.
    destruct after_dash; [discriminate|]. simpl. intros H.
    now rewrite (IH true H).
Qed.

Lemma slug_body_no_trailing (after_dash : bool) (s : string) :
  slug_body after_dash s = true -> strip_trailing_dashes s = s.
Proof.
  revert after_dash. induction s as [|c s IH]; intros after_dash; simpl;
    [reflexivity|].
  destruct (is_a_z_0_9 c) eqn:E.
  - intros H. rewrite (IH false H), (a_z_0_9_not_dash c E).
    now destruct s.
  - destruct (Ascii.eqb c "-") eqn:D; [|discriminate].
    destruct after_dash; [discriminate|]. simpl. intros H.
    rewrite (IH true H). destruct s; [discriminate H | reflexivity].
Qed.

Lemma replace_others_empty (in_run : bool) (s : string) :
  has_a_z_0_9 s = false ->
  strip_leading_dashes (replace_others in_run s) = EmptyString.
Proof.
  revert in_run. induction s as [|c s IH]; intros in_run; simpl;
    [reflexivity|].
  destruct (is_a_z_0_9 c); [discriminate|]. simpl. intros H.
  destruct in_run; simpl; now apply IH.
Qed.

Lemma strip_trailing_keeps (s : string) :
  has_a_z_0_9 s = true -> strip_trailing_dashes s <> EmptyString.
Proof.
  induction s as [|c s IH]; simpl; [discriminate|].
  destruct (is_a_z_0_9 c) eqn:E; simpl.
  - intros _. rewrite (a_z_0_9_not_dash c E).
    now destruct (strip_trailing_dashes s).
  - intros H. specialize (IH H).
    now destruct (strip_trailing_dashes s).
Qed.

Lemma strip_leading_keeps (s : string) :
  has_a_z_0_9 s = true -> has_a_z_0_9 (strip_leading_dashes s) = true.
Proof.
  induction s as [|c s IH]; simpl; [discriminate|].
  destruct (Ascii.eqb c "-") eqn:D.
  - apply Ascii.eqb_eq in D. subst c. exact IH.
  - intros H. exact H.
Qed.

Lemma replace_others_keeps (in_run : bool) (s : string) :
  has_a_z_0_9 (replace_others in_run s) = has_a_z_0_9 s.
Proof.
  revert in_run. induction s as [|c s IH]; intros in_run; simpl;
    [reflexivity|].
  destruct (is_a_z_0_9 c) eqn:E; simpl.
  - now rewrite E.
  - destruct in_run; simpl; apply IH.
Qed.

(** X25. The base of a slug has the shape of one, whatever the name:
    characters of a-z and 0-9 with single dashes between them, no dash at
    the head or at the end.  Taking the base of a base changes nothing.
    The base is empty exactly when the name holds no letter of a-z or A-Z
    and no digit. *)
Theorem base_slug_shape (name : string) :
  slug_shaped (baseSlug name) = true
  /\ baseSlug (baseSlug name) = baseSlug name
  /\ (baseSlug name = EmptyString
      <-> has_a_z_0_9 (toLowerCase name) = false).
Proof.
  assert (Hshape : slug_shaped (baseSlug name) = true).
  { unfold baseSlug, slug_shaped.
    pose proof (replace_others_dashed false (toLowerCase name)) as H.
    apply strip_leading_dashed in H.
    destruct (strip_trailing_shaped true _ H) as [-> | Hk]; [reflexivity|].
    now destruct (strip_trailing_dashes _). }
  split; [exact Hshape|]. split.
  - destruct (baseSlug name) as [|c s] eqn:B; [reflexivity|].
    unfold slug_shaped in Hshape. unfold baseSlug.
    rewrite (slug_body_lower true _ Hshape).
    pose proof (slug_body_dashed true _ Hshape) as Hd.
    assert (Hd' : dashed false (String c s) = true).
    { simpl in *. destruct (is_a_z_0_9 c); [exact Hd|].
      rewrite andb_false_r in Hd. discriminate Hd. }
    rewrite (dashed_replace_others false _ Hd').
    rewrite (dashed_no_leading _ Hd).
    now apply (slug_body_no_trailing true).
  - unfold baseSlug. split.
    + intros H. destruct (has_a_z_0_9 (toLowerCase name)) eqn:K;
        [|reflexivity].
      exfalso. revert H. apply strip_trailing_keeps, strip_leading_keeps.
      now rewrite replace_others_keeps.
    + intros H. now rewrite (replace_others_empty false _ H).
Qed.

(** *** The loop *)

Lemma append_inj_l (b x y : string) : (b ++ x)%string = (b ++ y)%string -> x = y.
Proof.
  induction b as [|c b IH]; simpl; [auto|]. intros H. injection H. exact IH.
Qed.

Lemma append_longer (b x : string) :
  String.length (b ++ x) = (String.length b + String.length x)%nat.
Proof. induction b as [|c b IH]; simpl; [reflexivity | now rewrite IH]. Qed.

Lemma numbered_inj (base : string) (j k : nat) :
  numbered base j = numbered base k -> j = k.
Proof.
  unfold numbered. intros H. apply append_inj_l in H. simpl in H.
  injection H as H. apply DecimalNat.Unsigned.to_uint_inj.
  apply (f_equal DecimalString.NilEmpty.uint_of_string) in H.
  rewrite !DecimalString.NilEmpty.usu in H. now injection H.
Qed.

Lemma numbered_not_base (base : string) (k : nat) : numbered base k <> base.
Proof.
  unfold numbered. intros H. apply (f_equal String.length) in H.
  rewrite append_longer in H. simpl in H. lia.
Qed.

Lemma candidate_inj (base : string) (j k : nat) :
  candidate base j = candidate base k -> j = k.
Proof.
  destruct j as [|j], k as [|k]; simpl; intros H.
  - reflexivity.
  - symmetry in H. now apply numbered_not_base in H.
  - now apply numbered_not_base in H.
  - now apply numbered_inj in H.
Qed.

Lemma NoDup_map_injective {A B} (f : A -> B) (l : list A) :
  (forall x y, f x = f y -> x = y) -> NoDup l -> NoDup (map f l).
Proof.
  intros Hf. induction 1 as [|x l Hx Hnd IH]; simpl; constructor; [|exact IH].
  intros H. apply in_map_iff in H. destruct H as [y [E Hy]].
  apply Hf in E. now subst.
Qed.

Lemma candidates_not_all_taken (slugs : list string) (base : string) (i : nat) :
  (forall j, (j < i)%nat -> In (candidate base j) slugs) ->
  (i <= List.length slugs)%nat.
Proof.
  intros H.
  assert (Hnd : NoDup (map (candidate base) (seq 0 i))).
  { apply NoDup_map_injective; [|apply seq_NoDup].
    intros j k. apply candidate_inj. }
  assert (Hin : incl (map (candidate base) (seq 0 i)) slugs).
  { intros s Hs. apply in_map_iff in Hs. destruct Hs as [j [<- Hj]].
    apply in_seq in Hj. apply H. lia. }
  pose proof (NoDup_incl_length Hnd Hin) as L.
  now rewrite length_map, length_seq in L.
Qed.

Lemma existsb_eqb_In (s : string) (l : list string) :
  existsb (String.eqb s) l = true <-> In s l.
Proof.
  rewrite existsb_exists. split.
  - intros [x [Hx E]]. apply String.eqb_eq in E. now subst.
  - intros H. exists s. split; [exact H | apply String.eqb_refl].
Qed.

Lemma slug_loop_first_free (slugs : list string) (base : string) :
  forall turns i p,
    no_fault p = true ->
    (forall j, (j < i)%nat -> In (candidate base j) slugs) ->
    (List.length slugs < i + turns)%nat ->
    exists k,
      (k <= List.length slugs)%nat
      /\ slug_loop slugs base (candidate base i) (S i) turns p
         = Some (inr (candidate base k))
      /\ ~ In (candidate base k) slugs
      /\ forall j, (j < k)%nat -> In (candidate base j) slugs.
Proof.
  induction turns as [|turns IH]; intros i p Hp Hi Hlen.
  - apply candidates_not_all_taken in Hi. lia.
  - simpl. destruct p as [|[e|] p'] eqn:P.
    + destruct (existsb (String.eqb (candidate base i)) slugs) eqn:E.
      * apply existsb_eqb_In in E.
        apply (IH (S i) (@nil (option StoreError))); [reflexivity| |lia].
        intros j Hj. destruct (Nat.eq_dec j i) as [-> |]; [exact E|].
        apply Hi. lia.
      * exists i. split; [now apply candidates_not_all_taken in Hi|].
        split; [reflexivity|]. split; [|exact Hi].
        intros H. apply existsb_eqb_In in H. congruence.
    + discriminate Hp.
    + destruct (existsb (String.eqb (candidate base i)) slugs) eqn:E.
      * apply existsb_eqb_In in E.
        apply (IH (S i) p'); [exact (no_fault_tl _ Hp)| |lia].
        intros j Hj. destruct (Nat.eq_dec j i) as [-> |]; [exact E|].
        apply Hi. lia.
      * exists i. split; [now apply candidates_not_all_taken in Hi|].
        split; [reflexivity|]. split; [|exact Hi].
        intros H. apply existsb_eqb_In in H. congruence.
Qed.

(** X26. While the store answers, the loop of the slug generator ends
    within one lookup more than there are slugs in the store, and returns
    the first candidate that is free: the base itself, or the base with
    the least number from 1 on that no stored slug carries.  Every
    candidate before it is taken, and the slug returned is not in the
    store. *)
Theorem slug_is_first_free (slugs : list string) (name : string)
  (turns : nat) (p : Plan) :
  no_fault p = true ->
  (List.length slugs < turns)%nat ->
  exists k,
    (k <= List.length slugs)%nat
    /\ generateUniqueSlug slugs name turns p
       = Some (inr (candidate (baseSlug name) k))
    /\ ~ In (candidate (baseSlug name) k) slugs
    /\ forall j, (j < k)%nat -> In (candidate (baseSlug name) j) slugs.
Proof.
  intros Hp Hlen. unfold generateUniqueSlug.
  apply (slug_loop_first_free slugs (baseSlug name) turns 0 p Hp);
    [intros j Hj; lia | lia].
Qed.

Lemma slug_is_first_free_witness :
  let slugs := ["my-art"; "other"; "my-art-1"]%string in
  no_fault [] = true
  /\ (List.length slugs < 4)%nat
  /\ exists k,
      (k <= List.length slugs)%nat
      /\ generateUniqueSlug slugs "My  Art!" 4 []
         = Some (inr (candidate (baseSlug "My  Art!") k))
      /\ ~ In (candidate (baseSlug "My  Art!") k) slugs
      /\ forall j, (j < k)%nat -> In (candidate (baseSlug "My  Art!") j) slugs.
Proof.
  intros slugs. split; [reflexivity|]. split; [simpl; lia|].
  apply (slug_is_first_free slugs "My  Art!" 4 []); [reflexivity | simpl; lia].
Defined.
